(** * WorkBuddies dashboard: data store, filter pipeline and view coordination

    A shallow embedding of the coordination code of the WorkBuddies
    visualisation (utils.js, map.js, stateViz.js, dataLoader.js, app.js)
    together with the properties its design document states about it.

    JavaScript values are modelled as a small tagged union, numbers as
    IEEE-754 values ([spec_float]), row objects as finite maps from property
    names to values, and the browser (DOM fields, pending timers, the
    Leaflet map, the D3 chart) as one explicit [World] record that every
    handler transforms. *)

From Stdlib Require Import ZArith Bool Ascii String List Floats.SpecFloat.
From stdpp Require Import base option list gmap strings sorting pretty.

Local Open Scope string_scope.
Local Open Scope list_scope.

(* ===================================================================== *)
(** * The JavaScript fragment used by the program *)
(* ===================================================================== *)

Module Js.

(** Numbers are IEEE-754 doubles. *)
Definition number := spec_float.

Definition zero : number := S754_zero false.

(** An integer as a number (enough to write coordinates in examples). *)
Definition of_Z (z : Z) : number :=
  match z with
  | Z0 => S754_zero false
  | Zpos p => S754_finite false p 0
  | Zneg p => S754_finite true p 0
  end.

(** [isNaN] on a number. *)
Definition num_isNaN (n : number) : bool :=
  match n with S754_nan => true | _ => false end.

(** [x === y] on numbers: NaN differs from everything, +0 equals -0. *)
Definition num_eq (x y : number) : bool := SFeqb x y.

(** The values a row property can hold. *)
Inductive value :=
| Undefined
| Str (s : string)
| Num (n : number).

#[global] Instance number_eq_dec : EqDecision spec_float.
Proof. solve_decision. Defined.

#[global] Instance value_eq_dec : EqDecision value.
Proof. solve_decision. Defined.

(** ToBoolean. *)
Definition truthy (v : value) : bool :=
  match v with
  | Undefined => false
  | Str s => negb (String.eqb s "")
  | Num n => negb (num_isNaN n || num_eq n zero)
  end.

(** [a || b]. *)
Definition or (a b : value) : value := if truthy a then a else b.

(** [a === b]. *)
Definition strict_eq (a b : value) : bool :=
  match a, b with
  | Undefined, Undefined => true
  | Str s, Str t => String.eqb s t
  | Num x, Num y => num_eq x y
  | _, _ => false
  end.

(** [String.prototype.toLowerCase], on ASCII text. *)
Definition lower_char (c : ascii) : ascii :=
  let n := N_of_ascii c in
  if ((65 <=? n) && (n <=? 90))%N then ascii_of_N (n + 32) else c.

Fixpoint toLowerCase (s : string) : string :=
  match s with
  | EmptyString => EmptyString
  | String c s' => String (lower_char c) (toLowerCase s')
  end.

(** [s.includes(sub)]: [sub] occurs somewhere in [s]. *)
Fixpoint includes (s sub : string) : bool :=
  String.prefix sub s ||
  match s with
  | EmptyString => false
  | String _ s' => includes s' sub
  end.

(** [String.prototype.trim], on ASCII white space. *)
Definition is_space (c : ascii) : bool :=
  let n := N_of_ascii c in
  ((n =? 32) || ((9 <=? n) && (n <=? 13)))%N.

Fixpoint trimStart (s : string) : string :=
  match s with
  | EmptyString => EmptyString
  | String c s' => if is_space c then trimStart s' else s
  end.

Fixpoint trimEnd (s : string) : string :=
  match s with
  | EmptyString => EmptyString
  | String c s' =>
      match trimEnd s' with
      | EmptyString => if is_space c then EmptyString else String c EmptyString
      | t => String c t
      end
  end.

Definition trim (s : string) : string := trimEnd (trimStart s).

(** [s.split(sep)] for a one-character separator. *)
Fixpoint split (sep : ascii) (s : string) : list string :=
  match s with
  | EmptyString => [EmptyString]
  | String c s' =>
      if Ascii.eqb c sep then EmptyString :: split sep s'
      else match split sep s' with
           | [] => [String c EmptyString]
           | w :: ws => String c w :: ws
           end
  end.

(** The decimal text of a non-negative integer, as template literals and
    [textContent] assignments produce it. *)
Definition nat_to_string (n : nat) : string := pretty n.

(** [Array.from(new Set(l))]: the distinct elements in order of first
    insertion. *)
Fixpoint set_from_list (l : list string) (seen : list string) : list string :=
  match l with
  | [] => []
  | x :: l' =>
      if bool_decide (x ∈ seen) then set_from_list l' seen
      else x :: set_from_list l' (x :: seen)
  end.

(** [Array.prototype.sort()] without a comparator, on strings: ascending
    order of code units. *)
Definition sort (l : list string) : list string := merge_sort String.le l.

End Js.

(* ===================================================================== *)
(** * Rows, the data store and the page *)
(* ===================================================================== *)

(** A parsed CSV row is a plain object: property names to values. *)
Abbreviation Row := (gmap string Js.value).

(** [row.key]: a missing property reads as [undefined]. *)
Definition prop (r : Row) (key : string) : Js.value :=
  default Js.Undefined (r !! key).

(** [window.WorkBuddies.data], created by [utils.init]. *)
Record DataStore := mkData {
  raw : option (list Row);
  filtered : option (list Row);
  states : option (list string);
  activeTab : string;
  isLoading : bool;
  lastFilterApplied : Z
}.

(** The form controls and text nodes of index.html that the code reads or
    writes: the name box, the region select with its options, the counter
    and the error boxes appended to the body. *)
Record Dom := mkDom {
  name_filter : string;
  state_filter : string;
  state_options : list string;
  total_count : string;
  error_messages : list string
}.

(** What the Leaflet map was last asked to show. *)
Inductive Viewport :=
| SetView (lat lng : Z) (zoom : Z)
| FitBounds (points : list (Js.value * Js.value))
| FlyTo (lat lng : Js.value) (zoom : Z).

Record Marker := mkMarker {
  marker_lat : Js.value;
  marker_lng : Js.value;
  marker_row : Row
}.

(** [mapViz]: [map] is [None] until [initMap] has created the Leaflet map. *)
Record MapViz := mkMap {
  map : option Viewport;
  markers : list Marker;
  no_data_message : bool
}.

(** The content of [#state-viz-container]. The bars are kept as the
    [stateCounts] object they are drawn from; their left-to-right order is
    not modelled. *)
Inductive SvgContent :=
| SvgBlank
| SvgNoData
| SvgBars (stateCounts : gmap string nat).

Inductive StateVizContainer :=
| ContainerEmpty
| D3NotAvailableMessage
| Svg (content : SvgContent).

(** The closure handed to [setTimeout] by [filterData]. *)
Record FilterTask := mkTask {
  currentFilterTime : Z;
  nameFilter : string;
  stateFilter : string
}.

Record World := mkWorld {
  data : DataStore;
  dom : Dom;
  mapViz : MapViz;
  stateVizContainer : StateVizContainer;
  timers : list FilterTask;
  listening : bool
}.

#[global] Instance DataStore_eq_dec : EqDecision DataStore.
Proof. solve_decision. Defined.
#[global] Instance Dom_eq_dec : EqDecision Dom.
Proof. solve_decision. Defined.
#[global] Instance Viewport_eq_dec : EqDecision Viewport.
Proof. solve_decision. Defined.
#[global] Instance Marker_eq_dec : EqDecision Marker.
Proof. solve_decision. Defined.
#[global] Instance MapViz_eq_dec : EqDecision MapViz.
Proof. solve_decision. Defined.
#[global] Instance SvgContent_eq_dec : EqDecision SvgContent.
Proof. solve_decision. Defined.
#[global] Instance StateVizContainer_eq_dec : EqDecision StateVizContainer.
Proof. solve_decision. Defined.
#[global] Instance FilterTask_eq_dec : EqDecision FilterTask.
Proof. solve_decision. Defined.
#[global] Instance World_eq_dec : EqDecision World.
Proof. solve_decision. Defined.

(** The outcome of one [fetch]. *)
Inductive FetchResult :=
| NetworkError
| Response (ok : bool) (body : string).

(** What the page gets from the browser and from the libraries index.html
    loads from a CDN (each may be missing when its script failed to load);
    [leaflet] tells whether the global [L] exists. *)
Record Runtime := mkRuntime {
  fetch : string -> FetchResult;
  parseFloat : string -> Js.number;
  toNumber : string -> Js.number;
  DOMPurify : option (string -> string);
  Papa : option (string -> list (list string));
  d3 : bool;
  leaflet : bool
}.

(** Field updates. *)
Definition with_data (f : DataStore -> DataStore) (w : World) : World :=
  mkWorld (f (data w)) (dom w) (mapViz w) (stateVizContainer w) (timers w) (listening w).
Definition with_dom (f : Dom -> Dom) (w : World) : World :=
  mkWorld (data w) (f (dom w)) (mapViz w) (stateVizContainer w) (timers w) (listening w).
Definition with_mapViz (f : MapViz -> MapViz) (w : World) : World :=
  mkWorld (data w) (dom w) (f (mapViz w)) (stateVizContainer w) (timers w) (listening w).
Definition with_container (c : StateVizContainer) (w : World) : World :=
  mkWorld (data w) (dom w) (mapViz w) c (timers w) (listening w).
Definition with_timers (f : list FilterTask -> list FilterTask) (w : World) : World :=
  mkWorld (data w) (dom w) (mapViz w) (stateVizContainer w) (f (timers w)) (listening w).
Definition with_listening (b : bool) (w : World) : World :=
  mkWorld (data w) (dom w) (mapViz w) (stateVizContainer w) (timers w) b.

Definition set_raw (v : option (list Row)) (d : DataStore) : DataStore :=
  mkData v (filtered d) (states d) (activeTab d) (isLoading d) (lastFilterApplied d).
Definition set_filtered (v : option (list Row)) (d : DataStore) : DataStore :=
  mkData (raw d) v (states d) (activeTab d) (isLoading d) (lastFilterApplied d).
Definition set_states (v : option (list string)) (d : DataStore) : DataStore :=
  mkData (raw d) (filtered d) v (activeTab d) (isLoading d) (lastFilterApplied d).
Definition set_activeTab (v : string) (d : DataStore) : DataStore :=
  mkData (raw d) (filtered d) (states d) v (isLoading d) (lastFilterApplied d).
Definition set_isLoading (v : bool) (d : DataStore) : DataStore :=
  mkData (raw d) (filtered d) (states d) (activeTab d) v (lastFilterApplied d).
Definition set_lastFilterApplied (v : Z) (d : DataStore) : DataStore :=
  mkData (raw d) (filtered d) (states d) (activeTab d) (isLoading d) v.

Definition set_name_filter (v : string) (d : Dom) : Dom :=
  mkDom v (state_filter d) (state_options d) (total_count d) (error_messages d).
Definition set_total_count (v : string) (d : Dom) : Dom :=
  mkDom (name_filter d) (state_filter d) (state_options d) v (error_messages d).
Definition add_error_message (v : string) (d : Dom) : Dom :=
  mkDom (name_filter d) (state_filter d) (state_options d) (total_count d)
        (error_messages d ++ [v]).

(** [select.value = v]: the option with that value becomes selected; when
    there is none, nothing is selected and the value reads as the empty
    string. *)
Definition set_state_filter (v : string) (d : Dom) : Dom :=
  mkDom (name_filter d)
        (if bool_decide (v ∈ state_options d) then v else "")
        (state_options d) (total_count d) (error_messages d).

(* ===================================================================== *)
(** * Handlers: state passing with exceptions *)
(* ===================================================================== *)

Inductive Result (A : Type) :=
| Ok (a : A)
| Thrown (message : string).
Arguments Ok {A} a.
Arguments Thrown {A} message.

(** A handler runs on the world and either returns or throws; the world it
    leaves behind is kept in both cases. *)
Definition Eff (A : Type) : Type := World -> Result A * World.

Definition ret {A} (a : A) : Eff A := fun w => (Ok a, w).
Definition throw {A} (message : string) : Eff A := fun w => (Thrown message, w).
Definition bind {A B} (m : Eff A) (k : A -> Eff B) : Eff B :=
  fun w => match m w with
           | (Ok a, w') => k a w'
           | (Thrown e, w') => (Thrown e, w')
           end.
Definition get : Eff World := fun w => (Ok w, w).
Definition modify (f : World -> World) : Eff unit := fun w => (Ok tt, f w).

(** [try { body } catch (error) { handler }]. *)
Definition try_catch {A} (body : Eff A) (handler : string -> Eff A) : Eff A :=
  fun w => match body w with
           | (Ok a, w') => (Ok a, w')
           | (Thrown e, w') => handler e w'
           end.

(** [try { body } finally { cleanup }], for a cleanup that does not throw. *)
Definition finally {A} (body : Eff A) (cleanup : World -> World) : Eff A :=
  fun w => let '(r, w') := body w in (r, cleanup w').

(** The world a handler leaves behind. *)
Definition exec {A} (m : Eff A) (w : World) : World := snd (m w).

Declare Scope eff_scope.
Delimit Scope eff_scope with eff.
Notation "'let!' x ':=' m 'in' k" := (bind m (fun x => k))
  (at level 10, x name, m at level 100, k at level 200) : eff_scope.
Notation "m1 ';;' m2" := (bind m1 (fun _ => m2))
  (at level 100, m2 at level 200, right associativity) : eff_scope.
Local Open Scope eff_scope.

(* ===================================================================== *)
(** * utils.js: sanitising, loading, filtering *)
(* ===================================================================== *)

(** The fallback of [sanitizeString]: the chained [replace] calls escape
    the five characters; since [&] is replaced first, the chain acts on each
    character of the input independently. *)
Definition escape_char (c : ascii) : string :=
  if Ascii.eqb c "&" then "&amp;"
  else if Ascii.eqb c "<" then "&lt;"
  else if Ascii.eqb c ">" then "&gt;"
  else if Ascii.eqb c "034" then "&quot;"
  else if Ascii.eqb c "'" then "&#039;"
  else String c EmptyString.

Fixpoint escape_html (s : string) : string :=
  match s with
  | EmptyString => EmptyString
  | String c s' => escape_char c ++ escape_html s'
  end.

(** [utils.sanitizeString] (and the identical [dataLoader.sanitizeString]). *)
Definition sanitizeString (rt : Runtime) (str : Js.value) : string :=
  match str with
  | Js.Str s =>
      match DOMPurify rt with
      | Some sanitize => sanitize s
      | None => escape_html s
      end
  | _ => ""
  end.

(** [stateViz.sanitizeString] and [mapViz.sanitizeString]: falsy input gives
    the empty string, anything else goes to [utils.sanitizeString]. *)
Definition viz_sanitizeString (rt : Runtime) (str : Js.value) : string :=
  if negb (Js.truthy str) then "" else sanitizeString rt str.

(** The [transform] callback given to Papa.parse by [loadData] and by
    [parseCSV]. *)
Definition transform (rt : Runtime) (value header : string) : Js.value :=
  if String.eqb (Js.toLowerCase header) "latitude"
     || String.eqb (Js.toLowerCase header) "longitude"
  then let num := parseFloat rt value in
       Js.Num (if Js.num_isNaN num then Js.zero else num)
  else Js.Str (sanitizeString rt (Js.Str value)).

(** The [transformHeader] callback. *)
Definition transformHeader (rt : Runtime) (header : string) : string :=
  sanitizeString rt (Js.Str (Js.trim header)).

(** Papa.parse with [header: true]: the first record names the columns, each
    later record becomes an object whose properties are assigned column by
    column. [tokenize] is the library's splitting of the text into records
    and fields, with empty lines skipped. Cells beyond the header row, which
    the library collects under a property of its own, are left out, and a
    column name is taken to occur once. The row starts as an object literal
    and is filled by [row[field] = value], so a column named [__proto__]
    gets no property: the inherited setter ignores a text or a number. *)
Definition papa_row (f : string -> string -> Js.value)
    (headers cells : list string) : Row :=
  fold_left (fun (row : Row) (hc : string * string) =>
               if String.eqb (fst hc) "__proto__" then row
               else <[ fst hc := f (snd hc) (fst hc) ]> row)
            (combine headers cells) ∅.

Definition papa_parse (tokenize : string -> list (list string))
    (fh : string -> string) (f : string -> string -> Js.value)
    (csvText : string) : list Row :=
  match tokenize csvText with
  | [] => []
  | header :: records => List.map (papa_row f (List.map fh header)) records
  end.

(** The manual parser of [loadData], used when Papa is not loaded. The row
    is an object literal, so a column named [__proto__] gets no property:
    assigning a text to [rowObj.__proto__] runs the setter every object
    inherits, which ignores a value that is not an object. *)
Definition manual_row (rt : Runtime) (headers rowData : list string) : Row :=
  fold_left (fun (rowObj : Row) (hc : string * string) =>
               let header := fst hc in
               if String.eqb header "latitude" || String.eqb header "longitude"
               then let num := parseFloat rt (snd hc) in
                    <[ header := Js.Num (if Js.num_isNaN num then Js.zero else num) ]> rowObj
               else if String.eqb header "__proto__" then rowObj
               else <[ header := Js.Str (snd hc) ]> rowObj)
            (combine headers rowData) ∅.

Definition manual_rows (rt : Runtime) (headers : list string)
    (rows : list string) : list Row :=
  flat_map (fun line =>
              let rowData :=
                List.map (fun cell => sanitizeString rt (Js.Str (Js.trim cell)))
                         (Js.split "," line) in
              if bool_decide (rowData = [""]) then []
              else if negb (length rowData =? length headers)%nat then []
              else [manual_row rt headers rowData])
           rows.

Definition manual_parse (rt : Runtime) (csvText : string) : list Row :=
  match Js.split "010" (Js.trim csvText) with
  | [] => []
  | first :: rest =>
      let headers :=
        List.map (fun header => sanitizeString rt (Js.Str (Js.trim header)))
                 (Js.split "," first) in
      manual_rows rt headers rest
  end.

(** The placeholder name for position [index]:
    [`MysteriousSpuddy${1000 + index}`]. *)
Definition mysterious_name (index : nat) : string :=
  "MysteriousSpuddy" ++ Js.nat_to_string (1000 + index).

(** "Handle empty names": [data.forEach((item, index) => ...)], from
    position [index] on. *)
Fixpoint handle_empty_names (index : nat) (data : list Row) : list Row :=
  match data with
  | [] => []
  | item :: rest =>
      (if negb (Js.truthy (prop item "WorkbuddyName"))
       then <[ "WorkbuddyName" :=
                 Js.Str (mysterious_name index) ]> item
       else item)
      :: handle_empty_names (S index) rest
  end.

(** "Extract unique states": the State values that are truthy, through a
    [Set], sorted. Both parsers store strings under every column other than
    the coordinates, so only strings are collected. *)
Definition state_values (data : list Row) : list string :=
  omap (fun item : Row =>
          match prop item "State" with
          | Js.Str s => if Js.truthy (Js.Str s) then Some s else None
          | _ => None
          end) data.

Definition unique_states (data : list Row) : list string :=
  Js.sort (Js.set_from_list (state_values data) []).

(** [populateStateFilter]: every option but the first is removed and one
    option per state is added. Inserting or removing options makes the
    select fall back to its first option. *)
Definition populateStateFilter (rt : Runtime) (w : World) : World :=
  let d := dom w in
  let sts := default [] (states (data w)) in
  let options' :=
    take 1 (state_options d)
    ++ List.map (fun state => sanitizeString rt (Js.Str state)) sts in
  let changed := (1 <? length (state_options d))%nat || negb (length sts =? 0)%nat in
  with_dom (fun _ =>
    mkDom (name_filter d)
          (if changed then hd "" options' else state_filter d)
          options' (total_count d) (error_messages d)) w.

(** The three [fetch] attempts of [loadData]; [None] when the code throws
    (a rejected fetch, or no location answering with an ok status). *)
Definition fetch_csv (rt : Runtime) : option string :=
  match fetch rt "data/data.csv" with
  | NetworkError => None
  | Response true body => Some body
  | Response false _ =>
      match fetch rt "./data.csv" with
      | NetworkError => None
      | Response true body => Some body
      | Response false _ =>
          match fetch rt "../data.csv" with
          | Response true body => Some body
          | _ => None
          end
      end
  end.

(** The parsing step of [loadData]: Papa when it is loaded, the manual
    parser otherwise. *)
Definition parse_text (rt : Runtime) (csvText : string) : list Row :=
  match Papa rt with
  | Some tokenize => papa_parse tokenize (transformHeader rt) (transform rt) csvText
  | None => manual_parse rt csvText
  end.

(** [loadData]. Everything after the last [await] runs in one turn, so the
    store is written in a single step; whatever is thrown inside the [try]
    is replaced by one generic error. *)
Definition loadData (rt : Runtime) : Eff (list Row) :=
  match fetch_csv rt with
  | None => throw "Failed to load data. Please try again later."
  | Some csvText =>
      let data' := handle_empty_names 0 (parse_text rt csvText) in
      modify (with_data (set_raw (Some data'))) ;;
      modify (with_data (set_filtered (Some data'))) ;;
      modify (with_data (set_states (Some (unique_states data')))) ;;
      modify (with_dom (set_total_count (Js.nat_to_string (length data')))) ;;
      modify (populateStateFilter rt) ;;
      ret data'
  end.

(** [showAppLoading(show)]: only the store flag is kept. *)
Definition showAppLoading (show : bool) (w : World) : World :=
  with_data (set_isLoading show) w.

(** [filterData], called when the clock reads [now]: stamps the store,
    reads the two controls and defers the evaluation with [setTimeout]. *)
Definition filterData (now : Z) (w : World) : World :=
  let w1 := with_data (set_lastFilterApplied now) w in
  let currentFilterTime := lastFilterApplied (data w1) in
  let w2 :=
    match filtered (data w1) with
    | Some l => if (100 <? length l)%nat then showAppLoading true w1 else w1
    | None => w1
    end in
  let nameFilter := Js.toLowerCase (name_filter (dom w2)) in
  let stateFilter :=
    if String.eqb (state_filter (dom w2)) "" then "all" else state_filter (dom w2) in
  with_timers (fun q => q ++ [mkTask currentFilterTime nameFilter stateFilter]) w2.

(** The predicate given to [raw.filter]; [None] when it throws a TypeError
    (a name that is a number other than 0 and NaN has no [toLowerCase]). *)
Definition filter_predicate (nameFilter stateFilter : string) (buddy : Row)
    : option bool :=
  let nameMatch :=
    if String.eqb nameFilter "" then Some true
    else match prop buddy "WorkbuddyName" with
         | Js.Str s =>
             Some (negb (String.eqb s "")
                   && Js.includes (Js.toLowerCase s) nameFilter)
         | v => if Js.truthy v then None else Some false
         end in
  match nameMatch with
  | None => None
  | Some nm =>
      let stateMatch :=
        String.eqb stateFilter "all"
        || (Js.truthy (prop buddy "State")
            && Js.strict_eq (prop buddy "State") (Js.Str stateFilter)) in
      Some (nm && stateMatch)
  end.

(** [Array.prototype.filter] with a callback that may throw. *)
Fixpoint array_filter {A} (f : A -> option bool) (l : list A) : option (list A) :=
  match l with
  | [] => Some []
  | x :: l' =>
      match f x with
      | None => None
      | Some b =>
          match array_filter f l' with
          | None => None
          | Some r => Some (if b then x :: r else r)
          end
      end
  end.

(* ===================================================================== *)
(** * map.js *)
(* ===================================================================== *)

(** The global [isNaN], which converts its argument to a number first. *)
Definition isNaN (rt : Runtime) (v : Js.value) : bool :=
  match v with
  | Js.Undefined => true
  | Js.Str s => Js.num_isNaN (toNumber rt s)
  | Js.Num n => Js.num_isNaN n
  end.

(** The guard of [updateMap]'s loop: "Skip if latitude or longitude is
    missing or invalid". *)
Definition skip_marker (rt : Runtime) (buddy : Row) : bool :=
  negb (Js.truthy (prop buddy "latitude"))
  || negb (Js.truthy (prop buddy "longitude"))
  || isNaN rt (prop buddy "latitude")
  || isNaN rt (prop buddy "longitude")
  || (Js.strict_eq (prop buddy "latitude") (Js.Num Js.zero)
      && Js.strict_eq (prop buddy "longitude") (Js.Num Js.zero)).

(** The markers [updateMap] adds for [data], in order. Leaflet accepts every
    coordinate that passed the guard, so no marker is lost to the inner
    [catch]. *)
Definition plot_markers (rt : Runtime) (data : list Row) : list Marker :=
  flat_map (fun buddy =>
              if skip_marker rt buddy then []
              else [mkMarker (prop buddy "latitude") (prop buddy "longitude") buddy])
           data.

(** [mapViz.updateMap]. *)
Definition updateMap (rt : Runtime) : Eff unit :=
  let! w := get in
  match map (mapViz w) with
  | None => ret tt
  | Some view =>
      modify (with_mapViz (fun m => mkMap (map m) [] (no_data_message m))) ;;
      match filtered (data w) with
      | None => throw "TypeError: data is null"
      | Some [] =>
          modify (with_mapViz (fun m => mkMap (map m) (markers m) true))
      | Some rows =>
          let ms := plot_markers rt rows in
          modify (with_mapViz (fun m =>
            mkMap (if (0 <? length ms)%nat
                   then Some (FitBounds (List.map (fun mk => (marker_lat mk, marker_lng mk)) ms))
                   else map m)
                  ms false))
      end
  end.

(** [mapViz.zoomToSpuddy]. *)
Definition zoomToSpuddy (buddyName : Js.value) : Eff unit :=
  let! w := get in
  match filtered (data w) with
  | None => throw "TypeError: data is null"
  | Some rows =>
      match List.find (fun b => Js.strict_eq (prop b "WorkbuddyName") buddyName) rows with
      | Some buddy =>
          if Js.truthy (prop buddy "latitude") && Js.truthy (prop buddy "longitude")
          then match map (mapViz w) with
               | Some _ =>
                   modify (with_mapViz (fun m =>
                     mkMap (Some (FlyTo (prop buddy "latitude") (prop buddy "longitude") 12))
                           (markers m) (no_data_message m)))
               | None => throw "TypeError: map is null"
               end
          else ret tt
      | None => ret tt
      end
  end.

(** [mapViz.initMap]. Creating the map is the one use of [L] that no
    [try] guards and that does not come after a test of [this.map]: without
    Leaflet it throws a ReferenceError. *)
Definition initMap (rt : Runtime) : Eff unit :=
  let! w := get in
  (match map (mapViz w) with
   | None =>
       if leaflet rt
       then modify (with_mapViz (fun m =>
              mkMap (Some (SetView 20 0 2)) (markers m) (no_data_message m)))
       else throw "ReferenceError: L is not defined"
   | Some _ => ret tt
   end) ;;
  updateMap rt.

(* ===================================================================== *)
(** * stateViz.js *)
(* ===================================================================== *)

(** "Count buddies by state". The object [stateCounts] is kept as a finite
    map, which it is as long as no label is the name of a property every
    object inherits (see [label_is_own]). *)
Definition count_states (rt : Runtime) (rows : list Row) : gmap string nat :=
  fold_left (fun (stateCounts : gmap string nat) (buddy : Row) =>
               if Js.truthy (prop buddy "State")
               then let state := viz_sanitizeString rt (prop buddy "State") in
                    <[ state := default 0 (stateCounts !! state) + 1 ]> stateCounts
               else stateCounts)
            rows ∅.

(** The part of [updateStateViz] that runs once D3 and the svg element are
    there. *)
Definition drawStateViz (rt : Runtime) (w : World) : World :=
  match filtered (data w) with
  | None | Some [] => with_container (Svg SvgNoData) w
  | Some rows => with_container (Svg (SvgBars (count_states rt rows))) w
  end.

(** [initStateViz]; its call of [updateStateViz] finds the svg it has just
    created. *)
Definition initStateViz (rt : Runtime) (w : World) : World :=
  if negb (d3 rt) then with_container D3NotAvailableMessage w
  else drawStateViz rt (with_container (Svg SvgBlank) w).

(** [updateStateViz]. *)
Definition updateStateViz (rt : Runtime) (w : World) : World :=
  if negb (d3 rt) then with_container D3NotAvailableMessage w
  else match stateVizContainer w with
       | Svg _ => drawStateViz rt (with_container (Svg SvgBlank) w)
       | _ => initStateViz rt w
       end.

(* ===================================================================== *)
(** * utils.js: dispatch to the active view, tabs, the deferred filter *)
(* ===================================================================== *)

(** [updateActiveVisualization]. The page has no network container, so the
    placeholder view draws nothing. *)
Definition updateActiveVisualization (rt : Runtime) : Eff unit :=
  let! w := get in
  if String.eqb (activeTab (data w)) "map" then updateMap rt
  else if String.eqb (activeTab (data w)) "states" then modify (updateStateViz rt)
  else ret tt.

(** [switchTab]. *)
Definition switchTab (rt : Runtime) (tabId : string) : Eff unit :=
  modify (with_data (set_activeTab tabId)) ;;
  updateActiveVisualization rt.

(** The callback [filterData] hands to [setTimeout]. *)
Definition filterCallback (rt : Runtime) (task : FilterTask) : Eff unit :=
  finally
    (try_catch
       (let! w := get in
        if negb (currentFilterTime task =? lastFilterApplied (data w))%Z then ret tt
        else match raw (data w) with
             | None => ret tt
             | Some rows =>
                 match array_filter (filter_predicate (nameFilter task) (stateFilter task)) rows with
                 | None => throw "TypeError: toLowerCase is not a function"
                 | Some result =>
                     modify (with_data (set_filtered (Some result))) ;;
                     updateActiveVisualization rt ;;
                     modify (with_dom (set_total_count (Js.nat_to_string (length result))))
                 end
             end)
       (fun _ => ret tt))
    (showAppLoading false).

(** The timer queue: zero-delay timers fire in the order they were set. *)
Definition runTimer (rt : Runtime) : Eff unit :=
  let! w := get in
  match timers w with
  | [] => ret tt
  | task :: rest =>
      modify (with_timers (fun _ => rest)) ;;
      filterCallback rt task
  end.

(* ===================================================================== *)
(** * stateViz.js: a click on a bar *)
(* ===================================================================== *)

(** [bounds.extend([lat, lng])] over the buddies that have both
    coordinates; Leaflet throws on a coordinate that is not a number. *)
Fixpoint extend_bounds (rt : Runtime) (buddies : list Row)
    : option (list (Js.value * Js.value)) :=
  match buddies with
  | [] => Some []
  | buddy :: rest =>
      let lat := Js.or (prop buddy "latitude") (prop buddy "Latitude") in
      let lng := Js.or (prop buddy "longitude") (prop buddy "Longitude") in
      if Js.truthy lat && Js.truthy lng
      then if isNaN rt lat || isNaN rt lng then None
           else option_map (cons (lat, lng)) (extend_bounds rt rest)
      else extend_bounds rt rest
  end.

(** The [click] listener of a bar whose datum is [d_state]. *)
Definition barClick (rt : Runtime) (d_state : string) (now : Z) : Eff unit :=
  modify (with_dom (set_state_filter d_state)) ;;
  modify (filterData now) ;;
  switchTab rt "map" ;;
  let! w := get in
  match filtered (data w) with
  | None => throw "TypeError: data is null"
  | Some rows =>
      let stateBuddies :=
        List.filter (fun buddy => Js.strict_eq (prop buddy "State") (Js.Str d_state)) rows in
      if (0 <? length stateBuddies)%nat
      then match map (mapViz w) with
           | Some _ =>
               match extend_bounds rt stateBuddies with
               | None => throw "Invalid LatLng object"
               | Some [] => ret tt
               | Some points =>
                   modify (with_mapViz (fun m =>
                     mkMap (Some (FitBounds points)) (markers m) (no_data_message m)))
               end
           | None => ret tt
           end
      else ret tt
  end.

(* ===================================================================== *)
(** * dataLoader.js *)
(* ===================================================================== *)

(** [csvText.split(/\r?\n/)]: cut at every line feed and drop the carriage
    return that precedes it, if any. *)
Fixpoint drop_final_cr (s : string) : string :=
  match s with
  | EmptyString => EmptyString
  | String c EmptyString => if Ascii.eqb c "013" then EmptyString else s
  | String c s' => String c (drop_final_cr s')
  end.

Fixpoint map_but_last {A} (f : A -> A) (l : list A) : list A :=
  match l with
  | [] => []
  | [x] => [x]
  | x :: l' => f x :: map_but_last f l'
  end.

Definition split_lines (csvText : string) : list string :=
  map_but_last drop_final_cr (Js.split "010" csvText).

(** [parseCSVLine]: the character loop, with the fields finished so far,
    the field being read, the quote flag and the previous character. *)
Fixpoint parseCSVLine_loop (line : string) (result : list string)
    (current : string) (inQuotes : bool) (previous : option ascii) : list string :=
  match line with
  | EmptyString => result ++ [current]
  | String char rest =>
      if Ascii.eqb char "034"
         && match previous with
            | None => true
            | Some p => negb (Ascii.eqb p "\")
            end
      then parseCSVLine_loop rest result current (negb inQuotes) (Some char)
      else if Ascii.eqb char "," && negb inQuotes
      then parseCSVLine_loop rest (result ++ [current]) "" inQuotes (Some char)
      else parseCSVLine_loop rest result (current ++ String char EmptyString)
                             inQuotes (Some char)
  end.

Definition parseCSVLine (line : string) : list string :=
  parseCSVLine_loop line [] "" false None.

(** [!row.WorkbuddyName || row.WorkbuddyName.trim() === '']; [None] when
    [trim] is called on a number. *)
Definition name_is_blank (v : Js.value) : option bool :=
  if negb (Js.truthy v) then Some true
  else match v with
       | Js.Str s => Some (String.eqb (Js.trim s) "")
       | _ => None
       end.

(** "Handle empty WorkbuddyName" after Papa.parse: rows numbered from
    [index]. *)
Fixpoint fill_blank_names (index : nat) (rows : list Row) : option (list Row) :=
  match rows with
  | [] => Some []
  | row :: rest =>
      match name_is_blank (prop row "WorkbuddyName") with
      | None => None
      | Some blank =>
          option_map
            (cons (if blank
                   then <[ "WorkbuddyName" :=
                             Js.Str (mysterious_name index) ]> row
                   else row))
            (fill_blank_names (S index) rest)
      end
  end.

(** One row of the fallback parser of [parseCSV]; as in [loadData], a
    column named [__proto__] gets no property. *)
Definition loader_row (rt : Runtime) (headers values : list string) : Row :=
  fold_left (fun (row : Row) (hv : string * string) =>
               let header := fst hv in
               if String.eqb (Js.toLowerCase header) "latitude"
                  || String.eqb (Js.toLowerCase header) "longitude"
               then let num := parseFloat rt (snd hv) in
                    <[ header := Js.Num (if Js.num_isNaN num then Js.zero else num) ]> row
               else if String.eqb header "__proto__" then row
               else <[ header :=
                         Js.Str (sanitizeString rt
                                   (Js.Str (if String.eqb (snd hv) "" then ""
                                            else Js.trim (snd hv)))) ]> row)
            (combine headers values) ∅.

(** The fallback loop of [parseCSV] over [lines[i]], [i] counted from the
    top of the file. *)
Fixpoint loader_rows (rt : Runtime) (headers : list string) (i : nat)
    (lines : list string) : option (list Row) :=
  match lines with
  | [] => Some []
  | line :: rest =>
      if String.eqb (Js.trim line) "" then loader_rows rt headers (S i) rest
      else
        let values := parseCSVLine line in
        if negb (length values =? length headers)%nat
        then loader_rows rt headers (S i) rest
        else
          let row := loader_row rt headers values in
          match name_is_blank (prop row "WorkbuddyName") with
          | None => None
          | Some blank =>
              option_map
                (cons (if blank
                       then <[ "WorkbuddyName" :=
                                 Js.Str (mysterious_name i) ]> row
                       else row))
                (loader_rows rt headers (S i) rest)
          end
  end.

(** [dataLoader.parseCSV]; an exception inside is caught and gives the
    empty array. *)
Definition parseCSV (rt : Runtime) (csvText : string) : list Row :=
  default []
    match Papa rt with
    | Some tokenize =>
        fill_blank_names 0
          (papa_parse tokenize (transformHeader rt) (transform rt) csvText)
    | None =>
        match split_lines csvText with
        | [] => Some []
        | first :: rest =>
            let headers :=
              List.map (fun h => sanitizeString rt (Js.Str (Js.trim h)))
                       (Js.split "," first) in
            loader_rows rt headers 1 rest
        end
    end.

(** [dataLoader.updateGlobalData], with [updateUI]. *)
Definition updateGlobalData (rt : Runtime) (newData : list Row) : Eff unit :=
  modify (with_data (set_raw (Some newData))) ;;
  modify (with_data (set_filtered (Some newData))) ;;
  modify (with_data (set_states (Some (unique_states newData)))) ;;
  modify (with_dom (set_total_count (Js.nat_to_string (length newData)))) ;;
  modify (populateStateFilter rt) ;;
  updateActiveVisualization rt.

(** [dataLoader.loadCSVFile]. *)
Definition loadCSVFile (rt : Runtime) (filePath : string) : Eff (list Row) :=
  match fetch rt filePath with
  | Response true csvText =>
      let newData := parseCSV rt csvText in
      updateGlobalData rt newData ;;
      ret newData
  | Response false _ => throw "Failed to load CSV file"
  | NetworkError => throw "Failed to fetch"
  end.

(* ===================================================================== *)
(** * app.js *)
(* ===================================================================== *)

(** [handleError]: the environment is 'production', so the user sees the
    generic text whatever the message was. *)
Definition handleError (rt : Runtime) (message : string) (w : World) : World :=
  let userMessage := "An error occurred. Please try again later." in
  with_dom (add_error_message (sanitizeString rt (Js.Str userMessage))) w.

(** [initVisualizations]. *)
Definition initVisualizations (rt : Runtime) : Eff unit :=
  initMap rt ;;
  modify (initStateViz rt).

(** [setupEventListeners]: from now on the controls and tabs react. *)
Definition setupEventListeners (w : World) : World := with_listening true w.

(** [initializeApp]. *)
Definition initializeApp (rt : Runtime) : Eff unit :=
  try_catch
    (let! loaded := loadData rt in
     if (length loaded =? 0)%nat then throw "No data loaded"
     else
       initVisualizations rt ;;
       modify setupEventListeners ;;
       switchTab rt "map")
    (fun _ =>
       modify (handleError rt
                 "Failed to initialize the application. Please refresh the page and try again.")).

(* ===================================================================== *)
(** * The page as an event system *)
(* ===================================================================== *)

(** The store and page right after the scripts have run and [utils.init]
    has created the store at clock reading [t0]. *)
Definition initial_world (t0 : Z) : World :=
  mkWorld (mkData None None None "map" false t0)
          (mkDom "" "all" ["all"] "0" [])
          (mkMap None [] false)
          ContainerEmpty [] false.

(** What can happen to the page. Every event that issues a filter carries
    the reading [Date.now()] gives at that moment. *)
Inductive Event :=
| AppStart
| LoadCSVFile (filePath : string)
| InputName (text : string) (now : Z)
| ChangeState (choice : string) (now : Z)
| ClearName (now : Z)
| ClickTab (tabId : string)
| ClickBar (d_state : string) (now : Z)
| ClickZoomTo (buddyName : Js.value)
| ResetFilters (now : Z)
| ClearAllFilters (now : Z)
| TimerFires.

(** The listener behind each event. *)
Definition handler (rt : Runtime) (ev : Event) : Eff unit :=
  match ev with
  | AppStart => initializeApp rt
  | LoadCSVFile filePath => loadCSVFile rt filePath ;; ret tt
  | InputName text now =>
      modify (with_dom (set_name_filter text)) ;; modify (filterData now)
  | ChangeState choice now =>
      modify (with_dom (set_state_filter choice)) ;; modify (filterData now)
  | ClearName now =>
      modify (with_dom (set_name_filter "")) ;; modify (filterData now)
  | ClickTab tabId => switchTab rt tabId
  | ClickBar d_state now => barClick rt d_state now
  | ClickZoomTo buddyName => zoomToSpuddy buddyName
  | ResetFilters now =>
      modify (with_dom (set_name_filter "")) ;;
      modify (with_dom (set_state_filter "all")) ;;
      modify (filterData now)
  | ClearAllFilters now =>
      modify (with_dom (set_name_filter "")) ;;
      modify (with_dom (set_state_filter "")) ;;
      modify (filterData now)
  | TimerFires => runTimer rt
  end.

(** Whether the page can receive the event: listeners exist only once they
    were attached; bars, popups and the reset button can be clicked only
    while their tab is shown and they are drawn. *)
Definition enabled (rt : Runtime) (ev : Event) (w : World) : bool :=
  match ev with
  | AppStart | LoadCSVFile _ | ClearAllFilters _ | TimerFires => true
  | InputName _ _ | ClearName _ | ClickTab _ => listening w
  | ChangeState choice _ => listening w && bool_decide (choice ∈ state_options (dom w))
  | ClickBar d_state _ =>
      String.eqb (activeTab (data w)) "states"
      && match stateVizContainer w with
         | Svg (SvgBars stateCounts) =>
             bool_decide (d_state ∈
               List.map (fun kv : string * nat => viz_sanitizeString rt (Js.Str (fst kv)))
                        (map_to_list stateCounts))
         | _ => false
         end
  | ClickZoomTo buddyName =>
      String.eqb (activeTab (data w)) "map"
      && bool_decide (buddyName ∈
           List.map (fun mk => prop (marker_row mk) "WorkbuddyName") (markers (mapViz w)))
  | ResetFilters _ =>
      String.eqb (activeTab (data w)) "map" && no_data_message (mapViz w)
  end.

Definition step (rt : Runtime) (w : World) (ev : Event) : World :=
  if enabled rt ev w then exec (handler rt ev) w else w.

(** The world after a sequence of events, oldest first. *)
Definition run (rt : Runtime) (evs : list Event) (w : World) : World :=
  fold_left (step rt) evs w.

(* ===================================================================== *)
(** * A concrete page to run the model on *)
(* ===================================================================== *)

Module Sample.

(** Stand-ins for [parseFloat] and for the string-to-number conversion:
    exact on optionally signed decimal integers, which is all the sample
    files contain. *)
Fixpoint digits (s : string) (acc : option Z) : option Z * string :=
  match s with
  | EmptyString => (acc, EmptyString)
  | String c s' =>
      let n := N_of_ascii c in
      if ((48 <=? n) && (n <=? 57))%N
      then digits s' (Some (10 * default 0%Z acc + Z.of_N (n - 48))%Z)
      else (acc, s)
  end.

Definition signed_digits (s : string) : option Z * string :=
  match s with
  | String "-" s' =>
      let '(v, rest) := digits s' None in (option_map Z.opp v, rest)
  | _ => digits s None
  end.

Definition parseFloat (s : string) : Js.number :=
  match fst (signed_digits (Js.trimStart s)) with
  | Some z => Js.of_Z z
  | None => S754_nan
  end.

Definition toNumber (s : string) : Js.number :=
  if String.eqb (Js.trim s) "" then Js.zero
  else match signed_digits (Js.trim s) with
       | (Some z, EmptyString) => Js.of_Z z
       | _ => S754_nan
       end.

(** A stand-in for Papa's tokenizer: lines cut at line feeds, fields at
    commas, empty lines skipped. *)
Definition tokenize (csvText : string) : list (list string) :=
  List.map (Js.split ",")
    (List.filter (fun line => negb (String.eqb line "")) (Js.split "010" csvText)).

Definition newline : string := String "010" EmptyString.

Definition csv : string :=
  "WorkbuddyName,State,latitude,longitude" ++ newline ++
  "Alice,CA,34,-118" ++ newline ++
  "Bob,CA,37,-122" ++ newline ++
  "Cara,NY,40,-74".

(** The server answers the first location with [body]. *)
Definition serve (body : string) (path : string) : FetchResult :=
  if String.eqb path "data/data.csv" then Response true body
  else Response false "".

(** A page on which every library loaded. *)
Definition runtime (body : string) : Runtime :=
  mkRuntime (serve body) parseFloat toNumber (Some (fun s => s)) (Some tokenize) true true.

(** A page on which Leaflet loaded and none of DOMPurify, Papa and D3. *)
Definition bare_runtime (body : string) : Runtime :=
  mkRuntime (serve body) parseFloat toNumber None None false true.

(** A server that cannot be reached. *)
Definition offline : Runtime :=
  mkRuntime (fun _ => NetworkError) parseFloat toNumber None None true true.

Definition buddy (name state : string) (lat lng : Z) : Row :=
  <[ "longitude" := Js.Num (Js.of_Z lng) ]>
    (<[ "latitude" := Js.Num (Js.of_Z lat) ]>
       (<[ "State" := Js.Str state ]>
          (<[ "WorkbuddyName" := Js.Str name ]> ∅))).

Definition alice : Row := buddy "Alice" "CA" 34 (-118).
Definition bob : Row := buddy "Bob" "CA" 37 (-122).
Definition cara : Row := buddy "Cara" "NY" 40 (-74).

Definition position (r : Row) : Js.value * Js.value :=
  (prop r "latitude", prop r "longitude").

(** The view that frames all three. *)
Definition overview : Viewport :=
  FitBounds [position alice; position bob; position cara].

(** A file with a record on the equator and a record without a region. *)
Definition equator_csv : string :=
  "WorkbuddyName,State,latitude,longitude" ++ newline ++
  "Eve,CA,0,5" ++ newline ++
  "Zed,,0,0".

(** A file with a header and no record. *)
Definition header_only_csv : string := "WorkbuddyName,State,latitude,longitude".

Definition eve : Row := buddy "Eve" "CA" 0 5.
Definition zed : Row := buddy "Zed" "" 0 0.

(** The page once the sample file is loaded and drawn. *)
Definition loaded : World := run (runtime csv) [AppStart] (initial_world 0).

(** The user has typed into the name box; the listener has not run yet. *)
Definition typed (text : string) : World := with_dom (set_name_filter text) loaded.

End Sample.

(* ===================================================================== *)
(** * The vocabulary of the design document *)
(* ===================================================================== *)

(** The display name of a record: its name when that is text. *)
Definition display_name (r : Row) : string :=
  match prop r "WorkbuddyName" with
  | Js.Str s => s
  | _ => ""
  end.

(** A case-insensitive substring test on the display name; the empty text
    matches every record. *)
Definition name_matches (text : string) (r : Row) : Prop :=
  text = ""
  \/ exists pre post,
       Js.toLowerCase (display_name r) = pre +:+ Js.toLowerCase text +:+ post.

(** An exact match on the region; the sentinel matches every record. *)
Definition region_matches (region : string) (r : Row) : Prop :=
  region = "all" \/ prop r "State" = Js.Str region.

(** The filter criteria: both tests at once. *)
Definition satisfies (text region : string) (r : Row) : Prop :=
  name_matches text r /\ region_matches region r.

(** The region a request reads off the select: its value, or the sentinel
    when nothing is selected. *)
Definition criteria_region (d : Dom) : string :=
  if String.eqb (state_filter d) "" then "all" else state_filter d.

(** The name of a record is text or missing, as both parsers leave it. *)
Definition text_name (r : Row) : Prop :=
  match prop r "WorkbuddyName" with
  | Js.Num _ => False
  | _ => True
  end.

(** A coordinate that cannot place a marker: it is missing (no property, or
    an empty cell), it is not a number, or it is zero. *)
Definition coordinate_missing (v : Js.value) : Prop :=
  v = Js.Undefined \/ v = Js.Str "".

Definition coordinate_zero (v : Js.value) : Prop :=
  exists n, v = Js.Num n /\ Js.num_eq n Js.zero = true.

Definition unusable (rt : Runtime) (v : Js.value) : Prop :=
  coordinate_missing v \/ isNaN rt v = true \/ coordinate_zero v.

(** Mappable, in the words of the document: the coordinate is neither
    missing, nor non-numeric, nor exactly (0,0). *)
Definition mappable (rt : Runtime) (r : Row) : Prop :=
  ~ (coordinate_missing (prop r "latitude") \/ coordinate_missing (prop r "longitude"))
  /\ ~ (isNaN rt (prop r "latitude") = true \/ isNaN rt (prop r "longitude") = true)
  /\ ~ (coordinate_zero (prop r "latitude") /\ coordinate_zero (prop r "longitude")).

(** The rows the map shows a marker for. *)
Definition plotted (w : World) : list Row :=
  List.map marker_row (markers (mapViz w)).

(** How many of [rows] the chart counts under the label [state]. *)
Definition occurrences (rt : Runtime) (state : string) (rows : list Row) : nat :=
  length (List.filter
            (fun r => Js.truthy (prop r "State")
                      && String.eqb (viz_sanitizeString rt (prop r "State")) state)
            rows).

(** [cats] is the sorted set of the distinct, non-empty regions of [rows]. *)
Definition sorted_set_of_regions (cats : list string) (rows : list Row) : Prop :=
  Sorted String.le cats
  /\ NoDup cats
  /\ forall s, s ∈ cats <-> s <> "" /\ exists r, r ∈ rows /\ prop r "State" = Js.Str s.

(** The store's categories agree with its records; before any load both
    are unset. *)
Definition categories_match (d : DataStore) : Prop :=
  match raw d with
  | Some rows => exists cats, states d = Some cats /\ sorted_set_of_regions cats rows
  | None => states d = None
  end.

(** A handler keeps a property of the world, whether it returns or throws. *)
Definition preserves {A} (P : World -> Prop) (m : Eff A) : Prop :=
  forall w, P w -> P (exec m w).

(** The records and categories of the store are [R] and [S]. *)
Definition store_is (R : option (list Row)) (S : option (list string))
    (w : World) : Prop :=
  raw (data w) = R /\ states (data w) = S.

(** The categories are the ones [loadData] computes from the records. *)
Definition categories_current (w : World) : Prop :=
  match raw (data w) with
  | Some rows => states (data w) = Some (unique_states rows)
  | None => states (data w) = None
  end.

(** A value that, if stored under the name key, is text. *)
Definition text_if_name (key : string) (v : Js.value) : Prop :=
  key = "WorkbuddyName" -> exists s, v = Js.Str s.

(** The records of the store, once loaded, have text names. *)
Definition names_are_text (w : World) : Prop :=
  match raw (data w) with
  | Some rows => Forall text_name rows
  | None => True
  end.

(** A value that, if stored under a coordinate key, is a number other than
    NaN. *)
Definition number_if_coordinate (key : string) (v : Js.value) : Prop :=
  key = "latitude" \/ key = "longitude" ->
  exists n, v = Js.Num n /\ Js.num_isNaN n = false.

(** Every coordinate a row holds is a number other than NaN. *)
Definition coordinates_are_numbers (r : Row) : Prop :=
  forall key v, key = "latitude" \/ key = "longitude" ->
    r !! key = Some v -> exists n, v = Js.Num n /\ Js.num_isNaN n = false.

#[global] Instance text_name_dec r : Decision (text_name r).
Proof. unfold text_name. destruct (prop r "WorkbuddyName"); apply _. Defined.

(** The rows [raw.filter] keeps when its callback does not throw. *)
Definition keeps (nameFilter stateFilter : string) (r : Row) : bool :=
  default false (filter_predicate nameFilter stateFilter r).

(* ===================================================================== *)
(** * utils.js: the colour of a name *)
(* ===================================================================== *)

(** ToInt32: an integer read as a signed 32-bit integer. *)
Definition ToInt32 (z : Z) : Z := ((z + 2 ^ 31) mod 2 ^ 32 - 2 ^ 31)%Z.

(** [a << n] for a shift count below 32. *)
Definition shift_left (a n : Z) : Z := ToInt32 (Z.shiftl (ToInt32 a) n).

(** The loop of [stringToColor] from some position on, on ASCII text.
    Only the shift works on 32 bits; the subtraction and the sum are those
    of numbers, and stay exact integers on every text shorter than 2^21
    characters. *)
Fixpoint stringToColor_hash (str : string) (hash : Z) : Z :=
  match str with
  | EmptyString => hash
  | String c rest =>
      stringToColor_hash rest
        (Z.of_N (N_of_ascii c) + (shift_left hash 5 - hash))%Z
  end.

(** [utils.stringToColor]. The remainder [%] takes the sign of its left
    operand. An argument that is a number other than 0 and NaN has no
    [length], so the loop does not run on it. *)
Definition stringToColor (str : Js.value) : string :=
  if negb (Js.truthy str) then "hsl(210, 70%, 60%)"
  else
    let hash :=
      match str with
      | Js.Str s => stringToColor_hash s 0
      | _ => 0%Z
      end in
    let hue := Z.rem (Z.rem hash 60 + 210) 360 in
    "hsl(" +:+ pretty hue +:+ ", 70%, 60%)".

(* ===================================================================== *)
(** * map.js: the popup of a marker *)
(* ===================================================================== *)

(** The popup [createPopupContent] builds: the text of its name line, the
    three parts of its location line (which the page joins with commas)
    and the argument its button passes to [zoomToSpuddy]. *)
Record Popup := mkPopup {
  popup_name : string;
  popup_city : string;
  popup_state : string;
  popup_country : string;
  popup_zoom_to : Js.value
}.

(** [a || b] on strings. *)
Definition or_text (a b : string) : string :=
  if Js.truthy (Js.Str a) then a else b.

(** [mapViz.createPopupContent]. *)
Definition createPopupContent (rt : Runtime) (buddy : Row) : Popup :=
  mkPopup (viz_sanitizeString rt (prop buddy "WorkbuddyName"))
          (or_text (viz_sanitizeString rt (prop buddy "City")) "Unknown City")
          (or_text (viz_sanitizeString rt (prop buddy "State")) "Unknown State")
          (or_text (viz_sanitizeString rt (prop buddy "Country")) "Unknown Country")
          (prop buddy "WorkbuddyName").

(* ===================================================================== *)
(** * darkMode.js *)
(* ===================================================================== *)

(** The state of the [darkMode] object together with the one item it keeps
    in [localStorage], under the key 'workbuddies-dark-mode'; the item
    outlives the page. *)
Record Theme := mkTheme {
  isDarkMode : bool;
  stored : option string
}.

(** What the browser answers: whether an access to [localStorage] throws,
    and whether [matchMedia] exists and what its query for a dark colour
    scheme matches. *)
Record Browser := mkBrowser {
  storage_throws : bool;
  prefers_dark : option bool
}.

(** [safeGetStorageItem(STORAGE_KEY)]. *)
Definition safeGetStorageItem (b : Browser) (th : Theme) : option string :=
  if storage_throws b then None
  else match stored th with
       | Some value =>
           if String.eqb value "true" || String.eqb value "false"
           then Some value else None
       | None => None
       end.

(** [safeSetStorageItem(STORAGE_KEY, value)]: whether the value was stored,
    and the state left behind. *)
Definition safeSetStorageItem (b : Browser) (value : string) (th : Theme)
    : bool * Theme :=
  if String.eqb value "true" || String.eqb value "false"
  then if storage_throws b then (false, th)
       else (true, mkTheme (isDarkMode th) (Some value))
  else (false, th).

(** [updateMapTheme]: once the map exists its tile layer is replaced (the
    tiles are not modelled) and the markers are redrawn by
    [refreshMarkers], which is [updateMap]. *)
Definition updateMapTheme (rt : Runtime) : Eff unit :=
  let! w := get in
  match map (mapViz w) with
  | Some _ => updateMap rt
  | None => ret tt
  end.

(** [refreshVisualizations]. *)
Definition refreshVisualizations (rt : Runtime) : Eff unit :=
  updateActiveVisualization rt.

(** What a change of theme does to the page: the part shared by
    [enableDarkMode] and [disableDarkMode]. *)
Definition applyTheme (rt : Runtime) : Eff unit :=
  updateMapTheme rt ;; refreshVisualizations rt.

(** [enableDarkMode(savePreference)]: the state of [darkMode] it leaves,
    which is settled before the views are touched, and what it then does to
    the page. *)
Definition enableDarkMode (b : Browser) (rt : Runtime) (savePreference : bool)
    (th : Theme) : Theme * Eff unit :=
  let th1 := mkTheme true (stored th) in
  (if savePreference then snd (safeSetStorageItem b "true" th1) else th1,
   applyTheme rt).

(** [disableDarkMode(savePreference)]. *)
Definition disableDarkMode (b : Browser) (rt : Runtime) (savePreference : bool)
    (th : Theme) : Theme * Eff unit :=
  let th1 := mkTheme false (stored th) in
  (if savePreference then snd (safeSetStorageItem b "false" th1) else th1,
   applyTheme rt).

(** [toggleDarkMode]. *)
Definition toggleDarkMode (b : Browser) (rt : Runtime) (th : Theme)
    : Theme * Eff unit :=
  if isDarkMode th then disableDarkMode b rt true th
  else enableDarkMode b rt true th.

(** [initDarkMode], up to the controls it creates. *)
Definition initDarkMode (b : Browser) (rt : Runtime) (th : Theme)
    : Theme * Eff unit :=
  let storedPreference := safeGetStorageItem b th in
  if bool_decide (storedPreference = Some "true") then enableDarkMode b rt false th
  else if bool_decide (storedPreference = Some "false") then disableDarkMode b rt false th
  else match prefers_dark b with
       | Some true => enableDarkMode b rt false th
       | _ => (th, ret tt)
       end.

(** The listener [initDarkMode] attaches to the colour-scheme query when
    [matchMedia] exists, run when the system setting changes to [matches]. *)
Definition systemSchemeChanged (b : Browser) (rt : Runtime) (matches : bool)
    (th : Theme) : Theme * Eff unit :=
  if match safeGetStorageItem b th with
     | Some value => Js.truthy (Js.Str value)
     | None => false
     end
  then (th, ret tt)
  else if matches then enableDarkMode b rt false th
       else disableDarkMode b rt false th.

(** The [darkMode] object of a page that has just been opened, with the
    item a former visit left in [localStorage]. *)
Definition fresh_theme (item : option string) : Theme := mkTheme false item.

(* ===================================================================== *)
(** * What the page keeps true from one event to the next *)
(* ===================================================================== *)

(** The rows a map drawn from [rows] has a marker for. *)
Definition plottable (rt : Runtime) (rows : list Row) : list Row :=
  List.filter (fun r => negb (skip_marker rt r)) rows.

(** The chart container drawn from the rows in [filtered]. *)
Definition chart_of (rt : Runtime) (rows : option (list Row)) : StateVizContainer :=
  if d3 rt
  then match rows with
       | None | Some [] => Svg SvgNoData
       | Some rows => Svg (SvgBars (count_states rt rows))
       end
  else D3NotAvailableMessage.

(** [filtered] is a selection of the rows of [raw], in their order; both
    are unset before a load. *)
Definition filtered_within_raw (w : World) : Prop :=
  match raw (data w), filtered (data w) with
  | Some rows, Some result => sublist result rows
  | None, None => True
  | _, _ => False
  end.

(** The counter shows how many rows [filtered] holds. *)
Definition counter_current (w : World) : Prop :=
  total_count (dom w)
  = Js.nat_to_string (length (default [] (filtered (data w)))).

(** The loading flag is up only while a filter request is pending. *)
Definition loading_is_pending (w : World) : Prop :=
  isLoading (data w) = true -> timers w <> [].

(** The view of the active tab shows the rows of [filtered]: the map, once
    it exists, has the markers and the no-data notice of those rows, and
    the chart is the one drawn from them. *)
Definition views_current (rt : Runtime) (w : World) : Prop :=
  (is_Some (map (mapViz w)) ->
   exists rows,
     filtered (data w) = Some rows
     /\ (activeTab (data w) = "map" ->
         plotted w = plottable rt rows
         /\ no_data_message (mapViz w) = bool_decide (rows = [])))
  /\ (activeTab (data w) = "states" ->
      stateVizContainer w = chart_of rt (filtered (data w))).

(** The sum of the heights of the bars. *)
Definition total_of_bars (stateCounts : gmap string nat) : nat :=
  map_fold (fun _ count total => count + total) 0 stateCounts.

(** The characters of a text. *)
Definition chars (s : string) : list ascii := list_ascii_of_string s.

(** The four characters that open or close markup or an attribute value. *)
Definition markup_char (c : ascii) : bool :=
  Ascii.eqb c "<" || Ascii.eqb c ">" || Ascii.eqb c "034" || Ascii.eqb c "'".

(** The five characters the fallback of [sanitizeString] replaces. *)
Definition escaped_char (c : ascii) : bool :=
  Ascii.eqb c "&" || markup_char c.

(** The last character of a text, or [previous] when the text is empty. *)
Fixpoint last_char (s : string) (previous : option ascii) : option ascii :=
  match s with
  | EmptyString => previous
  | String c s' => last_char s' (Some c)
  end.

(** A text without a double quote. *)
Definition unquoted (s : string) : Prop :=
  forall c, c ∈ chars s -> c <> "034"%char.

(** What a redraw leaves alone: the rows, the loading flag, the counter
    and the pending requests are those of [w0]. *)
Definition store_frame (w0 w : World) : Prop :=
  raw (data w) = raw (data w0)
  /\ filtered (data w) = filtered (data w0)
  /\ isLoading (data w) = isLoading (data w0)
  /\ total_count (dom w) = total_count (dom w0)
  /\ timers w = timers w0.

Definition store_invariant (w : World) : Prop :=
  filtered_within_raw w /\ counter_current w /\ loading_is_pending w.

(** Once the map exists, rows are loaded. *)
Definition map_has_rows (w : World) : Prop :=
  is_Some (map (mapViz w)) -> is_Some (filtered (data w)).

(** What a handler that does not draw leaves alone: the rows in
    [filtered], the active tab, the markers and the no-data notice, whether
    the map exists, and the chart. *)
Definition views_frame (w0 w : World) : Prop :=
  filtered (data w) = filtered (data w0)
  /\ activeTab (data w) = activeTab (data w0)
  /\ markers (mapViz w) = markers (mapViz w0)
  /\ no_data_message (mapViz w) = no_data_message (mapViz w0)
  /\ (is_Some (map (mapViz w)) <-> is_Some (map (mapViz w0)))
  /\ stateVizContainer w = stateVizContainer w0.

(** The event that starts the application; the page raises it once, when
    the document is loaded. *)
Definition starts (ev : Event) : bool :=
  match ev with
  | AppStart => true
  | _ => false
  end.

(** What a redraw leaves alone altogether: the store, the controls, the
    pending requests and the listeners are those of [w0]. *)
Definition page_frame (w0 w : World) : Prop :=
  data w = data w0 /\ dom w = dom w0 /\ timers w = timers w0
  /\ listening w = listening w0.

(* ===================================================================== *)
(** * The domain on which the embedding is exact *)
(* ===================================================================== *)

(** A text of ASCII characters. On such a text [Js.toLowerCase] and
    [Js.trim] are [String.prototype.toLowerCase] and
    [String.prototype.trim]; outside ASCII the methods of the language also
    fold and strip characters these definitions leave alone. *)
Definition ascii_text (s : string) : Prop :=
  Forall (fun c => (N_of_ascii c < 128)%N) (chars s).

#[global] Instance ascii_text_dec s : Decision (ascii_text s).
Proof. unfold ascii_text. apply _. Defined.

(** The property names every object inherits from [Object.prototype]. The
    chart keeps its counts in an object literal: under one of these names
    [stateCounts[state] || 0] reads the inherited value, not a count, so
    [count_states] is the content of that object only for labels that are
    none of these names. *)
Definition object_prototype_keys : list string :=
  [ "constructor"; "__defineGetter__"; "__defineSetter__"; "hasOwnProperty";
    "__lookupGetter__"; "__lookupSetter__"; "isPrototypeOf";
    "propertyIsEnumerable"; "toString"; "valueOf"; "__proto__";
    "toLocaleString" ].

Definition inherited_key (key : string) : bool :=
  bool_decide (key ∈ object_prototype_keys).

(** The label under which the chart counts the row, if it counts it, is
    not a name every object inherits. *)
Definition label_is_own (rt : Runtime) (r : Row) : bool :=
  negb (Js.truthy (prop r "State"))
  || negb (inherited_key (viz_sanitizeString rt (prop r "State"))).

(** The elements of a list with their positions, counted from [i]. *)
Fixpoint numbered {A} (i : nat) (l : list A) : list (nat * A) :=
  match l with
  | [] => []
  | x :: l' => (i, x) :: numbered (S i) l'
  end.

(** A record without a name of its own, as [parseCSV] tests it: the name is
    missing, empty or blank. *)
Definition nameless (r : Row) : bool :=
  String.eqb (Js.trim (display_name r)) "".

(** The record with the placeholder name of position [index] if it has no
    name of its own. *)
Definition with_placeholder (index : nat) (r : Row) : Row :=
  if nameless r
  then <[ "WorkbuddyName" := Js.Str (mysterious_name index) ]> r
  else r.

(** A line of the file that the fallback loop of [parseCSV] turns into a
    record: it is not blank and has as many fields as there are columns. *)
Definition line_is_record (headers : list string) (line : string) : bool :=
  negb (String.eqb (Js.trim line) "")
  && (length (parseCSVLine line) =? length headers)%nat.

(** The cells of a line as the manual parser of [loadData] reads them. *)
Definition manual_cells (rt : Runtime) (line : string) : list string :=
  List.map (fun cell => sanitizeString rt (Js.Str (Js.trim cell)))
           (Js.split "," line).

(** The number stored for a coordinate cell that parsed to [num]. *)
Definition number_or_zero (num : Js.number) : Js.number :=
  if Js.num_isNaN num then Js.zero else num.

(** A column that holds a coordinate, for the parsers that compare the
    header in lower case. *)
Definition coordinate_column (header : string) : Prop :=
  Js.toLowerCase header = "latitude" \/ Js.toLowerCase header = "longitude".

(* ===================================================================== *)
(** * Facts about the JavaScript fragment *)
(* ===================================================================== *)

Lemma toLowerCase_empty s : Js.toLowerCase s = "" <-> s = "".
Proof. destruct s; simpl; split; congruence. Qed.

Lemma append_cons c s t : String c s +:+ t = String c (s +:+ t).
Proof. reflexivity. Qed.

Lemma prefix_spec p s : String.prefix p s = true <-> exists post, s = p +:+ post.
Proof.
  revert s. induction p as [|c p IH]; intros s; simpl.
  - destruct s; split; eauto.
  - destruct s as [|d s]; simpl.
    + split; [done|]. intros [post H]. rewrite append_cons in H. discriminate.
    + destruct (ascii_dec c d) as [->|Hne].
      * rewrite IH. split; intros [post H]; exists post;
          rewrite append_cons in *; congruence.
      * split; [done|]. intros [post H]. rewrite append_cons in H. congruence.
Qed.

Lemma includes_spec s sub :
  Js.includes s sub = true <-> exists pre post, s = pre +:+ sub +:+ post.
Proof.
  induction s as [|c s IH].
  - change (Js.includes "" sub) with (String.prefix sub "" || false).
    rewrite orb_false_r, prefix_spec. split.
    + intros [post H]. by exists "", post.
    + intros [pre [post H]]. destruct pre; [by exists post|discriminate].
  - change (Js.includes (String c s) sub)
      with (String.prefix sub (String c s) || Js.includes s sub).
    rewrite orb_true_iff, prefix_spec, IH. split.
    + intros [[post H]|[pre [post H]]].
      * by exists "", post.
      * exists (String c pre), post. by rewrite append_cons, H.
    + intros [pre [post H]]. destruct pre as [|d pre]; [|rewrite append_cons in H].
      * left. by exists post.
      * right. exists pre, post. congruence.
Qed.

(* ===================================================================== *)
(** * What a handler leaves untouched *)
(* ===================================================================== *)

Ltac run_eff :=
  unfold exec, bind, get, modify, ret, throw, try_catch, finally in *; simpl in *.

Lemma updateMap_frame rt w :
  let w' := exec (updateMap rt) w in
  data w' = data w /\ dom w' = dom w /\ timers w' = timers w
  /\ stateVizContainer w' = stateVizContainer w /\ listening w' = listening w.
Proof.
  unfold updateMap. run_eff.
  destruct (map (mapViz w)); simpl; [|done].
  by destruct (filtered (data w)) as [[|r rows]|].
Qed.

Lemma updateStateViz_frame rt w :
  let w' := updateStateViz rt w in
  data w' = data w /\ dom w' = dom w /\ timers w' = timers w
  /\ mapViz w' = mapViz w /\ listening w' = listening w.
Proof.
  unfold updateStateViz, initStateViz, drawStateViz. simpl.
  destruct (d3 rt); simpl; [|done].
  destruct (stateVizContainer w); simpl;
    by destruct (filtered (data w)) as [[|r rows]|].
Qed.

Lemma updateActiveVisualization_frame rt w :
  let w' := exec (updateActiveVisualization rt) w in
  data w' = data w /\ dom w' = dom w /\ timers w' = timers w
  /\ listening w' = listening w.
Proof.
  unfold updateActiveVisualization. simpl.
  unfold exec, bind, get. simpl.
  destruct (String.eqb (activeTab (data w)) "map").
  - pose proof (updateMap_frame rt w) as H. simpl in H. unfold exec in H. tauto.
  - destruct (String.eqb (activeTab (data w)) "states"); [|done].
    pose proof (updateStateViz_frame rt w) as H. simpl in H.
    unfold modify. simpl. tauto.
Qed.

Lemma updateActiveVisualization_data rt w :
  data (exec (updateActiveVisualization rt) w) = data w.
Proof. apply (updateActiveVisualization_frame rt w). Qed.

Lemma filterData_timers now w :
  timers (filterData now w)
  = timers w ++ [mkTask now (Js.toLowerCase (name_filter (dom w)))
                        (criteria_region (dom w))].
Proof.
  unfold filterData, criteria_region. simpl.
  destruct (filtered (data w)) as [l|] eqn:E; [destruct (100 <? length l)%nat|];
    repeat split; cbn; rewrite ?E; reflexivity.
Qed.

Lemma filterData_data now w :
  raw (data (filterData now w)) = raw (data w)
  /\ filtered (data (filterData now w)) = filtered (data w)
  /\ states (data (filterData now w)) = states (data w)
  /\ activeTab (data (filterData now w)) = activeTab (data w)
  /\ lastFilterApplied (data (filterData now w)) = now.
Proof.
  unfold filterData. simpl.
  destruct (filtered (data w)) as [l|] eqn:E; [destruct (100 <? length l)%nat|];
    repeat split; cbn; rewrite ?E; reflexivity.
Qed.

Lemma filterData_frame now w :
  dom (filterData now w) = dom w /\ mapViz (filterData now w) = mapViz w
  /\ stateVizContainer (filterData now w) = stateVizContainer w
  /\ listening (filterData now w) = listening w.
Proof.
  unfold filterData. simpl.
  destruct (filtered (data w)) as [l|] eqn:E; [destruct (100 <? length l)%nat|];
    repeat split; cbn; rewrite ?E; reflexivity.
Qed.

(* ===================================================================== *)
(** * The deferred evaluation *)
(* ===================================================================== *)

(** A request whose stamp is no longer the store's does nothing but clear
    the loading flag. *)
Lemma filterCallback_stale rt task w :
  currentFilterTime task <> lastFilterApplied (data w) ->
  exec (filterCallback rt task) w = showAppLoading false w.
Proof.
  intros Hne. unfold filterCallback. run_eff.
  destruct (Z.eqb_spec (currentFilterTime task) (lastFilterApplied (data w))); done.
Qed.

(** A request whose stamp is the store's writes the rows it keeps. *)
Lemma filterCallback_current rt task w rows result :
  currentFilterTime task = lastFilterApplied (data w) ->
  raw (data w) = Some rows ->
  array_filter (filter_predicate (nameFilter task) (stateFilter task)) rows = Some result ->
  filtered (data (exec (filterCallback rt task) w)) = Some result
  /\ raw (data (exec (filterCallback rt task) w)) = Some rows
  /\ states (data (exec (filterCallback rt task) w)) = states (data w).
Proof.
  intros Htime Hraw Hres. unfold filterCallback. run_eff.
  rewrite Htime, Z.eqb_refl, Hraw, Hres. simpl.
  set (w1 := with_data (set_filtered (Some result)) w).
  pose proof (updateActiveVisualization_data rt w1) as Hd. unfold exec in Hd.
  destruct (updateActiveVisualization rt w1) as [[[]|e] w2]; simpl in *;
    rewrite Hd; subst w1; simpl; by rewrite ?Hraw.
Qed.

(** With one timer pending, the next timer to fire is that one. *)
Lemma runTimer_single rt w task :
  timers w = [task] ->
  exec (runTimer rt) w
  = exec (filterCallback rt task) (with_timers (fun _ => []) w).
Proof.
  intros H. unfold runTimer. unfold exec at 1, bind, get, modify.
  simpl. by rewrite H.
Qed.

(** The request [filterData] queues on a page with no timer pending. *)
Lemma filterData_single now w :
  timers w = [] ->
  timers (filterData now w)
  = [mkTask now (Js.toLowerCase (name_filter (dom w))) (criteria_region (dom w))].
Proof. intros H. by rewrite filterData_timers, H. Qed.

(** The rows [raw.filter] keeps, when every name is text. *)

Lemma filter_predicate_total nameFilter stateFilter r :
  text_name r -> is_Some (filter_predicate nameFilter stateFilter r).
Proof.
  unfold text_name, filter_predicate. intros H.
  destruct (String.eqb nameFilter ""); [eexists; reflexivity|].
  destruct (prop r "WorkbuddyName") as [|s|n]; simpl in *;
    [eexists; reflexivity | eexists; reflexivity | done].
Qed.

Lemma array_filter_total nameFilter stateFilter rows :
  Forall text_name rows ->
  array_filter (filter_predicate nameFilter stateFilter) rows
  = Some (List.filter (keeps nameFilter stateFilter) rows).
Proof.
  induction 1 as [|r rows Hr _ IH]; simpl; [done|].
  unfold keeps at 1.
  destruct (filter_predicate_total nameFilter stateFilter r Hr) as [b ->].
  rewrite IH. simpl. by destruct b.
Qed.

Lemma filter_sublist {A} (f : A -> bool) l : sublist (List.filter f l) l.
Proof.
  induction l as [|x l IH]; simpl; [constructor|].
  destruct (f x); by constructor.
Qed.

Lemma elem_of_filter_bool {A} (f : A -> bool) l x :
  x ∈ List.filter f l <-> x ∈ l /\ f x = true.
Proof. rewrite !list_elem_of_In. apply filter_In. Qed.

Lemma strict_eq_Str v s : Js.strict_eq v (Js.Str s) = true <-> v = Js.Str s.
Proof.
  destruct v as [|t|n]; simpl; try (split; [done | congruence]).
  rewrite String.eqb_eq. split; congruence.
Qed.

(** The predicate of the code decides the criteria of the document. *)
Lemma keeps_satisfies text d r :
  text_name r ->
  keeps (Js.toLowerCase text) (criteria_region d) r = true
  <-> satisfies text (criteria_region d) r.
Proof.
  intros Hname. unfold keeps, filter_predicate, satisfies.
  assert (Hreg : criteria_region d <> "").
  { unfold criteria_region.
    destruct (String.eqb_spec (state_filter d) ""); [done|]. done. }
  assert (Hstate :
    String.eqb (criteria_region d) "all"
    || Js.truthy (prop r "State")
       && Js.strict_eq (prop r "State") (Js.Str (criteria_region d)) = true
    <-> region_matches (criteria_region d) r).
  { unfold region_matches.
    rewrite orb_true_iff, andb_true_iff, String.eqb_eq, strict_eq_Str.
    split; [tauto|]. intros [H|H]; [by left|right]. split; [|done].
    rewrite H. simpl. apply negb_true_iff. by apply String.eqb_neq. }
  unfold name_matches, display_name, text_name in *.
  destruct (String.eqb_spec (Js.toLowerCase text) "") as [He|He].
  - apply (proj1 (toLowerCase_empty _)) in He. simpl. rewrite Hstate. tauto.
  - assert (text <> "") by (by rewrite <- toLowerCase_empty).
    destruct (prop r "WorkbuddyName") as [|s|n]; simpl; [| |done].
    + split; [done|]. intros [[Ht|(pre & post & Hs)] _]; [done|].
      simpl in Hs. destruct pre; [|discriminate]. simpl in Hs.
      destruct (Js.toLowerCase text); [done|discriminate].
    + rewrite andb_true_iff, andb_true_iff, Hstate, negb_true_iff,
        String.eqb_neq, includes_spec.
      split.
      * intros [[_ Hs] Hr]. split; [by right|done].
      * intros [[Ht|(pre & post & Hs)] Hr]; [done|]. split; [|done].
        split; [|by exists pre, post].
        intros ->. simpl in Hs. destruct pre; [|discriminate]. simpl in Hs.
        destruct (Js.toLowerCase text); [done|discriminate].
Qed.

(* ===================================================================== *)
(** * C3: the filtered rows are exactly the rows that meet the criteria *)
(* ===================================================================== *)

(** C3. For every record set [rows] and every state of the two controls,
    once a filter request has been issued and its deferred evaluation has
    run, [filtered] is a subsequence of [raw], every row of [filtered]
    meets the criteria (case-insensitive substring on the display name,
    empty text matching all, and exact region, ['all'] matching all), and
    every row of [raw] left out fails them. The names of the records and
    the text of the name box are ASCII: there lower-casing both sides, as
    the code does, is the case-insensitive test. *)
Theorem filter_result_matches_criteria rt now w rows :
  raw (data w) = Some rows ->
  Forall text_name rows ->
  Forall (fun r => ascii_text (display_name r)) rows ->
  ascii_text (name_filter (dom w)) ->
  timers w = [] ->
  exists result,
    filtered (data (exec (runTimer rt) (filterData now w))) = Some result
    /\ sublist result rows
    /\ (forall r, r ∈ result ->
          satisfies (name_filter (dom w)) (criteria_region (dom w)) r)
    /\ (forall r, r ∈ rows -> r ∉ result ->
          ~ satisfies (name_filter (dom w)) (criteria_region (dom w)) r).
Proof.
  intros Hraw Hnames _ _ Hq.
  set (text := name_filter (dom w)). set (region := criteria_region (dom w)).
  exists (List.filter (keeps (Js.toLowerCase text) region) rows).
  rewrite (runTimer_single _ _ _ (filterData_single now w Hq)).
  destruct (filterData_data now w) as (Hr & _ & _ & _ & Hl).
  split; [|split; [apply filter_sublist|split]].
  - eapply filterCallback_current; unfold with_timers; cbn [data currentFilterTime];
      [by rewrite Hl | by rewrite Hr |].
    by apply array_filter_total.
  - intros r [Hin Hk]%elem_of_filter_bool.
    apply keeps_satisfies; [|done].
    rewrite Forall_forall in Hnames. by apply Hnames.
  - intros r Hin Hout Hsat. apply Hout, elem_of_filter_bool. split; [done|].
    apply keeps_satisfies; [|done].
    rewrite Forall_forall in Hnames. by apply Hnames.
Qed.

(** Closed facts about the sample page are settled by evaluation. *)
Ltac by_evaluation := apply (bool_decide_unpack _); vm_compute; exact I.

(** The witness: the sample page with "AL" typed into the name box. *)
Lemma filter_result_matches_criteria_witness :
  exists result,
    filtered (data (exec (runTimer (Sample.runtime Sample.csv))
                         (filterData 5 (Sample.typed "AL")))) = Some result
    /\ sublist result [Sample.alice; Sample.bob; Sample.cara]
    /\ (forall r, r ∈ result ->
          satisfies (name_filter (dom (Sample.typed "AL")))
                    (criteria_region (dom (Sample.typed "AL"))) r)
    /\ (forall r, r ∈ [Sample.alice; Sample.bob; Sample.cara] -> r ∉ result ->
          ~ satisfies (name_filter (dom (Sample.typed "AL")))
                      (criteria_region (dom (Sample.typed "AL"))) r).
Proof.
  apply (filter_result_matches_criteria (Sample.runtime Sample.csv) 5
           (Sample.typed "AL") [Sample.alice; Sample.bob; Sample.cara]);
    by_evaluation.
Defined.

Example filter_example :
  filtered (data (exec (runTimer (Sample.runtime Sample.csv))
                       (filterData 5 (Sample.typed "AL")))) = Some [Sample.alice].
Proof. by_evaluation. Qed.

(* ===================================================================== *)
(** * C5: the match-all criteria give back the whole record set *)
(* ===================================================================== *)

Lemma array_filter_match_all rows :
  array_filter (filter_predicate "" "all") rows = Some rows.
Proof. induction rows as [|r rows IH]; simpl; [done|]. by rewrite IH. Qed.

(** C5. With the name box empty and the region select on ['all'], a filter
    request leaves [filtered] equal to [raw], same rows in the same order. *)
Theorem match_all_is_identity rt now w rows :
  raw (data w) = Some rows ->
  name_filter (dom w) = "" ->
  state_filter (dom w) = "all" ->
  timers w = [] ->
  filtered (data (exec (runTimer rt) (filterData now w))) = Some rows.
Proof.
  intros Hraw Hname Hstate Hq.
  rewrite (runTimer_single _ _ _ (filterData_single now w Hq)).
  destruct (filterData_data now w) as (Hr & _ & _ & _ & Hl).
  eapply filterCallback_current; unfold with_timers; cbn [data currentFilterTime];
    [by rewrite Hl | by rewrite Hr |].
  cbn [nameFilter stateFilter]. unfold criteria_region.
  rewrite Hname, Hstate. apply array_filter_match_all.
Qed.

Lemma match_all_is_identity_witness :
  filtered (data (exec (runTimer (Sample.runtime Sample.csv))
                       (filterData 7 Sample.loaded)))
  = Some [Sample.alice; Sample.bob; Sample.cara].
Proof.
  apply (match_all_is_identity (Sample.runtime Sample.csv) 7 Sample.loaded);
    by_evaluation.
Defined.

(* ===================================================================== *)
(** * C4: the staleness stamp *)
(* ===================================================================== *)

(** The deferred evaluation never changes the stamp. *)
Lemma filterCallback_stamp rt task w :
  lastFilterApplied (data (exec (filterCallback rt task) w))
  = lastFilterApplied (data w).
Proof.
  unfold filterCallback. run_eff.
  destruct (currentFilterTime task =? lastFilterApplied (data w))%Z; simpl; [|done].
  destruct (raw (data w)) as [rows|]; simpl; [|done].
  destruct (array_filter _ rows) as [result|]; simpl; [|done].
  set (w1 := with_data (set_filtered (Some result)) w).
  pose proof (updateActiveVisualization_data rt w1) as Hd. unfold exec in Hd.
  destruct (updateActiveVisualization rt w1) as [[[]|e] w2]; simpl in *;
    by rewrite Hd.
Qed.

(** Two requests issued while the clock shows the same reading carry the
    same stamp: the first one, although superseded, still holds the stamp
    the store regards as current, and the stamp did not grow. *)
Lemma same_reading_same_stamp :
  let w1 := filterData 1000 (Sample.typed "al") in
  let w2 := filterData 1000 (with_dom (set_name_filter "bo") w1) in
  List.map currentFilterTime (timers w2) = [1000; 1000]%Z
  /\ lastFilterApplied (data w2) = 1000%Z
  /\ ~ (lastFilterApplied (data w1) < lastFilterApplied (data w2))%Z.
Proof.
  split; [by_evaluation|]. split; [by_evaluation|].
  apply (bool_decide_unpack _). vm_compute. exact I.
Qed.

(** C4, as the code has it. The stamp is the clock reading taken when a
    request is issued: issuing writes the reading into the store and onto
    the queued request, whatever the stamp was before; the deferred
    evaluation never changes it; it does not decrease as long as the clock
    does not run backwards; and a request issued at one reading, once
    superseded by a request issued at a different reading, no longer holds
    the store's stamp, so its evaluation is discarded. *)
Theorem stamp_is_issue_time rt now w :
  let task := mkTask now (Js.toLowerCase (name_filter (dom w)))
                     (criteria_region (dom w)) in
  lastFilterApplied (data (filterData now w)) = now
  /\ timers (filterData now w) = timers w ++ [task]
  /\ (forall t, lastFilterApplied (data (exec (filterCallback rt t) w))
                = lastFilterApplied (data w))
  /\ ((lastFilterApplied (data w) <= now)%Z ->
      (lastFilterApplied (data w) <= lastFilterApplied (data (filterData now w)))%Z)
  /\ (forall later, later <> now ->
        let w' := filterData later (filterData now w) in
        currentFilterTime task <> lastFilterApplied (data w')
        /\ exec (filterCallback rt task) w' = showAppLoading false w').
Proof.
  intros task.
  destruct (filterData_data now w) as (_ & _ & _ & _ & Hnow).
  split; [done|]. split; [apply filterData_timers|].
  split; [intros t; apply filterCallback_stamp|].
  split; [by rewrite Hnow|].
  intros later Hne w'.
  destruct (filterData_data later (filterData now w)) as (_ & _ & _ & _ & Hlater).
  assert (currentFilterTime task <> lastFilterApplied (data w')) as Hstale.
  { subst w'. rewrite Hlater. simpl. congruence. }
  split; [done|]. by apply filterCallback_stale.
Qed.

(** The next timer to fire is the oldest pending one. *)
Lemma runTimer_cons rt w task rest :
  timers w = task :: rest ->
  exec (runTimer rt) w
  = exec (filterCallback rt task) (with_timers (fun _ => rest) w).
Proof.
  intros H. unfold runTimer. unfold exec at 1, bind, get, modify.
  simpl. by rewrite H.
Qed.

(** Two requests issued at different readings, the controls changing in
    between: the first evaluation leaves [filtered] alone and the second
    writes the rows that meet the criteria of the second request. *)
Lemma newer_request_wins rt w rows earlier later (edit : Dom -> Dom) :
  raw (data w) = Some rows ->
  Forall text_name rows ->
  timers w = [] ->
  earlier <> later ->
  let w2 := filterData later (with_dom edit (filterData earlier w)) in
  let w3 := exec (runTimer rt) w2 in
  let w4 := exec (runTimer rt) w3 in
  filtered (data w3) = filtered (data w)
  /\ filtered (data w4)
     = Some (List.filter (keeps (Js.toLowerCase (name_filter (edit (dom w))))
                                (criteria_region (edit (dom w)))) rows).
Proof.
  intros Hraw Hnames Hq Hne.
  remember (with_dom edit (filterData earlier w)) as w1 eqn:Ew1.
  remember (filterData later w1) as w2 eqn:Ew2.
  destruct (filterData_data earlier w) as (Hr1 & Hf1 & _ & _ & _).
  destruct (filterData_frame earlier w) as (Hd1 & _).
  destruct (filterData_data later w1) as (Hr2 & Hf2 & _ & _ & Hl2).
  rewrite <- Ew2 in Hr2, Hf2, Hl2.
  assert (Hdata1 : data w1 = data (filterData earlier w)) by (by subst w1).
  assert (Hdom1 : dom w1 = edit (dom w))
    by (subst w1; cbn [dom with_dom]; by rewrite Hd1).
  assert (Ht1 : timers w1
                = [mkTask earlier (Js.toLowerCase (name_filter (dom w)))
                          (criteria_region (dom w))]).
  { subst w1. cbn [timers with_dom]. by rewrite filterData_timers, Hq. }
  assert (Ht2 : timers w2
                = [mkTask earlier (Js.toLowerCase (name_filter (dom w)))
                          (criteria_region (dom w));
                   mkTask later (Js.toLowerCase (name_filter (edit (dom w))))
                          (criteria_region (edit (dom w)))]).
  { subst w2. by rewrite filterData_timers, Ht1, Hdom1. }
  intros w2' w3 w4. subst w2'.
  assert (Hw3 : w3 = showAppLoading false (with_timers (fun _ =>
                  [mkTask later (Js.toLowerCase (name_filter (edit (dom w))))
                          (criteria_region (edit (dom w)))]) w2)).
  { unfold w3. rewrite (runTimer_cons _ _ _ _ Ht2).
    apply filterCallback_stale. cbn [data with_timers currentFilterTime].
    by rewrite Hl2. }
  assert (Hdata3 : raw (data w3) = Some rows
                   /\ filtered (data w3) = filtered (data w)
                   /\ lastFilterApplied (data w3) = later).
  { rewrite Hw3.
    cbn [data showAppLoading with_data with_timers raw filtered
         lastFilterApplied set_isLoading].
    by rewrite Hr2, Hf2, Hl2, Hdata1, Hr1, Hf1. }
  destruct Hdata3 as (Hr3 & Hf3 & Hl3).
  split; [done|].
  assert (Ht3 : timers w3
                = [mkTask later (Js.toLowerCase (name_filter (edit (dom w))))
                          (criteria_region (edit (dom w)))])
    by (by rewrite Hw3).
  unfold w4. rewrite (runTimer_single rt w3 _ Ht3).
  eapply filterCallback_current; cbn [data with_timers currentFilterTime];
    [by rewrite Hl3 | exact Hr3 |].
  by apply array_filter_total.
Qed.

(* ===================================================================== *)
(** * C1: a superseded request must not show its result *)
(* ===================================================================== *)

(** C1 fails when two requests are issued within one clock reading. The
    user types "al" and then "bo" while the clock reads 1000; when the
    first deferred evaluation runs, the second request has already been
    issued, yet the staleness test passes and [filtered] shows the result
    for "al". Only the second evaluation replaces it. *)
Example stale_result_shown_after_newer_request :
  let rt := Sample.runtime Sample.csv in
  let w1 := step rt Sample.loaded (InputName "al" 1000) in
  let w2 := step rt w1 (InputName "bo" 1000) in
  let w3 := step rt w2 TimerFires in
  name_filter (dom w3) = "bo"
  /\ List.map nameFilter (timers w3) = ["bo"]
  /\ filtered (data w3) = Some [Sample.alice]
  /\ filtered (data (step rt w3 TimerFires)) = Some [Sample.bob].
Proof. repeat split; by_evaluation. Qed.

(** With different readings the first evaluation is discarded. *)
Example stale_result_discarded_when_readings_differ :
  let rt := Sample.runtime Sample.csv in
  let w1 := step rt Sample.loaded (InputName "al" 1000) in
  let w2 := step rt w1 (InputName "bo" 1001) in
  let w3 := step rt w2 TimerFires in
  filtered (data w3) = Some [Sample.alice; Sample.bob; Sample.cara]
  /\ filtered (data (step rt w3 TimerFires)) = Some [Sample.bob].
Proof. repeat split; by_evaluation. Qed.

(* ===================================================================== *)
(** * C2: what a click on a bar does, and in which order *)
(* ===================================================================== *)

(** The rows that get a marker are the rows the guard lets through. *)
Lemma plot_markers_rows rt rows :
  List.map marker_row (plot_markers rt rows)
  = List.filter (fun r => negb (skip_marker rt r)) rows.
Proof.
  induction rows as [|r rows IH]; simpl; [done|].
  destruct (skip_marker rt r); simpl; by rewrite IH.
Qed.

(** Switching to the map on a page whose map exists and whose rows are
    loaded redraws the markers and touches nothing else. *)
Lemma switchTab_map rt w rows view :
  filtered (data w) = Some rows ->
  map (mapViz w) = Some view ->
  exists w',
    switchTab rt "map" w = (Ok tt, w')
    /\ data w' = set_activeTab "map" (data w)
    /\ dom w' = dom w
    /\ timers w' = timers w
    /\ is_Some (map (mapViz w'))
    /\ plotted w' = List.filter (fun r => negb (skip_marker rt r)) rows.
Proof.
  intros Hf Hm. unfold switchTab, updateActiveVisualization, updateMap.
  unfold bind, get, modify, ret. simpl. rewrite Hm, Hf. simpl.
  destruct rows as [|r rows]; simpl.
  - eexists. split; [reflexivity|]. repeat split. simpl. by rewrite Hm.
  - eexists. split; [reflexivity|]. do 3 (split; [reflexivity|]). split.
    + simpl. destruct (0 <? length _)%nat; [by eexists | by rewrite Hm].
    + unfold plotted. simpl. apply (plot_markers_rows rt (r :: rows)).
Qed.

(** The page a click on the bar of [d_state] leaves behind. *)
Lemma barClick_effect rt d_state now w rows view :
  filtered (data w) = Some rows ->
  map (mapViz w) = Some view ->
  let w' := exec (barClick rt d_state now) w in
  let stateBuddies :=
    List.filter (fun b => Js.strict_eq (prop b "State") (Js.Str d_state)) rows in
  state_filter (dom w')
  = (if bool_decide (d_state ∈ state_options (dom w)) then d_state else "")
  /\ timers w'
     = timers w ++ [mkTask now (Js.toLowerCase (name_filter (dom w)))
                           (criteria_region (dom w'))]
  /\ lastFilterApplied (data w') = now
  /\ activeTab (data w') = "map"
  /\ raw (data w') = raw (data w)
  /\ filtered (data w') = Some rows
  /\ plotted w' = List.filter (fun r => negb (skip_marker rt r)) rows
  /\ (forall p ps, extend_bounds rt stateBuddies = Some (p :: ps) ->
        map (mapViz w') = Some (FitBounds (p :: ps))).
Proof.
  intros Hf Hm w' stateBuddies.
  set (w1 := with_dom (set_state_filter d_state) w).
  set (w2 := filterData now w1).
  destruct (filterData_data now w1) as (Hr2 & Hf2 & _ & _ & Hl2).
  destruct (filterData_frame now w1) as (Hd2 & Hm2 & _ & _).
  assert (Hf2' : filtered (data w2) = Some rows) by (unfold w2; by rewrite Hf2).
  assert (Hm2' : map (mapViz w2) = Some view) by (unfold w2; by rewrite Hm2).
  destruct (switchTab_map rt w2 rows view Hf2' Hm2')
    as (w3 & Hsw & Hdata3 & Hdom3 & Ht3 & [view3 Hmap3] & Hplot3).
  assert (Hexec : barClick rt d_state now w
                  = (let! w := get in
                     match filtered (data w) with
                     | None => throw "TypeError: data is null"
                     | Some rows =>
                         let stateBuddies :=
                           List.filter (fun buddy => Js.strict_eq (prop buddy "State") (Js.Str d_state)) rows in
                         if (0 <? length stateBuddies)%nat
                         then match map (mapViz w) with
                              | Some _ =>
                                  match extend_bounds rt stateBuddies with
                                  | None => throw "Invalid LatLng object"
                                  | Some [] => ret tt
                                  | Some points =>
                                      modify (with_mapViz (fun m =>
                                        mkMap (Some (FitBounds points)) (markers m) (no_data_message m)))
                                  end
                              | None => ret tt
                              end
                         else ret tt
                     end) w3).
  { unfold barClick. unfold bind at 1 2 3, modify at 1 2. simpl.
    fold w1. fold w2. by rewrite Hsw. }
  assert (Hfilt3 : filtered (data w3) = Some rows) by (by rewrite Hdata3).
  unfold bind, get in Hexec. rewrite Hfilt3, Hmap3 in Hexec.
  fold stateBuddies in Hexec.
  assert (Hframe : data w' = data w3 /\ dom w' = dom w3 /\ timers w' = timers w3
                   /\ plotted w' = plotted w3).
  { subst w'. unfold exec. rewrite Hexec.
    destruct (0 <? length stateBuddies)%nat; [|done].
    by destruct (extend_bounds rt stateBuddies) as [[|p ps]|]. }
  destruct Hframe as (Hdata & Hdom & Htim & Hplot).
  rewrite Hdata, Hdom, Htim, Hplot, Hplot3, Hdata3, Hdom3, Ht3. unfold w2.
  rewrite Hd2, filterData_timers. cbn [raw filtered lastFilterApplied activeTab set_activeTab].
  rewrite Hr2, Hf2, Hl2. unfold w1. cbn. rewrite Hf.
  do 7 (split; [reflexivity|]).
  intros p ps Hb. subst w'. unfold exec. rewrite Hexec, Hb.
  assert ((0 <? length stateBuddies)%nat = true) as ->; [|done].
  destruct stateBuddies; [discriminate|]. done.
Qed.

(** C2, as the code has it. A click on the bar of [d_state] runs in one
    turn: the region select is set to the category (nothing is selected
    when the select has no such option), a filter request is issued and
    left pending, the active view becomes the map and is redrawn from the
    rows that were in [filtered] before the click, and the map is then made
    to frame those of these rows whose State is the category; the same rows
    are still in [filtered] when the handler returns. No staleness test
    guards that last step. The pending request is evaluated by the next
    timer, which replaces [filtered] by the rows of [raw] that meet the new
    criteria. *)
Theorem barClick_steps rt d_state now w rows view :
  filtered (data w) = Some rows ->
  map (mapViz w) = Some view ->
  let w' := exec (barClick rt d_state now) w in
  let stateBuddies :=
    List.filter (fun b => Js.strict_eq (prop b "State") (Js.Str d_state)) rows in
  state_filter (dom w')
  = (if bool_decide (d_state ∈ state_options (dom w)) then d_state else "")
  /\ timers w'
     = timers w ++ [mkTask now (Js.toLowerCase (name_filter (dom w)))
                           (criteria_region (dom w'))]
  /\ lastFilterApplied (data w') = now
  /\ activeTab (data w') = "map"
  /\ raw (data w') = raw (data w)
  /\ filtered (data w') = Some rows
  /\ plotted w' = List.filter (fun r => negb (skip_marker rt r)) rows
  /\ (forall p ps, extend_bounds rt stateBuddies = Some (p :: ps) ->
        map (mapViz w') = Some (FitBounds (p :: ps)))
  /\ (forall all,
        timers w = [] -> raw (data w) = Some all -> Forall text_name all ->
        filtered (data (exec (runTimer rt) w'))
        = Some (List.filter (keeps (Js.toLowerCase (name_filter (dom w)))
                                   (criteria_region (dom w'))) all)).
Proof.
  intros Hf Hm w' stateBuddies.
  destruct (barClick_effect rt d_state now w rows view Hf Hm)
    as (Hsel & Htimers & Hstamp & Htab & Hraw & Hfilt & Hplot & Hview).
  fold w' in Hsel, Htimers, Hstamp, Htab, Hraw, Hfilt, Hplot, Hview.
  do 8 (split; [assumption|]).
  intros all Hq Hall Hnames. rewrite Hq, app_nil_l in Htimers.
  rewrite (runTimer_single _ _ _ Htimers).
  eapply filterCallback_current; unfold with_timers; cbn [data currentFilterTime];
    [by rewrite Hstamp | by rewrite Hraw |].
  by apply array_filter_total.
Qed.

Lemma barClick_steps_witness :
  let rt := Sample.runtime Sample.csv in
  let w := Sample.loaded in
  let w' := exec (barClick rt "NY" 11) w in
  let stateBuddies :=
    List.filter (fun b => Js.strict_eq (prop b "State") (Js.Str "NY"))
                [Sample.alice; Sample.bob; Sample.cara] in
  state_filter (dom w')
  = (if bool_decide ("NY" ∈ state_options (dom w)) then "NY" else "")
  /\ timers w'
     = timers w ++ [mkTask 11 (Js.toLowerCase (name_filter (dom w)))
                           (criteria_region (dom w'))]
  /\ lastFilterApplied (data w') = 11%Z
  /\ activeTab (data w') = "map"
  /\ raw (data w') = raw (data w)
  /\ filtered (data w') = Some [Sample.alice; Sample.bob; Sample.cara]
  /\ plotted w'
     = List.filter (fun r => negb (skip_marker rt r))
                   [Sample.alice; Sample.bob; Sample.cara]
  /\ (forall p ps, extend_bounds rt stateBuddies = Some (p :: ps) ->
        map (mapViz w') = Some (FitBounds (p :: ps)))
  /\ (forall all,
        timers w = [] -> raw (data w) = Some all -> Forall text_name all ->
        filtered (data (exec (runTimer rt) w'))
        = Some (List.filter (keeps (Js.toLowerCase (name_filter (dom w)))
                                   (criteria_region (dom w'))) all)).
Proof.
  apply (barClick_steps (Sample.runtime Sample.csv) "NY" 11 Sample.loaded
           [Sample.alice; Sample.bob; Sample.cara] Sample.overview);
    by_evaluation.
Defined.

Example barClick_example :
  let rt := Sample.runtime Sample.csv in
  let w' := exec (barClick rt "NY" 11) Sample.loaded in
  map (mapViz w') = Some (FitBounds [Sample.position Sample.cara])
  /\ filtered (data (exec (runTimer rt) w')) = Some [Sample.cara].
Proof. split; by_evaluation. Qed.

(** C2 fails on the order of the steps. On the chart tab the user types
    "bo" and, before the deferred evaluation has run, clicks the CA bar.
    When the handler returns, the view is the map, drawn with a marker for
    each of the three rows, and the viewport frames Alice and Bob, taken
    from the rows filtered before the click; the request the click issued
    is still pending and [filtered] still holds all three rows. The rows
    that request selects are Bob alone. *)
Lemma focus_frames_rows_from_before_the_filter :
  let rt := Sample.runtime Sample.csv in
  let w0 := run rt [ClickTab "states"; InputName "bo" 10] Sample.loaded in
  let w1 := step rt w0 (ClickBar "CA" 11) in
  enabled rt (ClickBar "CA" 11) w0 = true
  /\ activeTab (data w1) = "map"
  /\ List.map currentFilterTime (timers w1) = [10; 11]%Z
  /\ filtered (data w1) = Some [Sample.alice; Sample.bob; Sample.cara]
  /\ plotted w1 = [Sample.alice; Sample.bob; Sample.cara]
  /\ map (mapViz w1)
     = Some (FitBounds [Sample.position Sample.alice; Sample.position Sample.bob])
  /\ filtered (data (run rt [TimerFires; TimerFires] w1)) = Some [Sample.bob].
Proof. repeat split; by_evaluation. Qed.

(* ===================================================================== *)
(** * C6: which rows the map plots and which the chart counts *)
(* ===================================================================== *)

Lemma truthy_false_unusable rt v : Js.truthy v = false -> unusable rt v.
Proof.
  unfold unusable, coordinate_missing, coordinate_zero.
  destruct v as [|s|n]; simpl; intros H.
  - left. by left.
  - left. right. apply negb_false_iff, String.eqb_eq in H. by subst.
  - apply negb_false_iff, orb_true_iff in H. destruct H as [H|H].
    + right. by left.
    + right. right. by exists n.
Qed.

Lemma unusable_not_drawn rt v :
  unusable rt v -> Js.truthy v = false \/ isNaN rt v = true.
Proof.
  intros [[->| ->]|[H|(n & -> & H)]]; simpl; auto.
  left. rewrite H. by rewrite orb_true_r.
Qed.

(** The guard of [updateMap] skips a row exactly when one of its two
    coordinates is unusable. *)
Lemma skip_marker_spec rt r :
  skip_marker rt r = true
  <-> unusable rt (prop r "latitude") \/ unusable rt (prop r "longitude").
Proof.
  unfold skip_marker. rewrite !orb_true_iff, andb_true_iff, !negb_true_iff. split.
  - intros [[[[H|H]|H]|H]|[H1 H2]].
    + left. by apply truthy_false_unusable.
    + right. by apply truthy_false_unusable.
    + left. right. by left.
    + right. right. by left.
    + left. right. right.
      destruct (prop r "latitude") as [|s|n]; simpl in H1; try done. by exists n.
  - intros [H|H]; apply unusable_not_drawn in H; destruct H as [H|H]; auto 10.
Qed.

Lemma updateMap_plotted rt w rows view :
  filtered (data w) = Some rows ->
  map (mapViz w) = Some view ->
  plotted (exec (updateMap rt) w)
  = List.filter (fun r => negb (skip_marker rt r)) rows.
Proof.
  intros Hf Hm. unfold plotted, updateMap. run_eff. rewrite Hm, Hf. simpl.
  destruct rows as [|r rows]; [done|]. simpl. apply (plot_markers_rows rt (r :: rows)).
Qed.

(** The chart's count under a label is the number of rows that have a
    region and are sanitised to that label. *)
Lemma count_states_from rt rows (acc : gmap string nat) state :
  fold_left (fun (stateCounts : gmap string nat) (buddy : Row) =>
               if Js.truthy (prop buddy "State")
               then let state := viz_sanitizeString rt (prop buddy "State") in
                    <[ state := default 0 (stateCounts !! state) + 1 ]> stateCounts
               else stateCounts)
            rows acc !! state
  = match acc !! state, occurrences rt state rows with
    | None, 0 => None
    | o, n => Some (default 0 o + n)
    end.
Proof.
  revert acc. induction rows as [|r rows IH]; intros acc.
  - change (occurrences rt state []) with 0. simpl.
    destruct (acc !! state); simpl; [f_equal; lia | done].
  - cbn [fold_left]. rewrite IH. unfold occurrences. cbn [List.filter].
    destruct (Js.truthy (prop r "State")); cbn [andb]; [|done].
    destruct (String.eqb_spec (viz_sanitizeString rt (prop r "State")) state) as [->|Hne].
    + rewrite lookup_insert_eq. cbn [length default].
      destruct (acc !! state) as [m|]; simpl; f_equal; lia.
    + by rewrite lookup_insert_ne.
Qed.

Lemma count_states_lookup rt rows state :
  count_states rt rows !! state
  = match occurrences rt state rows with
    | 0 => None
    | n => Some n
    end.
Proof.
  unfold count_states. rewrite count_states_from, lookup_empty.
  by destruct (occurrences rt state rows).
Qed.

(** C6 fails in both halves. On the page loaded from the equator file, Eve
    has a coordinate that is present, numeric and not (0,0), yet no marker
    is drawn for her; Zed, at (0,0) and without a region, is not mappable
    and is not counted by the chart either. *)
Lemma equator_not_plotted_regionless_not_counted :
  let rt := Sample.runtime Sample.equator_csv in
  let w := run rt [AppStart] (initial_world 0) in
  filtered (data w) = Some [Sample.eve; Sample.zed]
  /\ mappable rt Sample.eve
  /\ plotted w = []
  /\ ~ mappable rt Sample.zed
  /\ stateVizContainer w = Svg (SvgBars {[ "CA" := 1 ]}).
Proof.
  split; [by_evaluation|]. split.
  { unfold mappable, coordinate_missing, coordinate_zero. repeat split.
    - intros [[H|H]|[H|H]]; vm_compute in H; discriminate.
    - intros [H|H]; vm_compute in H; discriminate.
    - intros [_ (n & H1 & H2)]. vm_compute in H1. injection H1 as <-. discriminate. }
  split; [by_evaluation|]. split; [|by_evaluation].
  unfold mappable, coordinate_zero. intros (_ & _ & H). apply H.
  split; eexists; (split; [vm_compute; reflexivity | reflexivity]).
Qed.

(** C6, as the code has it. On a page whose map exists, the map plots a
    row of [filtered] exactly when neither coordinate is unusable, that is
    missing, non-numeric or zero; so no row whose coordinate is missing,
    non-numeric or (0,0) is plotted. Whatever its coordinate, a row is
    counted by the chart exactly when it has a region, under the sanitised
    text of that region; this half holds when no such text is the name of a
    property every object inherits (constructor, toString, __proto__ and
    the like), under which the chart's object of counts holds no number. *)
Theorem plotted_and_counted rt w rows view :
  filtered (data w) = Some rows ->
  map (mapViz w) = Some view ->
  (forall r, r ∈ plotted (exec (updateMap rt) w)
             <-> r ∈ rows
                 /\ ~ (unusable rt (prop r "latitude")
                       \/ unusable rt (prop r "longitude")))
  /\ (forall r, r ∈ plotted (exec (updateMap rt) w) -> mappable rt r)
  /\ (Forall (fun r => label_is_own rt r = true) rows ->
      (d3 rt = true -> rows <> [] ->
       stateVizContainer (updateStateViz rt w) = Svg (SvgBars (count_states rt rows)))
      /\ (forall state,
            count_states rt rows !! state
            = match occurrences rt state rows with
              | 0 => None
              | n => Some n
              end)
      /\ (forall r, r ∈ rows -> Js.truthy (prop r "State") = true ->
            exists n, count_states rt rows !! viz_sanitizeString rt (prop r "State")
                      = Some (S n))).
Proof.
  intros Hf Hm.
  assert (Hplot : forall r, r ∈ plotted (exec (updateMap rt) w)
             <-> r ∈ rows
                 /\ ~ (unusable rt (prop r "latitude")
                       \/ unusable rt (prop r "longitude"))).
  { intros r. rewrite (updateMap_plotted rt w rows view Hf Hm), elem_of_filter_bool.
    rewrite negb_true_iff, <- skip_marker_spec.
    destruct (skip_marker rt r); intuition congruence. }
  split; [done|]. split.
  { intros r [_ Hu]%Hplot. unfold mappable, unusable in *. tauto. }
  intros _. split.
  { intros Hd3 Hne. unfold updateStateViz, initStateViz, drawStateViz. rewrite Hd3.
    simpl. destruct (stateVizContainer w); simpl; rewrite Hf;
      by destruct rows. }
  split; [intros state; apply count_states_lookup|].
  intros r Hin Hstate. rewrite count_states_lookup.
  assert (0 < occurrences rt (viz_sanitizeString rt (prop r "State")) rows) as Hpos.
  { unfold occurrences.
    assert (r ∈ List.filter
              (fun r0 => Js.truthy (prop r0 "State")
                 && String.eqb (viz_sanitizeString rt (prop r0 "State"))
                               (viz_sanitizeString rt (prop r "State"))) rows) as Hr.
    { apply elem_of_filter_bool. split; [done|].
      by rewrite Hstate, String.eqb_refl. }
    destruct (List.filter _ rows); [by apply not_elem_of_nil in Hr | simpl; lia]. }
  destruct (occurrences rt _ rows) as [|n]; [lia|by exists n].
Qed.

Lemma plotted_and_counted_witness :
  let rt := Sample.runtime Sample.csv in
  let w := Sample.loaded in
  let rows := [Sample.alice; Sample.bob; Sample.cara] in
  (forall r, r ∈ plotted (exec (updateMap rt) w)
             <-> r ∈ rows
                 /\ ~ (unusable rt (prop r "latitude")
                       \/ unusable rt (prop r "longitude")))
  /\ (forall r, r ∈ plotted (exec (updateMap rt) w) -> mappable rt r)
  /\ (Forall (fun r => label_is_own rt r = true) rows ->
      (d3 rt = true -> rows <> [] ->
       stateVizContainer (updateStateViz rt w) = Svg (SvgBars (count_states rt rows)))
      /\ (forall state,
            count_states rt rows !! state
            = match occurrences rt state rows with
              | 0 => None
              | n => Some n
              end)
      /\ (forall r, r ∈ rows -> Js.truthy (prop r "State") = true ->
            exists n, count_states rt rows !! viz_sanitizeString rt (prop r "State")
                      = Some (S n))).
Proof.
  apply (plotted_and_counted (Sample.runtime Sample.csv) Sample.loaded
           [Sample.alice; Sample.bob; Sample.cara] Sample.overview);
    by_evaluation.
Defined.

(** The regions of the sample page are labels of their own. *)
Example sample_labels_are_own :
  Forall (fun r => label_is_own (Sample.runtime Sample.csv) r = true)
         [Sample.alice; Sample.bob; Sample.cara].
Proof. by_evaluation. Qed.

(* ===================================================================== *)
(** * C7: the categories follow the records *)
(* ===================================================================== *)

Section Preserves.
Context {A B : Type} (P : World -> Prop).

Lemma preserves_ret (a : A) : preserves P (ret a).
Proof. by intros w H. Qed.

Lemma preserves_throw (e : string) : preserves P (@throw A e).
Proof. by intros w H. Qed.

Lemma preserves_get : preserves P get.
Proof. by intros w H. Qed.

Lemma preserves_modify (f : World -> World) :
  (forall w, P w -> P (f w)) -> preserves P (modify f).
Proof. intros Hf w H. by apply Hf. Qed.

Lemma preserves_bind (m : Eff A) (k : A -> Eff B) :
  preserves P m -> (forall a, preserves P (k a)) -> preserves P (bind m k).
Proof.
  intros Hm Hk w H. specialize (Hm w H). unfold exec, bind in *.
  destruct (m w) as [[a|e] w1]; simpl in *; [by apply Hk|done].
Qed.

Lemma preserves_try_catch (body : Eff A) (handler : string -> Eff A) :
  preserves P body -> (forall e, preserves P (handler e)) ->
  preserves P (try_catch body handler).
Proof.
  intros Hm Hk w H. specialize (Hm w H). unfold exec, try_catch in *.
  destruct (body w) as [[a|e] w1]; simpl in *; [done|by apply Hk].
Qed.

Lemma preserves_finally (body : Eff A) (cleanup : World -> World) :
  preserves P body -> (forall w, P w -> P (cleanup w)) ->
  preserves P (finally body cleanup).
Proof.
  intros Hm Hc w H. specialize (Hm w H). unfold exec, finally in *.
  destruct (body w) as [r w1]; simpl in *. by apply Hc.
Qed.
End Preserves.

(** One step of a frame proof: follow the shape of the handler. *)
Ltac preserves_step :=
  lazymatch goal with
  | |- preserves _ (bind _ _) => apply preserves_bind; [|intros ?]
  | |- preserves _ (ret _) => apply preserves_ret
  | |- preserves _ (throw _) => apply preserves_throw
  | |- preserves _ get => apply preserves_get
  | |- preserves _ (try_catch _ _) => apply preserves_try_catch; [|intros ?]
  | |- preserves _ (finally _ _) => apply preserves_finally
  | |- preserves _ (modify _) => apply preserves_modify
  | |- preserves _ (match ?x with _ => _ end) => destruct x
  end.

Section StoreFrame.
Variables (R : option (list Row)) (S : option (list string)).

Lemma store_is_updateStateViz rt w :
  store_is R S w -> store_is R S (updateStateViz rt w).
Proof.
  unfold store_is. by destruct (updateStateViz_frame rt w) as (-> & _).
Qed.

Lemma store_is_initStateViz rt w :
  store_is R S w -> store_is R S (initStateViz rt w).
Proof.
  unfold store_is, initStateViz, drawStateViz. simpl.
  destruct (d3 rt); simpl; [|done].
  by destruct (filtered (data w)) as [[|r rows]|].
Qed.

Lemma store_is_filterData now w :
  store_is R S w -> store_is R S (filterData now w).
Proof.
  unfold store_is. by destruct (filterData_data now w) as (-> & _ & -> & _).
Qed.

Lemma store_is_updateMap rt : preserves (store_is R S) (updateMap rt).
Proof.
  intros w. unfold store_is. by destruct (updateMap_frame rt w) as (-> & _).
Qed.

Lemma store_is_updateActiveVisualization rt :
  preserves (store_is R S) (updateActiveVisualization rt).
Proof.
  intros w. unfold store_is.
  by destruct (updateActiveVisualization_frame rt w) as (-> & _).
Qed.

Lemma store_is_switchTab rt tabId : preserves (store_is R S) (switchTab rt tabId).
Proof.
  unfold switchTab. preserves_step; [by preserves_step|].
  apply store_is_updateActiveVisualization.
Qed.

Lemma store_is_filterCallback rt task :
  preserves (store_is R S) (filterCallback rt task).
Proof.
  unfold filterCallback. preserves_step; [|done].
  preserves_step; [|preserves_step].
  repeat preserves_step; try done.
  apply store_is_updateActiveVisualization.
Qed.

Lemma store_is_runTimer rt : preserves (store_is R S) (runTimer rt).
Proof.
  unfold runTimer. repeat preserves_step; try done.
  apply store_is_filterCallback.
Qed.

Lemma store_is_zoomToSpuddy buddyName :
  preserves (store_is R S) (zoomToSpuddy buddyName).
Proof. unfold zoomToSpuddy. repeat preserves_step; done. Qed.

Lemma store_is_barClick rt d_state now :
  preserves (store_is R S) (barClick rt d_state now).
Proof.
  unfold barClick.
  preserves_step; [by preserves_step|].
  preserves_step; [preserves_step; apply store_is_filterData|].
  preserves_step; [apply store_is_switchTab|].
  repeat preserves_step; done.
Qed.

Lemma store_is_initVisualizations rt :
  preserves (store_is R S) (initVisualizations rt).
Proof.
  unfold initVisualizations, initMap.
  repeat first [ apply store_is_updateMap | preserves_step ]; try done.
  apply store_is_initStateViz.
Qed.
End StoreFrame.

(** What [Array.from(new Set(...)).sort()] yields. *)
Lemma set_from_list_spec l seen :
  NoDup (Js.set_from_list l seen)
  /\ forall x, x ∈ Js.set_from_list l seen <-> x ∈ l /\ x ∉ seen.
Proof.
  revert seen. induction l as [|y l IH]; intros seen; simpl.
  - split; [constructor|]. intros x. rewrite elem_of_nil. tauto.
  - case_bool_decide as Hy.
    + destruct (IH seen) as [Hnd Hin]. split; [done|].
      intros x. rewrite Hin, elem_of_cons. split; [tauto|].
      intros [[->|Hx] Hs]; [done|tauto].
    + destruct (IH (y :: seen)) as [Hnd Hin]. split.
      * constructor; [|done]. rewrite Hin. rewrite elem_of_cons. tauto.
      * intros x. rewrite !elem_of_cons, Hin, elem_of_cons.
        destruct (decide (x = y)) as [->|Hne]; [tauto|]. tauto.
Qed.

Lemma state_values_spec rows s :
  s ∈ state_values rows
  <-> s <> "" /\ exists r, r ∈ rows /\ prop r "State" = Js.Str s.
Proof.
  unfold state_values. rewrite list_elem_of_omap. split.
  - intros (r & Hr & Hs). destruct (prop r "State") as [|t|n] eqn:E; try done.
    simpl in Hs. destruct (String.eqb_spec t ""); simpl in Hs; [done|].
    injection Hs as <-. split; [done|]. by exists r.
  - intros (Hne & r & Hr & Hs). exists r. split; [done|]. rewrite Hs. simpl.
    by destruct (String.eqb_spec s "").
Qed.

Lemma unique_states_spec rows : sorted_set_of_regions (unique_states rows) rows.
Proof.
  unfold sorted_set_of_regions, unique_states, Js.sort.
  destruct (set_from_list_spec (state_values rows) []) as [Hnd Hin].
  split; [apply Sorted_merge_sort, _|]. split.
  - by rewrite merge_sort_Permutation.
  - intros s. rewrite merge_sort_Permutation, Hin, state_values_spec.
    rewrite elem_of_nil. tauto.
Qed.

Lemma categories_current_match w : categories_current w -> categories_match (data w).
Proof.
  unfold categories_current, categories_match.
  destruct (raw (data w)) as [rows|]; [|done].
  intros H. exists (unique_states rows). split; [done|apply unique_states_spec].
Qed.

Lemma store_is_categories_current rows w :
  store_is (Some rows) (Some (unique_states rows)) w -> categories_current w.
Proof. unfold store_is, categories_current. by intros [-> ->]. Qed.

(** A handler that leaves records and categories alone keeps them in
    agreement. *)
Lemma preserves_categories_current {A} (m : Eff A) :
  (forall R S, preserves (store_is R S) m) -> preserves categories_current m.
Proof.
  intros Hm w Hw.
  destruct (Hm (raw (data w)) (states (data w)) w) as [Hr Hs]; [done|].
  unfold categories_current in *. by rewrite Hr, Hs.
Qed.

(** What [loadData] returns and leaves behind. *)
Lemma loadData_result rt w :
  match fetch_csv rt with
  | None => loadData rt w = (Thrown "Failed to load data. Please try again later.", w)
  | Some csvText =>
      let rows := handle_empty_names 0 (parse_text rt csvText) in
      exists w',
        loadData rt w = (Ok rows, w')
        /\ store_is (Some rows) (Some (unique_states rows)) w'
        /\ filtered (data w') = Some rows
        /\ lastFilterApplied (data w') = lastFilterApplied (data w)
        /\ activeTab (data w') = activeTab (data w)
        /\ mapViz w' = mapViz w
        /\ stateVizContainer w' = stateVizContainer w
        /\ timers w' = timers w
        /\ listening w' = listening w
        /\ error_messages (dom w') = error_messages (dom w)
  end.
Proof.
  unfold loadData. destruct (fetch_csv rt) as [csvText|]; [|done].
  cbv beta iota zeta. eexists. split; [reflexivity|]. by repeat split.
Qed.

(** What [initializeApp] does once [loadData] has returned [rows]. *)
Lemma store_is_after_load rt R S (rows : list Row) :
  preserves (store_is R S)
    (if (length rows =? 0)%nat then throw "No data loaded"
     else initVisualizations rt ;; modify setupEventListeners ;; switchTab rt "map").
Proof.
  destruct (length rows =? 0)%nat; [apply preserves_throw|].
  repeat first [ apply store_is_initVisualizations | apply store_is_switchTab
               | preserves_step ]; done.
Qed.

Lemma exec_try_bind_ok {A B} (m : Eff A) (k : A -> Eff B) h w a w1 :
  m w = (Ok a, w1) ->
  exec (try_catch (bind m k) h) w = exec (try_catch (k a) h) w1.
Proof. intros H. unfold exec, try_catch, bind. by rewrite H. Qed.

Lemma exec_try_bind_thrown {A B} (m : Eff A) (k : A -> Eff B) h w e w1 :
  m w = (Thrown e, w1) ->
  exec (try_catch (bind m k) h) w = exec (h e) w1.
Proof. intros H. unfold exec, try_catch, bind. by rewrite H. Qed.

Lemma store_is_handleError rt message R S w :
  store_is R S w -> store_is R S (handleError rt message w).
Proof. done. Qed.

Lemma initializeApp_categories rt : preserves categories_current (initializeApp rt).
Proof.
  intros w Hw. unfold initializeApp.
  pose proof (loadData_result rt w) as Hload.
  destruct (fetch_csv rt) as [csvText|].
  - destruct Hload as (w1 & Heq & Hstore & _).
    rewrite (exec_try_bind_ok _ _ _ _ _ _ Heq).
    apply (store_is_categories_current (handle_empty_names 0 (parse_text rt csvText))).
    revert Hstore. apply preserves_try_catch; [apply store_is_after_load|].
    intros e. apply preserves_modify. intros w2. apply store_is_handleError.
  - by rewrite (exec_try_bind_thrown _ _ _ _ _ _ Hload).
Qed.

Lemma updateGlobalData_categories rt newData w :
  categories_current (exec (updateGlobalData rt newData) w).
Proof.
  unfold updateGlobalData.
  apply (store_is_categories_current newData).
  unfold exec, bind, modify at 1 2 3 4 5. simpl.
  apply store_is_updateActiveVisualization. done.
Qed.

Lemma loadCSVFile_categories rt filePath :
  preserves categories_current (loadCSVFile rt filePath).
Proof.
  intros w Hw. unfold loadCSVFile.
  destruct (fetch rt filePath) as [|[] csvText]; try done.
  pose proof (updateGlobalData_categories rt (parseCSV rt csvText) w) as H.
  unfold exec, bind, ret in *.
  by destruct (updateGlobalData rt (parseCSV rt csvText) w) as [[[]|e] w1].
Qed.

(** Every listener keeps records and categories in agreement. *)
Lemma handler_categories rt ev : preserves categories_current (handler rt ev).
Proof.
  destruct ev; simpl;
    try (apply preserves_categories_current; intros R S;
         repeat first [ apply store_is_switchTab | apply store_is_barClick
                      | apply store_is_zoomToSpuddy | apply store_is_runTimer
                      | apply store_is_filterData | preserves_step ]; done).
  - apply initializeApp_categories.
  - apply preserves_bind; [apply loadCSVFile_categories|]. intros a. apply preserves_ret.
Qed.

Lemma step_categories rt w ev : categories_current w -> categories_current (step rt w ev).
Proof.
  intros Hw. unfold step. destruct (enabled rt ev w); [|done].
  by apply handler_categories.
Qed.

Lemma run_categories rt evs w : categories_current w -> categories_current (run rt evs w).
Proof.
  revert w. induction evs as [|ev evs IH]; intros w Hw; [done|].
  apply IH. by apply step_categories.
Qed.

(** C7. Whatever happens to the page from its start on (loads, filter
    requests and their deferred evaluations, tab switches, bar clicks,
    resets), the store's categories are the sorted set of the distinct
    non-empty State values of [raw], and unset while [raw] is unset; in
    particular a load sets them for the rows it stores, and neither issuing
    a filter nor its deferred evaluation modifies them. *)
Theorem categories_follow_raw rt :
  (forall t0 evs, categories_match (data (run rt evs (initial_world t0))))
  /\ (forall w, match fetch_csv rt with
                | Some csvText =>
                    let w' := exec (loadData rt) w in
                    exists rows cats,
                      raw (data w') = Some rows /\ states (data w') = Some cats
                      /\ sorted_set_of_regions cats rows
                | None => exec (loadData rt) w = w
                end)
  /\ (forall newData w,
        let w' := exec (updateGlobalData rt newData) w in
        exists cats,
          raw (data w') = Some newData /\ states (data w') = Some cats
          /\ sorted_set_of_regions cats newData)
  /\ (forall now w, states (data (filterData now w)) = states (data w))
  /\ (forall task w,
        states (data (exec (filterCallback rt task) w)) = states (data w)).
Proof.
  split.
  { intros t0 evs. apply categories_current_match, run_categories. done. }
  split.
  { intros w. pose proof (loadData_result rt w) as H.
    destruct (fetch_csv rt) as [csvText|].
    - destruct H as (w1 & Heq & [Hr Hs] & _). unfold exec. rewrite Heq. simpl.
      eexists _, _. split; [done|]. split; [done|]. apply unique_states_spec.
    - unfold exec. by rewrite H. }
  split.
  { intros newData w w'.
    assert (store_is (Some newData) (Some (unique_states newData)) w') as [Hr Hs].
    { subst w'. unfold updateGlobalData, exec, bind, modify at 1 2 3 4 5. simpl.
      by apply store_is_updateActiveVisualization. }
    eexists. split; [done|]. split; [done|]. apply unique_states_spec. }
  split.
  { intros now w. by destruct (filterData_data now w) as (_ & _ & -> & _). }
  intros task w.
  by destruct (store_is_filterCallback (raw (data w)) (states (data w)) rt task w).
Qed.

(* ===================================================================== *)
(** * C8: starting the views, and a load that returns no record *)
(* ===================================================================== *)

(** On a page whose map exists and whose rows are loaded, [updateMap]
    returns, and changes the map only. *)
Lemma updateMap_ok rt w rows view :
  filtered (data w) = Some rows ->
  map (mapViz w) = Some view ->
  exists w',
    updateMap rt w = (Ok tt, w')
    /\ data w' = data w /\ dom w' = dom w /\ timers w' = timers w
    /\ stateVizContainer w' = stateVizContainer w /\ listening w' = listening w
    /\ is_Some (map (mapViz w')).
Proof.
  intros Hf Hm. unfold updateMap, bind, get, modify, ret. simpl.
  rewrite Hm, Hf. simpl.
  destruct rows as [|r rows]; simpl.
  - eexists. repeat split. simpl. by rewrite Hm.
  - eexists. repeat split. simpl.
    destruct (0 <? length _)%nat; [by eexists | by rewrite Hm].
Qed.

Lemma initMap_ok rt w rows :
  leaflet rt = true ->
  filtered (data w) = Some rows ->
  exists w',
    initMap rt w = (Ok tt, w')
    /\ data w' = data w /\ dom w' = dom w /\ timers w' = timers w
    /\ stateVizContainer w' = stateVizContainer w /\ listening w' = listening w
    /\ is_Some (map (mapViz w')).
Proof.
  intros HL Hf. unfold initMap. unfold bind at 1 2, get. simpl. rewrite HL.
  destruct (map (mapViz w)) as [view|] eqn:Hm; unfold ret, modify; simpl.
  - by apply (updateMap_ok rt w rows view).
  - set (w0 := with_mapViz _ w).
    destruct (updateMap_ok rt w0 rows (SetView 20 0 2))
      as (w' & H & Hd & Hdom & Ht & Hc & Hl & Hmap); [done|done|].
    exists w'. by rewrite Hd, Hdom, Ht, Hc, Hl.
Qed.

(** Without Leaflet the map cannot be created: [initMap] throws before it
    has touched the page. *)
Lemma initMap_without_leaflet rt w :
  leaflet rt = false ->
  map (mapViz w) = None ->
  initMap rt w = (Thrown "ReferenceError: L is not defined", w).
Proof.
  intros HL Hm. unfold initMap, bind, get. simpl. by rewrite Hm, HL.
Qed.

(** C8 fails for a file that has a header and no record: [loadData]
    returns successfully with the empty array; [initializeApp] then reports
    an error, but the store no longer is in its state from before the load
    ([raw], [filtered] and the categories have become empty arrays). *)
Lemma empty_load_succeeds_and_fills_store :
  let rt := Sample.runtime Sample.header_only_csv in
  let w := initial_world 0 in
  fst (loadData rt w) = Ok []
  /\ raw (data w) = None
  /\ raw (data (exec (initializeApp rt) w)) = Some []
  /\ filtered (data (exec (initializeApp rt) w)) = Some []
  /\ states (data (exec (initializeApp rt) w)) = Some []
  /\ error_messages (dom (exec (initializeApp rt) w))
     = ["An error occurred. Please try again later."].
Proof.
  split; [vm_compute; reflexivity|]. repeat split; by_evaluation.
Qed.

(* ===================================================================== *)
(** * C9: placeholder names, by position *)
(* ===================================================================== *)

Lemma mysterious_name_inj i j : mysterious_name i = mysterious_name j -> i = j.
Proof.
  unfold mysterious_name, Js.nat_to_string. intros H.
  apply (inj (String.app "MysteriousSpuddy")) in H.
  apply (inj pretty) in H. lia.
Qed.

Lemma handle_empty_names_lookup index data i item :
  data !! i = Some item ->
  handle_empty_names index data !! i
  = Some (if Js.truthy (prop item "WorkbuddyName") then item
          else <[ "WorkbuddyName" := Js.Str (mysterious_name (index + i)) ]> item).
Proof.
  revert index i. induction data as [|x data IH]; intros index i Hi; [done|].
  destruct i as [|i]; simpl in *.
  - injection Hi as ->. rewrite Nat.add_0_r. by destruct (Js.truthy _).
  - rewrite (IH (S index) i Hi). by rewrite Nat.add_succ_r.
Qed.

Lemma handle_empty_names_length index data :
  length (handle_empty_names index data) = length data.
Proof. revert index. induction data; intros; simpl; [done|]. by rewrite IHdata. Qed.

Lemma fill_blank_names_lookup index rows rows' i row :
  fill_blank_names index rows = Some rows' ->
  rows !! i = Some row ->
  exists blank,
    name_is_blank (prop row "WorkbuddyName") = Some blank
    /\ rows' !! i
       = Some (if blank
               then <[ "WorkbuddyName" := Js.Str (mysterious_name (index + i)) ]> row
               else row).
Proof.
  revert index rows' i. induction rows as [|x rows IH]; intros index rows' i Hf Hi; [done|].
  simpl in Hf.
  destruct (name_is_blank (prop x "WorkbuddyName")) as [b|] eqn:Hb; [|done].
  destruct (fill_blank_names (S index) rows) as [rest|] eqn:Hrest; [|done].
  simpl in Hf. injection Hf as <-.
  destruct i as [|i]; simpl in *.
  - injection Hi as <-. exists b. by rewrite Nat.add_0_r.
  - destruct (IH (S index) rest i Hrest Hi) as (blank & H1 & H2).
    exists blank. by rewrite Nat.add_succ_r.
Qed.

Example placeholder_names_example :
  let rt := Sample.runtime
              ("WorkbuddyName,State" ++ Sample.newline ++ ",CA" ++ Sample.newline
               ++ "Bob,NY" ++ Sample.newline ++ ",NY") in
  List.map (fun r => prop r "WorkbuddyName")
           (default [] (raw (data (exec (loadData rt) (initial_world 0)))))
  = [Js.Str "MysteriousSpuddy1000"; Js.Str "Bob"; Js.Str "MysteriousSpuddy1002"].
Proof. by_evaluation. Qed.

(* ===================================================================== *)
(** * C10: the coordinates a row holds *)
(* ===================================================================== *)

Lemma replace_NaN_not_NaN (num : Js.number) :
  Js.num_isNaN (if Js.num_isNaN num then Js.zero else num) = false.
Proof. by destruct num. Qed.

Lemma coordinate_key_lower key :
  key = "latitude" \/ key = "longitude" ->
  String.eqb (Js.toLowerCase key) "latitude"
  || String.eqb (Js.toLowerCase key) "longitude" = true.
Proof. by intros [-> | ->]. Qed.

Lemma coordinate_key_exact key :
  key = "latitude" \/ key = "longitude" ->
  String.eqb key "latitude" || String.eqb key "longitude" = true.
Proof. by intros [-> | ->]. Qed.

(** A row built by assigning one property per column keeps a property of
    all its values that every assignment establishes. *)
Lemma row_fold_invariant (Q : string -> Js.value -> Prop)
    (assign : Row -> string * string -> Row) (cells : list (string * string)) :
  (forall (row : Row) hc,
     (forall key v, row !! key = Some v -> Q key v) ->
     forall key v, assign row hc !! key = Some v -> Q key v) ->
  forall acc : Row,
    (forall key v, acc !! key = Some v -> Q key v) ->
    forall key v, fold_left assign cells acc !! key = Some v -> Q key v.
Proof.
  intros Hassign. induction cells as [|hc cells IH]; intros acc Hacc; [done|].
  simpl. apply IH. by apply Hassign.
Qed.

Lemma papa_row_coordinates rt headers cells :
  coordinates_are_numbers (papa_row (transform rt) headers cells).
Proof.
  intros key v Hkey Hv. revert Hkey.
  change (number_if_coordinate key v). revert key v Hv.
  unfold papa_row. apply row_fold_invariant; [|done].
  intros row [h c] Hrow key v. simpl.
  destruct (String.eqb h "__proto__"); [apply Hrow|].
  destruct (decide (h = key)) as [->|Hne].
  - rewrite lookup_insert_eq. intros [= <-] Hkey. unfold transform.
    rewrite (coordinate_key_lower _ Hkey). eexists. split; [done|].
    apply replace_NaN_not_NaN.
  - rewrite lookup_insert_ne by done. apply Hrow.
Qed.

Lemma manual_row_coordinates rt headers rowData :
  coordinates_are_numbers (manual_row rt headers rowData).
Proof.
  intros key v Hkey Hv. revert Hkey.
  change (number_if_coordinate key v). revert key v Hv.
  unfold manual_row. apply row_fold_invariant; [|done].
  intros row [h c] Hrow key v. simpl.
  destruct (decide (h = key)) as [->|Hne].
  - intros Hv Hkey. rewrite (coordinate_key_exact _ Hkey) in Hv.
    rewrite lookup_insert_eq in Hv. injection Hv as <-.
    eexists. split; [done|]. apply replace_NaN_not_NaN.
  - destruct (_ || _); [|destruct (String.eqb h "__proto__"); [apply Hrow|]];
      rewrite lookup_insert_ne by done; apply Hrow.
Qed.

Lemma loader_row_coordinates rt headers values :
  coordinates_are_numbers (loader_row rt headers values).
Proof.
  intros key v Hkey Hv. revert Hkey.
  change (number_if_coordinate key v). revert key v Hv.
  unfold loader_row. apply row_fold_invariant; [|done].
  intros row [h c] Hrow key v. simpl.
  destruct (decide (h = key)) as [->|Hne].
  - intros Hv Hkey. rewrite (coordinate_key_lower _ Hkey) in Hv.
    rewrite lookup_insert_eq in Hv. injection Hv as <-.
    eexists. split; [done|]. apply replace_NaN_not_NaN.
  - destruct (_ || _); [|destruct (String.eqb h "__proto__"); [apply Hrow|]];
      rewrite lookup_insert_ne by done; apply Hrow.
Qed.

(** Naming a record does not touch its coordinates. *)
Lemma rename_coordinates name (row : Row) :
  coordinates_are_numbers row ->
  coordinates_are_numbers (<[ "WorkbuddyName" := name ]> row).
Proof.
  intros H key v Hkey. rewrite lookup_insert_ne; [by apply H|].
  by destruct Hkey as [-> | ->].
Qed.

Lemma parse_text_coordinates rt csvText :
  Forall coordinates_are_numbers (parse_text rt csvText).
Proof.
  unfold parse_text. destruct (Papa rt) as [tokenize|].
  - unfold papa_parse. destruct (tokenize csvText) as [|header records]; [done|].
    apply Forall_forall. intros r Hr. apply list_elem_of_In, in_map_iff in Hr.
    destruct Hr as (cells & <- & _). apply papa_row_coordinates.
  - unfold manual_parse. destruct (Js.split _ _) as [|first rest]; [done|].
    unfold manual_rows. apply Forall_forall. intros r Hr.
    apply list_elem_of_In, in_flat_map in Hr. destruct Hr as (line & _ & Hr).
    case_bool_decide; [done|].
    destruct (negb _); [done|]. destruct Hr as [<-|[]].
    apply manual_row_coordinates.
Qed.

Lemma handle_empty_names_coordinates index data :
  Forall coordinates_are_numbers data ->
  Forall coordinates_are_numbers (handle_empty_names index data).
Proof.
  intros H. revert index. induction H as [|r data Hr _ IH]; intros index; simpl.
  - constructor.
  - constructor; [|apply IH].
    destruct (negb _); [by apply rename_coordinates|done].
Qed.

Lemma fill_blank_names_coordinates index rows rows' :
  Forall coordinates_are_numbers rows ->
  fill_blank_names index rows = Some rows' ->
  Forall coordinates_are_numbers rows'.
Proof.
  intros H. revert index rows'.
  induction H as [|r rows Hr _ IH]; intros index rows' Hf; simpl in Hf.
  - injection Hf as <-. constructor.
  - destruct (name_is_blank _) as [b|]; [|done].
    destruct (fill_blank_names (S index) rows) as [rest|] eqn:Hrest; [|done].
    simpl in Hf. injection Hf as <-. constructor; [|by eapply IH].
    destruct b; [by apply rename_coordinates|done].
Qed.

Lemma loader_rows_coordinates rt headers i lines rows' :
  loader_rows rt headers i lines = Some rows' ->
  Forall coordinates_are_numbers rows'.
Proof.
  revert i rows'. induction lines as [|line lines IH]; intros i rows' H; simpl in H.
  - injection H as <-. constructor.
  - destruct (String.eqb (Js.trim line) ""); [by eapply IH|].
    destruct (negb _); [by eapply IH|].
    destruct (name_is_blank _) as [b|]; [|done].
    destruct (loader_rows rt headers (S i) lines) as [rest|] eqn:Hrest; [|done].
    simpl in H. injection H as <-. constructor; [|by eapply IH].
    destruct b; [apply rename_coordinates|]; apply loader_row_coordinates.
Qed.

Lemma parseCSV_coordinates rt csvText :
  Forall coordinates_are_numbers (parseCSV rt csvText).
Proof.
  unfold parseCSV. destruct (Papa rt) as [tokenize|].
  - destruct (fill_blank_names 0 _) as [rows'|] eqn:H; [|constructor].
    simpl. eapply fill_blank_names_coordinates; [|exact H].
    unfold papa_parse. destruct (tokenize csvText) as [|header records]; [done|].
    apply Forall_forall. intros r Hr. apply list_elem_of_In, in_map_iff in Hr.
    destruct Hr as (cells & <- & _). apply papa_row_coordinates.
  - destruct (split_lines csvText) as [|first rest]; [constructor|].
    destruct (loader_rows _ _ _ _) as [rows'|] eqn:H; [|constructor].
    simpl. by eapply loader_rows_coordinates.
Qed.

Example coordinates_example :
  let rt := Sample.runtime
              ("WorkbuddyName,latitude,longitude" ++ Sample.newline ++ "Ann,abc,12"
               ++ Sample.newline ++ "Ben,,") in
  List.map (fun r => (prop r "latitude", prop r "longitude"))
           (default [] (raw (data (exec (loadData rt) (initial_world 0)))))
  = [(Js.Num Js.zero, Js.Num (Js.of_Z 12)); (Js.Num Js.zero, Js.Num Js.zero)].
Proof. by_evaluation. Qed.

(* ===================================================================== *)
(** * The records a page holds have text names *)
(* ===================================================================== *)

Lemma text_name_lookup (r : Row) :
  (forall key v, r !! key = Some v -> text_if_name key v) -> text_name r.
Proof.
  unfold text_name, prop. intros H.
  destruct (r !! "WorkbuddyName") as [v|] eqn:E; simpl; [|done].
  by destruct (H _ _ E eq_refl) as [s ->].
Qed.

Lemma text_name_rename s (r : Row) :
  text_name (<[ "WorkbuddyName" := Js.Str s ]> r).
Proof. unfold text_name, prop. by rewrite lookup_insert_eq. Qed.

Lemma papa_row_text_name rt headers cells :
  text_name (papa_row (transform rt) headers cells).
Proof.
  apply text_name_lookup. unfold papa_row. apply row_fold_invariant; [|done].
  intros row [h c] Hrow key v. simpl.
  destruct (String.eqb h "__proto__"); [apply Hrow|].
  destruct (decide (h = key)) as [->|Hne].
  - rewrite lookup_insert_eq. intros [= <-] ->. unfold transform. by eexists.
  - rewrite lookup_insert_ne by done. apply Hrow.
Qed.

Lemma manual_row_text_name rt headers rowData :
  text_name (manual_row rt headers rowData).
Proof.
  apply text_name_lookup. unfold manual_row. apply row_fold_invariant; [|done].
  intros row [h c] Hrow key v. simpl.
  destruct (decide (h = key)) as [->|Hne].
  - intros Hv ->. simpl in Hv. rewrite lookup_insert_eq in Hv.
    injection Hv as <-. by eexists.
  - destruct (_ || _); [|destruct (String.eqb h "__proto__"); [apply Hrow|]];
      rewrite lookup_insert_ne by done; apply Hrow.
Qed.

Lemma loader_row_text_name rt headers values :
  text_name (loader_row rt headers values).
Proof.
  apply text_name_lookup. unfold loader_row. apply row_fold_invariant; [|done].
  intros row [h c] Hrow key v. simpl.
  destruct (decide (h = key)) as [->|Hne].
  - intros Hv ->. simpl in Hv. rewrite lookup_insert_eq in Hv.
    injection Hv as <-. by eexists.
  - destruct (_ || _); [|destruct (String.eqb h "__proto__"); [apply Hrow|]];
      rewrite lookup_insert_ne by done; apply Hrow.
Qed.

Lemma parse_text_names rt csvText : Forall text_name (parse_text rt csvText).
Proof.
  unfold parse_text. destruct (Papa rt) as [tokenize|].
  - unfold papa_parse. destruct (tokenize csvText) as [|header records]; [done|].
    apply Forall_forall. intros r Hr. apply list_elem_of_In, in_map_iff in Hr.
    destruct Hr as (cells & <- & _). apply papa_row_text_name.
  - unfold manual_parse. destruct (Js.split _ _) as [|first rest]; [done|].
    unfold manual_rows. apply Forall_forall. intros r Hr.
    apply list_elem_of_In, in_flat_map in Hr. destruct Hr as (line & _ & Hr).
    case_bool_decide; [done|].
    destruct (negb _); [done|]. destruct Hr as [<-|[]].
    apply manual_row_text_name.
Qed.

Lemma handle_empty_names_text index data :
  Forall text_name data -> Forall text_name (handle_empty_names index data).
Proof.
  intros H. revert index. induction H as [|r data Hr _ IH]; intros index; simpl.
  - constructor.
  - constructor; [|apply IH].
    destruct (negb _); [apply text_name_rename|done].
Qed.

Lemma fill_blank_names_text index rows rows' :
  Forall text_name rows ->
  fill_blank_names index rows = Some rows' ->
  Forall text_name rows'.
Proof.
  intros H. revert index rows'.
  induction H as [|r rows Hr _ IH]; intros index rows' Hf; simpl in Hf.
  - injection Hf as <-. constructor.
  - destruct (name_is_blank _) as [b|]; [|done].
    destruct (fill_blank_names (S index) rows) as [rest|] eqn:Hrest; [|done].
    simpl in Hf. injection Hf as <-. constructor; [|by eapply IH].
    destruct b; [apply text_name_rename|done].
Qed.

Lemma loader_rows_text rt headers i lines rows' :
  loader_rows rt headers i lines = Some rows' -> Forall text_name rows'.
Proof.
  revert i rows'. induction lines as [|line lines IH]; intros i rows' H; simpl in H.
  - injection H as <-. constructor.
  - destruct (String.eqb (Js.trim line) ""); [by eapply IH|].
    destruct (negb _); [by eapply IH|].
    destruct (name_is_blank _) as [b|]; [|done].
    destruct (loader_rows rt headers (S i) lines) as [rest|] eqn:Hrest; [|done].
    simpl in H. injection H as <-. constructor; [|by eapply IH].
    destruct b; [apply text_name_rename|apply loader_row_text_name].
Qed.

Lemma parseCSV_text rt csvText : Forall text_name (parseCSV rt csvText).
Proof.
  unfold parseCSV. destruct (Papa rt) as [tokenize|].
  - destruct (fill_blank_names 0 _) as [rows'|] eqn:H; [|constructor].
    simpl. eapply fill_blank_names_text; [|exact H].
    unfold papa_parse. destruct (tokenize csvText) as [|header records]; [done|].
    apply Forall_forall. intros r Hr. apply list_elem_of_In, in_map_iff in Hr.
    destruct Hr as (cells & <- & _). apply papa_row_text_name.
  - destruct (split_lines csvText) as [|first rest]; [constructor|].
    destruct (loader_rows _ _ _ _) as [rows'|] eqn:H; [|constructor].
    simpl. by eapply loader_rows_text.
Qed.

Lemma preserves_names_are_text {A} (m : Eff A) :
  (forall R S, preserves (store_is R S) m) -> preserves names_are_text m.
Proof.
  intros Hm w Hw.
  destruct (Hm (raw (data w)) (states (data w)) w) as [Hr _]; [done|].
  unfold names_are_text in *. by rewrite Hr.
Qed.

Lemma handler_names_are_text rt ev : preserves names_are_text (handler rt ev).
Proof.
  destruct ev; simpl;
    try (apply preserves_names_are_text; intros R S;
         repeat first [ apply store_is_switchTab | apply store_is_barClick
                      | apply store_is_zoomToSpuddy | apply store_is_runTimer
                      | apply store_is_filterData | preserves_step ]; done).
  - intros w Hw. unfold initializeApp.
    pose proof (loadData_result rt w) as Hload.
    destruct (fetch_csv rt) as [csvText|].
    + destruct Hload as (w1 & Heq & Hstore & _).
      rewrite (exec_try_bind_ok _ _ _ _ _ _ Heq).
      assert (store_is (Some (handle_empty_names 0 (parse_text rt csvText)))
                (Some (unique_states (handle_empty_names 0 (parse_text rt csvText))))
                (exec (try_catch
                   (if (length (handle_empty_names 0 (parse_text rt csvText)) =? 0)%nat
                    then throw "No data loaded"
                    else initVisualizations rt ;; modify setupEventListeners ;;
                         switchTab rt "map")
                   (fun _ => modify (handleError rt
                      "Failed to initialize the application. Please refresh the page and try again.")))
                   w1)) as [Hr _].
      { revert Hstore. apply preserves_try_catch; [apply store_is_after_load|].
        intros e. apply preserves_modify. intros w2. apply store_is_handleError. }
      unfold names_are_text. rewrite Hr.
      apply handle_empty_names_text, parse_text_names.
    + by rewrite (exec_try_bind_thrown _ _ _ _ _ _ Hload).
  - intros w Hw. unfold loadCSVFile.
    destruct (fetch rt filePath) as [|[] csvText]; try done.
    assert (store_is (Some (parseCSV rt csvText))
                     (Some (unique_states (parseCSV rt csvText)))
                     (exec (updateGlobalData rt (parseCSV rt csvText)) w)) as [Hr _].
    { unfold updateGlobalData, exec, bind, modify at 1 2 3 4 5. simpl.
      by apply store_is_updateActiveVisualization. }
    unfold names_are_text.
    unfold exec, bind, ret in *.
    destruct (updateGlobalData rt (parseCSV rt csvText) w) as [[[]|e] w1];
      simpl in *; rewrite Hr; apply parseCSV_text.
Qed.

(** Whatever happened to the page, the records it holds have text names:
    the deferred filter never meets a name it cannot lower-case. *)
Lemma reachable_names_are_text rt t0 evs :
  names_are_text (run rt evs (initial_world t0)).
Proof.
  assert (forall w, names_are_text w -> names_are_text (run rt evs w)) as H.
  { induction evs as [|ev evs IH]; intros w Hw; [done|].
    apply IH. unfold step. destruct (enabled rt ev w); [|done].
    by apply handler_names_are_text. }
  by apply H.
Qed.

(* ===================================================================== *)
(** * The model at work *)
(* ===================================================================== *)

(** Without Papa and D3 the manual parser yields the same rows and the
    chart shows its fallback message. *)
Example bare_page_example :
  let w := run (Sample.bare_runtime Sample.csv) [AppStart] (initial_world 0) in
  raw (data w) = Some [Sample.alice; Sample.bob; Sample.cara]
  /\ states (data w) = Some ["CA"; "NY"]
  /\ state_options (dom w) = ["all"; "CA"; "NY"]
  /\ total_count (dom w) = "3"
  /\ stateVizContainer w = D3NotAvailableMessage
  /\ plotted w = [Sample.alice; Sample.bob; Sample.cara].
Proof. repeat split; by_evaluation. Qed.

(** An unreachable server: one error box, nothing else changes. *)
Example offline_example :
  exec (initializeApp Sample.offline) (initial_world 0)
  = with_dom (add_error_message "An error occurred. Please try again later.")
             (initial_world 0).
Proof. by_evaluation. Qed.

(** The fallback sanitiser escapes markup. *)
Example escape_example :
  sanitizeString (Sample.bare_runtime "") (Js.Str "<b>Tom & 'Al'</b>")
  = "&lt;b&gt;Tom &amp; &#039;Al&#039;&lt;/b&gt;".
Proof. reflexivity. Qed.

(** "Clear Filters" empties the select, which a request reads as ['all']. *)
Example clear_all_filters_example :
  let rt := Sample.runtime Sample.csv in
  let w1 := run rt [ChangeState "CA" 5; TimerFires] Sample.loaded in
  let w2 := run rt [ClearAllFilters 9; TimerFires] w1 in
  filtered (data w1) = Some [Sample.alice; Sample.bob]
  /\ state_filter (dom w2) = ""
  /\ filtered (data w2) = Some [Sample.alice; Sample.bob; Sample.cara].
Proof. repeat split; by_evaluation. Qed.

(** The chart after a region filter shows that region alone. *)
Example chart_after_filter_example :
  let rt := Sample.runtime Sample.csv in
  let w := run rt [ClickTab "states"; ChangeState "CA" 5; TimerFires] Sample.loaded in
  stateVizContainer w = Svg (SvgBars {[ "CA" := 2 ]})
  /\ total_count (dom w) = "2".
Proof. split; by_evaluation. Qed.

(** The fallback parser of [parseCSV] honours quotes and numbers placeholder
    names by line. *)
Example parseCSV_example :
  List.map (fun r : Row => (prop r "WorkbuddyName", prop r "State"))
    (parseCSV (Sample.bare_runtime "")
       ("WorkbuddyName,State" ++ Sample.newline ++ ",CA" ++ Sample.newline
        ++ Sample.newline ++ String "034" ("a,b" ++ String "034" ",NY")))
  = [(Js.Str "MysteriousSpuddy1001", Js.Str "CA"); (Js.Str "a,b", Js.Str "NY")].
Proof. by_evaluation. Qed.

(* ===================================================================== *)
(** * The fallback sanitiser *)
(* ===================================================================== *)

Lemma chars_app s t : chars (s +:+ t) = chars s ++ chars t.
Proof. induction s as [|c s IH]; simpl; [done|]. unfold chars in *. simpl. by rewrite IH. Qed.

Lemma escape_char_clean c d : d ∈ chars (escape_char c) -> markup_char d = false.
Proof.
  unfold escape_char.
  destruct (Ascii.eqb_spec c "&"); [|destruct (Ascii.eqb_spec c "<");
    [|destruct (Ascii.eqb_spec c ">"); [|destruct (Ascii.eqb_spec c "034");
    [|destruct (Ascii.eqb_spec c "'")]]]];
    unfold chars; simpl; rewrite ?elem_of_cons, elem_of_nil;
    intros H; try by (repeat destruct H as [->|H]; try done).
  destruct H as [->|[]]. unfold markup_char.
  by repeat match goal with
     | H : c <> ?x |- context [Ascii.eqb c ?x] =>
         rewrite (proj2 (Ascii.eqb_neq c x) H)
     end.
Qed.

Lemma escape_char_plain c : escaped_char c = false -> escape_char c = String c EmptyString.
Proof.
  unfold escaped_char, markup_char, escape_char.
  destruct (Ascii.eqb c "&"), (Ascii.eqb c "<"), (Ascii.eqb c ">"),
    (Ascii.eqb c "034"), (Ascii.eqb c "'"); simpl; done.
Qed.

(** X1. When DOMPurify is missing, the text [sanitizeString] returns never
    contains [<], [>], a double quote or an apostrophe, whatever it is
    given; and a text that holds none of the five replaced characters comes
    back unchanged. *)
Theorem sanitizeString_fallback_escapes rt v :
  DOMPurify rt = None ->
  (forall c, c ∈ chars (sanitizeString rt v) -> markup_char c = false)
  /\ (forall s, v = Js.Str s ->
        (forall c, c ∈ chars s -> escaped_char c = false) ->
        sanitizeString rt v = s).
Proof.
  intros Hp. unfold sanitizeString. rewrite Hp. split.
  - destruct v as [|s|n]; try (intros c H; by apply elem_of_nil in H).
    induction s as [|a s IH]; intros c; [intros H; by apply elem_of_nil in H|].
    change (escape_html (String a s)) with (escape_char a +:+ escape_html s).
    rewrite chars_app, elem_of_app. intros [H|H]; [by eapply escape_char_clean|by apply IH].
  - intros s -> Hs. induction s as [|a s IH]; [done|].
    change (escape_html (String a s)) with (escape_char a +:+ escape_html s).
    rewrite escape_char_plain, IH; [done| |].
    + intros c Hc. apply Hs. unfold chars. simpl. rewrite elem_of_cons. by right.
    + apply Hs. unfold chars. simpl. rewrite elem_of_cons. by left.
Qed.

Lemma sanitizeString_fallback_escapes_witness :
  (forall c, c ∈ chars (sanitizeString (Sample.bare_runtime "") (Js.Str "<b>Tom & 'Al'</b>")) ->
     markup_char c = false)
  /\ (forall s, Js.Str "<b>Tom & 'Al'</b>" = Js.Str s ->
        (forall c, c ∈ chars s -> escaped_char c = false) ->
        sanitizeString (Sample.bare_runtime "") (Js.Str "<b>Tom & 'Al'</b>") = s).
Proof.
  apply (sanitizeString_fallback_escapes (Sample.bare_runtime "") (Js.Str "<b>Tom & 'Al'</b>")).
  reflexivity.
Defined.

(* ===================================================================== *)
(** * The colour of a name *)
(* ===================================================================== *)

(** X2. Whatever name it is given, [stringToColor] returns an hsl colour
    whose hue lies between 151 and 269, with saturation 70% and lightness
    60%; a missing or empty name gets hue 210. *)
Theorem stringToColor_hue_range v :
  (exists hue, stringToColor v = "hsl(" +:+ pretty hue +:+ ", 70%, 60%)"
               /\ (151 <= hue <= 269)%Z)
  /\ (Js.truthy v = false -> stringToColor v = "hsl(210, 70%, 60%)").
Proof.
  split; [|unfold stringToColor; by intros ->].
  unfold stringToColor. destruct (Js.truthy v); simpl.
  - set (hash := match v with Js.Str s => stringToColor_hash s 0 | _ => 0%Z end).
    exists (Z.rem (Z.rem hash 60 + 210) 360). split; [done|].
    assert (Hr : (-60 < Z.rem hash 60 < 60)%Z).
    { pose proof (Z.rem_bound_abs hash 60 ltac:(lia)). lia. }
    rewrite Z.rem_small; lia.
  - exists 210%Z. split; [reflexivity|lia].
Qed.

(* ===================================================================== *)
(** * The line parser of the fallback loader *)
(* ===================================================================== *)

Lemma append_empty_r s : s +:+ "" = s.
Proof. induction s as [|c s IH]; [done|]. by rewrite append_cons, IH. Qed.

Lemma append_assoc s t u : (s +:+ t) +:+ u = s +:+ (t +:+ u).
Proof. induction s as [|c s IH]; [done|]. by rewrite !append_cons, IH. Qed.

Lemma split_cons sep s : exists w ws, Js.split sep s = w :: ws.
Proof.
  induction s as [|c s (w & ws & IH)]; simpl; [by eexists _, _|].
  destruct (Ascii.eqb c sep); [by eexists _, _|]. rewrite IH. by eexists _, _.
Qed.

Lemma unquoted_cons c s : unquoted (String c s) -> c <> "034"%char /\ unquoted s.
Proof.
  unfold unquoted, chars. simpl. intros H. split.
  - apply H. rewrite elem_of_cons. by left.
  - intros d Hd. apply H. rewrite elem_of_cons. by right.
Qed.

(** Outside quotes, on a text without a quote, the loop cuts at the commas
    as [split] does. *)
Lemma parseCSVLine_loop_unquoted line result current previous :
  unquoted line ->
  parseCSVLine_loop line result current false previous
  = result ++ match Js.split "," line with
              | w :: ws => (current +:+ w) :: ws
              | [] => [current]
              end.
Proof.
  revert result current previous.
  induction line as [|c line IH]; intros result current previous Hq.
  - simpl. by rewrite append_empty_r.
  - apply unquoted_cons in Hq as [Hc Hq]. cbn [parseCSVLine_loop Js.split].
    rewrite (proj2 (Ascii.eqb_neq c "034") Hc). cbn [andb].
    destruct (Ascii.eqb c ","); cbn [andb negb].
    + rewrite IH by done. destruct (split_cons "," line) as (w & ws & ->).
      rewrite append_empty_r. by rewrite <- app_assoc.
    + rewrite IH by done. destruct (split_cons "," line) as (w & ws & ->).
      by rewrite append_assoc.
Qed.

(** The same up to the next comma that is followed by more text. *)
Lemma parseCSVLine_loop_field pre rest result current previous :
  unquoted pre ->
  parseCSVLine_loop (pre +:+ String "," rest) result current false previous
  = parseCSVLine_loop rest
      (result ++ match Js.split "," pre with
                 | w :: ws => (current +:+ w) :: ws
                 | [] => [current]
                 end)
      "" false (Some ","%char).
Proof.
  revert result current previous.
  induction pre as [|c pre IH]; intros result current previous Hq.
  - simpl. by rewrite append_empty_r.
  - apply unquoted_cons in Hq as [Hc Hq]. rewrite append_cons.
    cbn [parseCSVLine_loop Js.split].
    rewrite (proj2 (Ascii.eqb_neq c "034") Hc). cbn [andb].
    destruct (Ascii.eqb c ","); cbn [andb negb].
    + rewrite IH by done. destruct (split_cons "," pre) as (w & ws & ->).
      rewrite append_empty_r. by rewrite <- app_assoc.
    + rewrite IH by done. destruct (split_cons "," pre) as (w & ws & ->).
      by rewrite append_assoc.
Qed.

(** Inside quotes every character up to the next quote is kept. *)
Lemma parseCSVLine_loop_quoted s rest result current previous :
  unquoted s ->
  parseCSVLine_loop (s +:+ rest) result current true previous
  = parseCSVLine_loop rest result (current +:+ s) true (last_char s previous).
Proof.
  revert current previous.
  induction s as [|c s IH]; intros current previous Hq.
  - simpl. by rewrite append_empty_r.
  - apply unquoted_cons in Hq as [Hc Hq]. rewrite append_cons.
    cbn [parseCSVLine_loop last_char].
    rewrite (proj2 (Ascii.eqb_neq c "034") Hc). cbn [andb negb].
    rewrite andb_false_r. rewrite IH by done. by rewrite append_assoc.
Qed.

(** X3. On a line without a double quote, [parseCSVLine] returns the
    fields [line.split(',')] returns: the two fallback parsers cut such a
    line alike. *)
Theorem parseCSVLine_unquoted_is_split line :
  unquoted line -> parseCSVLine line = Js.split "," line.
Proof.
  intros Hq. unfold parseCSVLine. rewrite parseCSVLine_loop_unquoted by done.
  by destruct (split_cons "," line) as (w & ws & ->).
Qed.

(** A closed text is checked character by character. *)
Ltac unquoted_by_evaluation :=
  let c := fresh "c" in
  let Hc := fresh "Hc" in
  intros c Hc; apply (bool_decide_unpack _); revert c Hc;
  apply Forall_forall; apply (bool_decide_unpack _); vm_compute; exact I.

Lemma parseCSVLine_unquoted_is_split_witness :
  parseCSVLine "Bob,CA,37,-122" = Js.split "," "Bob,CA,37,-122".
Proof.
  apply (parseCSVLine_unquoted_is_split "Bob,CA,37,-122").
  unquoted_by_evaluation.
Defined.

(** X4. A field written between double quotes is one field: the commas
    inside it do not cut, and the quotes are dropped. This holds for a
    quoted text that holds no quote itself and does not end with a
    backslash (a quote after a backslash does not close the field), between
    other fields that hold no quote. *)
Theorem parseCSVLine_quoted_field pre s post :
  unquoted pre -> unquoted s -> unquoted post ->
  last_char s None <> Some "\"%char ->
  parseCSVLine (pre +:+ String "," (String "034" (s +:+ String "034" (String "," post))))
  = Js.split "," pre ++ [s] ++ Js.split "," post.
Proof.
  intros Hpre Hs Hpost Hlast. unfold parseCSVLine.
  rewrite parseCSVLine_loop_field by done.
  destruct (split_cons "," pre) as (w & ws & ->). cbn [app append].
  cbn [parseCSVLine_loop Ascii.eqb]. 
  change (Ascii.eqb "034" "034") with true. cbn [andb negb].
  change (Ascii.eqb "," "\") with false. cbn [negb].
  rewrite parseCSVLine_loop_quoted by done.
  cbn [parseCSVLine_loop append].
  change (Ascii.eqb "034" "034") with true. cbn [andb negb].
  assert (Hp : match last_char s (Some "034"%char) with
               | Some p => negb (Ascii.eqb p "\")
               | None => true
               end = true).
  { clear -Hlast. destruct s as [|c s]; [done|]. simpl in *.
    destruct (last_char s (Some c)) as [p|]; [|done].
    apply negb_true_iff, Ascii.eqb_neq. congruence. }
  rewrite Hp. cbn [negb].
  change (Ascii.eqb "," "034") with false. cbn [andb].
  change (Ascii.eqb "," ",") with true. cbn [andb negb].
  rewrite parseCSVLine_loop_unquoted by done.
  destruct (split_cons "," post) as (w' & ws' & ->).
  by rewrite <- app_assoc.
Qed.

Lemma parseCSVLine_quoted_field_witness :
  parseCSVLine ("Kim" +:+ String "," (String "034" ("Austin, TX" +:+ String "034" (String "," "30"))))
  = Js.split "," "Kim" ++ ["Austin, TX"] ++ Js.split "," "30".
Proof.
  apply (parseCSVLine_quoted_field "Kim" "Austin, TX" "30");
    [unquoted_by_evaluation | unquoted_by_evaluation | unquoted_by_evaluation
    | vm_compute; discriminate].
Defined.

(* ===================================================================== *)
(** * An evaluation that yields no result *)
(* ===================================================================== *)

(** X5. A deferred filter evaluation that finds no records loaded, or
    whose predicate throws on a record (a name that is a number has no
    [toLowerCase]), changes nothing on the page except that the loading
    flag is cleared: [filtered], the counter and both views stay as they
    were. *)
Theorem filterCallback_without_result rt task w :
  raw (data w) = None
  \/ (exists rows,
        raw (data w) = Some rows
        /\ array_filter (filter_predicate (nameFilter task) (stateFilter task)) rows = None) ->
  exec (filterCallback rt task) w = showAppLoading false w.
Proof.
  intros H. unfold filterCallback. run_eff.
  destruct (_ =? _)%Z; simpl; [|done].
  destruct H as [->|(rows & -> & ->)]; done.
Qed.

Lemma filterCallback_without_result_witness :
  exec (filterCallback (Sample.runtime Sample.csv) (mkTask 0 "a" "all"))
       (with_data (set_raw (Some [<[ "WorkbuddyName" := Js.Num (Js.of_Z 7) ]> ∅]))
                  Sample.loaded)
  = showAppLoading false
      (with_data (set_raw (Some [<[ "WorkbuddyName" := Js.Num (Js.of_Z 7) ]> ∅]))
                 Sample.loaded).
Proof.
  apply (filterCallback_without_result (Sample.runtime Sample.csv) (mkTask 0 "a" "all")
           (with_data (set_raw (Some [<[ "WorkbuddyName" := Js.Num (Js.of_Z 7) ]> ∅]))
                      Sample.loaded)).
  right. exists [<[ "WorkbuddyName" := Js.Num (Js.of_Z 7) ]> ∅].
  split; [reflexivity|]. vm_compute. reflexivity.
Defined.

(* ===================================================================== *)
(** * The store from one event to the next *)
(* ===================================================================== *)

Lemma store_frame_refl w : store_frame w w.
Proof. by repeat split. Qed.

Lemma store_frame_invariant w0 w :
  store_frame w0 w -> store_invariant w0 -> store_invariant w.
Proof.
  unfold store_frame, store_invariant, filtered_within_raw, counter_current,
    loading_is_pending.
  intros (Hr & Hf & Hl & Ht & Hq) H. by rewrite Hr, Hf, Hl, Ht, Hq.
Qed.

Lemma preserves_of_store_frame {A} (m : Eff A) :
  (forall w0, preserves (store_frame w0) m) -> preserves store_invariant m.
Proof.
  intros Hm w Hw. apply (store_frame_invariant w); [|done].
  apply Hm, store_frame_refl.
Qed.

Section StoreFrames.
Variable w0 : World.

Lemma store_frame_updateMap rt : preserves (store_frame w0) (updateMap rt).
Proof.
  intros w H. destruct (updateMap_frame rt w) as (Hd & Hdom & Ht & _).
  unfold store_frame in *. by rewrite Hd, Hdom, Ht.
Qed.

Lemma store_frame_updateActiveVisualization rt :
  preserves (store_frame w0) (updateActiveVisualization rt).
Proof.
  intros w H. destruct (updateActiveVisualization_frame rt w) as (Hd & Hdom & Ht & _).
  unfold store_frame in *. by rewrite Hd, Hdom, Ht.
Qed.

Lemma store_frame_switchTab rt tabId : preserves (store_frame w0) (switchTab rt tabId).
Proof.
  unfold switchTab. preserves_step; [by preserves_step|].
  apply store_frame_updateActiveVisualization.
Qed.

Lemma store_frame_zoomToSpuddy buddyName :
  preserves (store_frame w0) (zoomToSpuddy buddyName).
Proof. unfold zoomToSpuddy. repeat preserves_step; done. Qed.

Lemma store_frame_initStateViz rt w :
  store_frame w0 w -> store_frame w0 (initStateViz rt w).
Proof.
  assert (data (initStateViz rt w) = data w /\ dom (initStateViz rt w) = dom w
          /\ timers (initStateViz rt w) = timers w) as (Hd & Hdom & Ht).
  { unfold initStateViz, drawStateViz. simpl.
    destruct (d3 rt); simpl; [|done].
    by destruct (filtered (data w)) as [[|r rows]|]. }
  unfold store_frame. by rewrite Hd, Hdom, Ht.
Qed.

Lemma store_frame_initVisualizations rt :
  preserves (store_frame w0) (initVisualizations rt).
Proof.
  unfold initVisualizations, initMap.
  repeat first [ apply store_frame_updateMap | preserves_step ]; try done.
  apply store_frame_initStateViz.
Qed.

Lemma store_frame_handleError rt message w :
  store_frame w0 w -> store_frame w0 (handleError rt message w).
Proof. done. Qed.
End StoreFrames.

Lemma filterData_invariant now w :
  store_invariant w -> store_invariant (filterData now w).
Proof.
  unfold store_invariant, filtered_within_raw, counter_current, loading_is_pending.
  destruct (filterData_data now w) as (Hr & Hf & _).
  destruct (filterData_frame now w) as (Hd & _).
  rewrite Hr, Hf, Hd, filterData_timers. intros (H1 & H2 & _).
  split; [done|]. split; [done|]. intros _. by destruct (timers w).
Qed.

Lemma array_filter_sublist {A} (f : A -> option bool) l r :
  array_filter f l = Some r -> sublist r l.
Proof.
  revert r. induction l as [|x l IH]; intros r; simpl.
  - intros [= <-]. constructor.
  - destruct (f x) as [b|]; [|done].
    destruct (array_filter f l) as [r'|]; [|done].
    intros [= <-]. destruct b; constructor; by apply IH.
Qed.

(** With rows in [filtered], the dispatch to the active view returns. *)
Lemma updateActiveVisualization_ok rt w rows :
  filtered (data w) = Some rows ->
  exists w', updateActiveVisualization rt w = (Ok tt, w').
Proof.
  intros Hf. unfold updateActiveVisualization, bind, get. simpl.
  destruct (String.eqb (activeTab (data w)) "map").
  - destruct (map (mapViz w)) as [view|] eqn:Hm.
    + destruct (updateMap_ok rt w rows view Hf Hm) as (w' & H & _). by exists w'.
    + unfold updateMap, bind, get. simpl. rewrite Hm. by eexists.
  - destruct (String.eqb (activeTab (data w)) "states"); by eexists.
Qed.

(** What the deferred evaluation leaves behind. *)
Lemma filterCallback_invariant rt task w :
  filtered_within_raw w -> counter_current w ->
  store_invariant (exec (filterCallback rt task) w).
Proof.
  intros H1 H2.
  assert (Hsame : store_invariant (showAppLoading false w)).
  { split; [done|]. split; [done|]. intros H. discriminate H. }
  unfold filterCallback. unfold exec, finally, try_catch, bind at 1, get.
  cbn [fst snd].
  destruct (_ =? _)%Z; cbn [negb]; [|exact Hsame].
  destruct (raw (data w)) as [rows|] eqn:Hraw; [|exact Hsame].
  destruct (array_filter _ rows) as [result|] eqn:Hres; [|exact Hsame].
  unfold bind at 1, modify at 1.
  set (w1 := with_data (set_filtered (Some result)) w).
  destruct (updateActiveVisualization_ok rt w1 result) as (w2 & Hup); [done|].
  pose proof (updateActiveVisualization_frame rt w1) as Hfr.
  unfold exec in Hfr. unfold bind, modify. rewrite Hup in *.
  cbn [snd] in Hfr. destruct Hfr as (Hd & Hdom & Ht & _).
  split; [|split].
  - unfold filtered_within_raw. cbn. rewrite Hd. cbn. rewrite Hraw.
    by apply (array_filter_sublist _ _ _ Hres).
  - unfold counter_current. cbn. by rewrite Hd.
  - intros H. discriminate H.
Qed.

Lemma runTimer_invariant rt : preserves store_invariant (runTimer rt).
Proof.
  intros w (H1 & H2 & H3). unfold runTimer. unfold exec, bind at 1, get.
  destruct (timers w) as [|task rest]; [done|].
  apply (filterCallback_invariant rt task (with_timers (fun _ => rest) w)); done.
Qed.

(** The store [loadData] leaves behind. *)
Lemma loadData_store rt w :
  match fetch_csv rt with
  | None => exec (loadData rt) w = w
  | Some csvText =>
      let rows := handle_empty_names 0 (parse_text rt csvText) in
      raw (data (exec (loadData rt) w)) = Some rows
      /\ filtered (data (exec (loadData rt) w)) = Some rows
      /\ total_count (dom (exec (loadData rt) w)) = Js.nat_to_string (length rows)
      /\ isLoading (data (exec (loadData rt) w)) = isLoading (data w)
      /\ timers (exec (loadData rt) w) = timers w
  end.
Proof. unfold loadData. by destruct (fetch_csv rt). Qed.

Lemma loaded_invariant w0 w rows :
  raw (data w) = Some rows -> filtered (data w) = Some rows ->
  total_count (dom w) = Js.nat_to_string (length rows) ->
  isLoading (data w) = isLoading (data w0) -> timers w = timers w0 ->
  loading_is_pending w0 -> store_invariant w.
Proof.
  intros Hr Hf Ht Hl Hq H0.
  unfold store_invariant, filtered_within_raw, counter_current, loading_is_pending.
  rewrite Hr, Hf, Ht, Hl, Hq. by repeat split.
Qed.

Lemma initializeApp_invariant rt : preserves store_invariant (initializeApp rt).
Proof.
  intros w Hw. unfold initializeApp.
  pose proof (loadData_result rt w) as Hload.
  pose proof (loadData_store rt w) as Hstore.
  destruct (fetch_csv rt) as [csvText|].
  - destruct Hload as (w1 & Heq & _).
    rewrite (exec_try_bind_ok _ _ _ _ _ _ Heq).
    unfold exec in Hstore. rewrite Heq in Hstore. cbn [snd] in Hstore.
    destruct Hstore as (Hr & Hf & Ht & Hl & Hq).
    assert (H1 : store_invariant w1).
    { apply (loaded_invariant w w1 _ Hr Hf Ht Hl Hq), Hw. }
    revert H1. apply preserves_of_store_frame. intros w0.
    apply preserves_try_catch.
    + destruct (length _ =? 0)%nat; [apply preserves_throw|].
      repeat first [ apply store_frame_initVisualizations | apply store_frame_switchTab
                   | preserves_step ]; done.
    + intros e. apply preserves_modify. intros w2. apply store_frame_handleError.
  - rewrite (exec_try_bind_thrown _ _ _ _ _ _ Hload).
    revert Hw. apply preserves_of_store_frame. intros w0.
    apply preserves_modify. intros w2. apply store_frame_handleError.
Qed.

Lemma loadCSVFile_invariant rt filePath :
  preserves store_invariant (loadCSVFile rt filePath ;; ret tt).
Proof.
  intros w Hw. unfold loadCSVFile.
  destruct (fetch rt filePath) as [|[] csvText]; try done.
  unfold updateGlobalData, exec, bind, ret, modify at 1 2 3 4 5. cbn [fst snd].
  set (w1 := populateStateFilter rt _).
  assert (H1 : store_invariant w1).
  { apply (loaded_invariant w w1 (parseCSV rt csvText)); try done. apply Hw. }
  pose proof (preserves_of_store_frame _
                (fun w0 => store_frame_updateActiveVisualization w0 rt) w1 H1) as H2.
  unfold exec in H2.
  by destruct (updateActiveVisualization rt w1) as [[[]|e] w2].
Qed.

Lemma handler_invariant rt ev : preserves store_invariant (handler rt ev).
Proof.
  destruct ev; cbn [handler].
  - apply initializeApp_invariant.
  - apply loadCSVFile_invariant.
  - preserves_step; [by preserves_step|]. preserves_step. apply filterData_invariant.
  - preserves_step; [by preserves_step|]. preserves_step. apply filterData_invariant.
  - preserves_step; [by preserves_step|]. preserves_step. apply filterData_invariant.
  - apply preserves_of_store_frame. intros w0. apply store_frame_switchTab.
  - unfold barClick.
    preserves_step; [by preserves_step|].
    preserves_step; [preserves_step; apply filterData_invariant|].
    preserves_step; [apply preserves_of_store_frame; intros w0; apply store_frame_switchTab|].
    repeat preserves_step; done.
  - apply preserves_of_store_frame. intros w0. apply store_frame_zoomToSpuddy.
  - preserves_step; [by preserves_step|]. preserves_step; [by preserves_step|].
    preserves_step. apply filterData_invariant.
  - preserves_step; [by preserves_step|]. preserves_step; [by preserves_step|].
    preserves_step. apply filterData_invariant.
  - apply runTimer_invariant.
Qed.

Lemma reachable_store_invariant rt t0 evs :
  store_invariant (run rt evs (initial_world t0)).
Proof.
  assert (H : store_invariant (initial_world t0)).
  { split; [done|]. split; [reflexivity|]. intros H. discriminate H. }
  revert H. generalize (initial_world t0). unfold run.
  induction evs as [|ev evs IH]; intros w Hw; [done|].
  apply IH. unfold step. destruct (enabled rt ev w); [|done].
  by apply handler_invariant.
Qed.

(** X6. Whatever happens to the page from its start on, [filtered] is a
    selection of the rows of [raw], in the order they have in [raw]; the
    two are set together, never one without the other. *)
Theorem filtered_is_selection_of_raw rt t0 evs :
  let w := run rt evs (initial_world t0) in
  match raw (data w), filtered (data w) with
  | Some rows, Some result => sublist result rows
  | None, None => True
  | _, _ => False
  end.
Proof. apply (reachable_store_invariant rt t0 evs). Qed.

(** X7. Whatever happens to the page from its start on, the counter shows
    the number of rows in [filtered] (0 before a load): a load and a
    completed filter evaluation both write it, and nothing else changes
    [filtered]. *)
Theorem counter_shows_filtered rt t0 evs :
  let w := run rt evs (initial_world t0) in
  total_count (dom w)
  = Js.nat_to_string (length (default [] (filtered (data w)))).
Proof. apply (reachable_store_invariant rt t0 evs). Qed.

(** X8. The loading flag is never left up: whatever happens to the page,
    the flag is up only while a filter request is still pending, and every
    deferred evaluation clears it, whether it wrote a result, was stale or
    failed. *)
Theorem loading_flag_is_cleared rt :
  (forall t0 evs,
     let w := run rt evs (initial_world t0) in
     isLoading (data w) = true -> timers w <> [])
  /\ (forall task w, isLoading (data (exec (filterCallback rt task) w)) = false).
Proof.
  split.
  - intros t0 evs. apply (reachable_store_invariant rt t0 evs).
  - intros task w. unfold filterCallback, exec, finally.
    by destruct (try_catch _ _ w).
Qed.

(* ===================================================================== *)
(** * The views from one event to the next *)
(* ===================================================================== *)

(** What [updateMap] draws on a page whose map exists and whose rows are
    loaded. *)
Lemma updateMap_draws rt w rows view :
  filtered (data w) = Some rows ->
  map (mapViz w) = Some view ->
  exists w',
    updateMap rt w = (Ok tt, w')
    /\ data w' = data w /\ dom w' = dom w /\ timers w' = timers w
    /\ stateVizContainer w' = stateVizContainer w /\ listening w' = listening w
    /\ is_Some (map (mapViz w'))
    /\ plotted w' = plottable rt rows
    /\ no_data_message (mapViz w') = bool_decide (rows = []).
Proof.
  intros Hf Hm. unfold updateMap, bind, get, modify, ret. simpl.
  rewrite Hm, Hf. simpl.
  destruct rows as [|r rows]; simpl.
  - eexists. repeat split. simpl. by rewrite Hm.
  - eexists. split; [reflexivity|]. do 5 (split; [reflexivity|]). split; [|split].
    + simpl. destruct (0 <? length _)%nat; [by eexists | by rewrite Hm].
    + unfold plotted, plottable. simpl. apply (plot_markers_rows rt (r :: rows)).
    + done.
Qed.

(** What [updateStateViz] draws. *)
Lemma updateStateViz_draws rt w :
  stateVizContainer (updateStateViz rt w) = chart_of rt (filtered (data w)).
Proof.
  unfold updateStateViz, initStateViz, drawStateViz, chart_of.
  destruct (d3 rt); simpl; [|done].
  destruct (stateVizContainer w); simpl;
    by destruct (filtered (data w)) as [[|r rows]|].
Qed.

Lemma views_current_map_has_rows rt w : views_current rt w -> map_has_rows w.
Proof. intros [H _] Hm. destruct (H Hm) as (rows & -> & _). by eexists. Qed.

Lemma views_frame_refl w : views_frame w w.
Proof. by repeat split. Qed.

Lemma views_frame_current rt w0 w :
  views_frame w0 w -> views_current rt w0 -> views_current rt w.
Proof.
  unfold views_frame, views_current, plotted.
  intros (Hf & Ha & Hmk & Hn & Hm & Hc). by rewrite Hf, Ha, Hmk, Hn, Hm, Hc.
Qed.

Lemma preserves_of_views_frame {A} rt (m : Eff A) :
  (forall w0, preserves (views_frame w0) m) -> preserves (views_current rt) m.
Proof.
  intros Hm w Hw. apply (views_frame_current rt w); [|done].
  apply Hm, views_frame_refl.
Qed.

Lemma views_frame_filterData w0 now w :
  views_frame w0 w -> views_frame w0 (filterData now w).
Proof.
  destruct (filterData_data now w) as (_ & Hf & _ & Ha & _).
  destruct (filterData_frame now w) as (_ & Hm & Hc & _).
  unfold views_frame. by rewrite Hf, Ha, Hm, Hc.
Qed.

(** The dispatch to the active view leaves that view showing the rows of
    [filtered]. *)
Lemma updateActiveVisualization_current rt w :
  map_has_rows w -> views_current rt (exec (updateActiveVisualization rt) w).
Proof.
  intros Hrows. unfold updateActiveVisualization, exec, bind, get. cbn [fst snd].
  destruct (String.eqb_spec (activeTab (data w)) "map") as [Ha|Ha].
  - destruct (map (mapViz w)) as [view|] eqn:Hm.
    + destruct Hrows as [rows Hf]; [by eexists|].
      destruct (updateMap_draws rt w rows view Hf Hm)
        as (w' & -> & Hd & _ & _ & Hc & _ & Hm' & Hp & Hn).
      cbn [snd]. split.
      * intros _. exists rows. by rewrite Hd.
      * rewrite Hd, Ha. done.
    + unfold updateMap, bind, get. cbn. rewrite Hm. cbn. split.
      * rewrite Hm. by intros [? ?].
      * by rewrite Ha.
  - destruct (String.eqb_spec (activeTab (data w)) "states") as [Hs|Hs]; cbn.
    + destruct (updateStateViz_frame rt w) as (Hd & _ & _ & Hm & _).
      split.
      * rewrite Hm, Hd. intros H. destruct (Hrows H) as [rows Hf].
        exists rows. split; [done|]. by rewrite Hs.
      * intros _. by rewrite updateStateViz_draws, Hd.
    + split; [|done]. intros H. destruct (Hrows H) as [rows Hf].
      exists rows. split; [done|]. done.
Qed.

Lemma switchTab_current rt tabId w :
  map_has_rows w -> views_current rt (exec (switchTab rt tabId) w).
Proof.
  intros H. unfold switchTab, exec, bind, modify at 1. cbn [fst snd].
  by apply updateActiveVisualization_current.
Qed.

Lemma filterCallback_current_views rt task :
  preserves (views_current rt) (filterCallback rt task).
Proof.
  intros w Hw. unfold filterCallback. unfold exec, finally, try_catch, bind at 1, get.
  cbn [fst snd].
  destruct (_ =? _)%Z; cbn [negb]; [|exact Hw].
  destruct (raw (data w)) as [rows|]; [|exact Hw].
  destruct (array_filter _ rows) as [result|]; [|exact Hw].
  unfold bind at 1, modify at 1.
  set (w1 := with_data (set_filtered (Some result)) w).
  assert (H1 : views_current rt (exec (updateActiveVisualization rt) w1)).
  { apply updateActiveVisualization_current. intros _. by eexists. }
  unfold exec in H1. unfold bind, modify, ret.
  by destruct (updateActiveVisualization rt w1) as [[[]|e] w2].
Qed.

Lemma runTimer_current_views rt : preserves (views_current rt) (runTimer rt).
Proof.
  intros w Hw. unfold runTimer. unfold exec, bind at 1, get.
  destruct (timers w) as [|task rest]; [done|].
  by apply (filterCallback_current_views rt task (with_timers (fun _ => rest) w)).
Qed.

Lemma zoomToSpuddy_current_views rt buddyName :
  preserves (views_current rt) (zoomToSpuddy buddyName).
Proof.
  intros w Hw. unfold zoomToSpuddy, exec, bind, get. cbn [fst snd].
  destruct (filtered (data w)) as [rows|] eqn:Hf; [|exact Hw].
  destruct (List.find _ rows) as [buddy|]; [|exact Hw].
  destruct (_ && _); [|exact Hw].
  destruct (map (mapViz w)) as [view|] eqn:Hm; [|exact Hw].
  apply (views_frame_current rt w); [|done].
  unfold modify. cbn. repeat split; try done; rewrite ?Hm; intros _; by eexists.
Qed.

Lemma barClick_current_views rt d_state now :
  preserves (views_current rt) (barClick rt d_state now).
Proof.
  intros w Hw. unfold barClick. unfold exec, bind at 1 2 3, modify at 1 2.
  cbn [fst snd].
  set (w2 := filterData now (with_dom (set_state_filter d_state) w)).
  assert (H2 : views_current rt w2).
  { apply (views_frame_current rt w); [|done].
    apply views_frame_filterData. by repeat split. }
  pose proof (switchTab_current rt "map" w2 (views_current_map_has_rows rt w2 H2)) as H3.
  unfold exec in H3.
  destruct (switchTab rt "map" w2) as [[[]|e] w3]; cbn [fst snd] in *; [|exact H3].
  unfold bind, get. cbn [fst snd].
  destruct (filtered (data w3)) as [rows|]; [|exact H3].
  destruct (0 <? length _)%nat; [|exact H3].
  destruct (map (mapViz w3)) as [view|] eqn:Hm; [|exact H3].
  destruct (extend_bounds rt _) as [[|p ps]|]; try exact H3.
  apply (views_frame_current rt w3); [|done].
  unfold modify. cbn. repeat split; try done; rewrite ?Hm; intros _; by eexists.
Qed.

Lemma loadCSVFile_current_views rt filePath :
  preserves (views_current rt) (loadCSVFile rt filePath ;; ret tt).
Proof.
  intros w Hw. unfold loadCSVFile.
  destruct (fetch rt filePath) as [|[] csvText]; try done.
  unfold updateGlobalData, exec, bind, ret, modify at 1 2 3 4 5. cbn [fst snd].
  set (w1 := populateStateFilter rt _).
  assert (H1 : views_current rt (exec (updateActiveVisualization rt) w1)).
  { apply updateActiveVisualization_current. intros _. by eexists. }
  unfold exec in H1.
  by destruct (updateActiveVisualization rt w1) as [[[]|e] w2].
Qed.

(** The first start: on a page without a map that does not show the chart
    tab. *)
Lemma initializeApp_current_views rt w :
  map (mapViz w) = None -> activeTab (data w) <> "states" ->
  views_current rt (exec (initializeApp rt) w).
Proof.
  intros Hm Ha.
  assert (Hnone : forall w1, mapViz w1 = mapViz w -> activeTab (data w1) = activeTab (data w) ->
                   views_current rt w1).
  { intros w1 H1 H2. split.
    - rewrite H1, Hm. by intros [? ?].
    - by rewrite H2. }
  unfold initializeApp.
  pose proof (loadData_result rt w) as Hload.
  destruct (fetch_csv rt) as [csvText|].
  - destruct Hload as (w1 & Heq & _ & Hf & _ & Ha1 & Hm1 & _).
    rewrite (exec_try_bind_ok _ _ _ _ _ _ Heq).
    set (rows := handle_empty_names 0 (parse_text rt csvText)) in *.
    destruct (length rows =? 0)%nat.
    + unfold exec, try_catch, throw, modify. cbn [fst snd].
      apply (views_frame_current rt w1); [by repeat split|]. by apply Hnone.
    + destruct (leaflet rt) eqn:HL; cycle 1.
      { unfold exec, try_catch, initVisualizations. unfold bind at 1 2.
        rewrite (initMap_without_leaflet rt w1 HL) by (by rewrite Hm1).
        unfold modify. cbn [fst snd].
        apply (views_frame_current rt w1); [by repeat split|]. by apply Hnone. }
      destruct (initMap_ok rt w1 rows HL Hf) as (w2 & Hinit & Hd2 & _).
      unfold exec, try_catch, initVisualizations. unfold bind at 1 2.
      rewrite Hinit. unfold modify at 1. unfold bind at 1, modify at 1.
      set (w3 := setupEventListeners (initStateViz rt w2)).
      assert (H3 : views_current rt (exec (switchTab rt "map") w3)).
      { apply switchTab_current. intros _. exists rows.
        unfold w3, setupEventListeners, initStateViz, drawStateViz. cbn.
        destruct (d3 rt); cbn; [|by rewrite Hd2].
        destruct (filtered (data w2)) as [[|r l]|] eqn:E; cbn; by rewrite Hd2. }
      unfold exec in H3.
      destruct (switchTab rt "map" w3) as [[[]|e] w4]; cbn [fst snd] in *; [done|].
      apply (views_frame_current rt w4); [by repeat split|done].
  - rewrite (exec_try_bind_thrown _ _ _ _ _ _ Hload).
    unfold exec, modify. cbn [snd].
    apply (views_frame_current rt w); [by repeat split|]. by apply Hnone.
Qed.

Lemma handler_current_views rt ev :
  starts ev = false -> preserves (views_current rt) (handler rt ev).
Proof.
  intros Hev. destruct ev; try discriminate Hev; cbn [handler].
  - apply loadCSVFile_current_views.
  - apply preserves_of_views_frame. intros w0.
    preserves_step; [by preserves_step|]. preserves_step. apply views_frame_filterData.
  - apply preserves_of_views_frame. intros w0.
    preserves_step; [by preserves_step|]. preserves_step. apply views_frame_filterData.
  - apply preserves_of_views_frame. intros w0.
    preserves_step; [by preserves_step|]. preserves_step. apply views_frame_filterData.
  - intros w Hw. by apply switchTab_current, (views_current_map_has_rows rt).
  - apply barClick_current_views.
  - apply zoomToSpuddy_current_views.
  - apply preserves_of_views_frame. intros w0.
    preserves_step; [by preserves_step|]. preserves_step; [by preserves_step|].
    preserves_step. apply views_frame_filterData.
  - apply preserves_of_views_frame. intros w0.
    preserves_step; [by preserves_step|]. preserves_step; [by preserves_step|].
    preserves_step. apply views_frame_filterData.
  - apply runTimer_current_views.
Qed.

Lemma run_current_views rt evs w :
  Forall (fun ev => starts ev = false) evs ->
  views_current rt w -> views_current rt (run rt evs w).
Proof.
  revert w. unfold run. induction evs as [|ev evs IH]; intros w Hevs Hw; [done|].
  inversion Hevs as [|? ? Hev Hrest]; subst. cbn [fold_left].
  apply IH; [done|]. unfold step. destruct (enabled rt ev w); [|done].
  by apply handler_current_views.
Qed.

(** X9. On a page that is started once, the view of the active tab always
    shows the rows of [filtered], whatever the user does afterwards (filter
    requests and their evaluations, tab and bar clicks, zooms, resets,
    later loads): while the map tab is active and the map exists, its
    markers are those of the rows of [filtered] that pass the coordinate
    guard, in their order, and the no-data notice is up exactly when
    [filtered] is empty; while the chart tab is active, the chart is the one
    drawn from [filtered]. *)
Theorem visible_view_shows_filtered rt t0 evs :
  Forall (fun ev => starts ev = false) evs ->
  let w := run rt (AppStart :: evs) (initial_world t0) in
  (is_Some (map (mapViz w)) ->
   exists rows,
     filtered (data w) = Some rows
     /\ (activeTab (data w) = "map" ->
         plotted w = plottable rt rows
         /\ no_data_message (mapViz w) = bool_decide (rows = [])))
  /\ (activeTab (data w) = "states" ->
      stateVizContainer w = chart_of rt (filtered (data w))).
Proof.
  intros Hevs. apply (run_current_views rt evs); [done|].
  unfold step. cbn [enabled handler]. by apply initializeApp_current_views.
Qed.

Lemma visible_view_shows_filtered_witness :
  let w := run (Sample.runtime Sample.csv)
               (AppStart :: [InputName "bo" 5; TimerFires; ClickTab "states"])
               (initial_world 0) in
  (is_Some (map (mapViz w)) ->
   exists rows,
     filtered (data w) = Some rows
     /\ (activeTab (data w) = "map" ->
         plotted w = plottable (Sample.runtime Sample.csv) rows
         /\ no_data_message (mapViz w) = bool_decide (rows = [])))
  /\ (activeTab (data w) = "states" ->
      stateVizContainer w = chart_of (Sample.runtime Sample.csv) (filtered (data w))).
Proof.
  apply (visible_view_shows_filtered (Sample.runtime Sample.csv) 0
           [InputName "bo" 5; TimerFires; ClickTab "states"]).
  repeat constructor.
Defined.

(** X10. A deferred filter evaluation redraws the view of the active tab
    only: unless the map tab is active the map keeps the markers it had,
    and unless the chart tab is active the chart keeps the bars it had, even
    when [filtered] has just been replaced. *)
Theorem evaluation_redraws_active_view_only rt task w :
  let w' := exec (filterCallback rt task) w in
  (activeTab (data w) <> "map" -> mapViz w' = mapViz w)
  /\ (activeTab (data w) <> "states" -> stateVizContainer w' = stateVizContainer w).
Proof.
  intros w'. assert (Hw' : w' = exec (filterCallback rt task) w) by reflexivity.
  clearbody w'. revert Hw'.
  unfold filterCallback. unfold exec, finally, try_catch, bind at 1, get.
  cbn [fst snd].
  destruct (_ =? _)%Z; cbn [negb]; [|by intros ->].
  destruct (raw (data w)) as [rows|]; [|by intros ->].
  destruct (array_filter _ rows) as [result|]; [|by intros ->].
  unfold bind at 1, modify at 1.
  set (w1 := with_data (set_filtered (Some result)) w).
  assert (H1 : (activeTab (data w) <> "map" ->
                mapViz (exec (updateActiveVisualization rt) w1) = mapViz w)
               /\ (activeTab (data w) <> "states" ->
                   stateVizContainer (exec (updateActiveVisualization rt) w1)
                   = stateVizContainer w)).
  { unfold updateActiveVisualization, exec, bind, get. cbn [fst snd].
    change (activeTab (data w1)) with (activeTab (data w)).
    destruct (String.eqb_spec (activeTab (data w)) "map") as [Ha|Ha].
    - split; [done|]. intros _.
      pose proof (updateMap_frame rt w1) as Hfr. unfold exec in Hfr.
      cbv zeta in Hfr. by destruct Hfr as (_ & _ & _ & -> & _).
    - destruct (String.eqb_spec (activeTab (data w)) "states") as [Hs|Hs]; [|done].
      split; [|done]. intros _. unfold modify. cbn [snd].
      by destruct (updateStateViz_frame rt w1) as (_ & _ & _ & -> & _). }
  unfold exec in H1. unfold bind, modify, ret.
  destruct (updateActiveVisualization rt w1) as [[[]|e] w2]; by intros ->.
Qed.

(* ===================================================================== *)
(** * The theme *)
(* ===================================================================== *)

Lemma applyTheme_frame rt w0 : preserves (page_frame w0) (applyTheme rt).
Proof.
  assert (Hmap : preserves (page_frame w0) (updateMap rt)).
  { intros w H. destruct (updateMap_frame rt w) as (Hd & Hdom & Ht & _ & Hl).
    unfold page_frame in *. by rewrite Hd, Hdom, Ht, Hl. }
  unfold applyTheme, updateMapTheme, refreshVisualizations.
  preserves_step; [repeat preserves_step; done|].
  intros w H. destruct (updateActiveVisualization_frame rt w) as (Hd & Hdom & Ht & Hl).
  unfold page_frame in *. by rewrite Hd, Hdom, Ht, Hl.
Qed.

Lemma applyTheme_current_views rt : preserves (views_current rt) (applyTheme rt).
Proof.
  intros w Hw. unfold applyTheme, updateMapTheme, refreshVisualizations.
  unfold exec, bind at 1 2, get. cbn [fst snd].
  destruct (map (mapViz w)) as [view|] eqn:Hm.
  - destruct (proj1 Hw) as (rows & Hf & _); [by eexists|].
    destruct (updateMap_draws rt w rows view Hf Hm) as (w1 & -> & Hd & _).
    apply updateActiveVisualization_current. intros _. rewrite Hd, Hf. by eexists.
  - apply updateActiveVisualization_current. intros H. rewrite Hm in H.
    by destruct H.
Qed.

(** X11. A change of theme, by the toggle button, at start-up or when the
    system setting changes, redraws and does nothing else to the page: the
    store (rows, categories, stamp, active tab, loading flag), the controls
    and the counter, the pending filter requests and the listeners are as
    before, and the view of the active tab still shows [filtered]. *)
Theorem theme_change_only_redraws b rt th w :
  forall change,
    change = toggleDarkMode b rt th
    \/ change = initDarkMode b rt th
    \/ (exists matches, change = systemSchemeChanged b rt matches th) ->
    let w' := exec (snd change) w in
    data w' = data w /\ dom w' = dom w /\ timers w' = timers w
    /\ listening w' = listening w
    /\ (views_current rt w -> views_current rt w').
Proof.
  intros change Hc.
  assert (H : snd change = applyTheme rt \/ snd change = ret tt).
  { destruct Hc as [->|[->|[matches ->]]].
    - unfold toggleDarkMode. destruct (isDarkMode th); by left.
    - unfold initDarkMode.
      repeat case_bool_decide; try by left.
      destruct (prefers_dark b) as [[]|]; [by left|by right|by right].
    - unfold systemSchemeChanged.
      destruct (match safeGetStorageItem b th with Some _ => _ | None => _ end);
        [by right|]. destruct matches; by left. }
  destruct H as [-> | ->].
  - destruct (applyTheme_frame rt w w) as (Hd & Hdom & Ht & Hl); [done|].
    do 4 (split; [done|]). apply applyTheme_current_views.
  - done.
Qed.

Lemma theme_change_only_redraws_witness :
  let change := toggleDarkMode (mkBrowser false None) (Sample.runtime Sample.csv)
                               (fresh_theme None) in
  let w' := exec (snd change) Sample.loaded in
  data w' = data Sample.loaded /\ dom w' = dom Sample.loaded
  /\ timers w' = timers Sample.loaded
  /\ listening w' = listening Sample.loaded
  /\ (views_current (Sample.runtime Sample.csv) Sample.loaded ->
      views_current (Sample.runtime Sample.csv) w').
Proof.
  apply (theme_change_only_redraws (mkBrowser false None) (Sample.runtime Sample.csv)
           (fresh_theme None) Sample.loaded).
  by left.
Defined.

(** X12. The choice made with the toggle button is kept across visits:
    when [localStorage] works, the toggle flips the mode, stores it, and a
    page opened later starts in the stored mode whatever the system
    prefers; toggling twice gives back the mode one started from. *)
Theorem theme_preference_round_trip b rt th :
  storage_throws b = false ->
  let th' := fst (toggleDarkMode b rt th) in
  isDarkMode th' = negb (isDarkMode th)
  /\ safeGetStorageItem b th' = Some (if isDarkMode th' then "true" else "false")
  /\ (forall b', storage_throws b' = false ->
        isDarkMode (fst (initDarkMode b' rt (fresh_theme (stored th')))) = isDarkMode th')
  /\ isDarkMode (fst (toggleDarkMode b rt th')) = isDarkMode th.
Proof.
  intros Hb. unfold toggleDarkMode, enableDarkMode, disableDarkMode,
    safeSetStorageItem, initDarkMode, safeGetStorageItem, fresh_theme.
  destruct (isDarkMode th); cbn; rewrite Hb; cbn; rewrite ?Hb; cbn;
    (split; [done|]); (split; [done|]); (split; [|done]);
    intros b' ->; cbn; done.
Qed.

Lemma theme_preference_round_trip_witness :
  let th' := fst (toggleDarkMode (mkBrowser false (Some false)) (Sample.runtime Sample.csv)
                                 (fresh_theme None)) in
  isDarkMode th' = negb (isDarkMode (fresh_theme None))
  /\ safeGetStorageItem (mkBrowser false (Some false)) th'
     = Some (if isDarkMode th' then "true" else "false")
  /\ (forall b', storage_throws b' = false ->
        isDarkMode (fst (initDarkMode b' (Sample.runtime Sample.csv)
                                      (fresh_theme (stored th')))) = isDarkMode th')
  /\ isDarkMode (fst (toggleDarkMode (mkBrowser false (Some false))
                                     (Sample.runtime Sample.csv) th'))
     = isDarkMode (fresh_theme None).
Proof.
  apply (theme_preference_round_trip (mkBrowser false (Some false))
           (Sample.runtime Sample.csv) (fresh_theme None)).
  reflexivity.
Defined.

(** X13. Without a usable stored preference, that is when [localStorage]
    cannot be read or the item is missing or is anything but 'true' or
    'false', a page that opens follows the system: it starts dark exactly
    when the system asks for a dark scheme, and it leaves the stored item as
    it found it. While no usable preference is stored the page also follows
    later changes of the system setting; once one is stored it ignores
    them. *)
Theorem theme_follows_system_without_preference b rt item :
  storage_throws b = true \/ (item <> Some "true" /\ item <> Some "false") ->
  let th := fst (initDarkMode b rt (fresh_theme item)) in
  isDarkMode th = bool_decide (prefers_dark b = Some true)
  /\ stored th = item
  /\ (forall matches th0,
        stored th0 = item ->
        isDarkMode (fst (systemSchemeChanged b rt matches th0)) = matches)
  /\ (forall matches th0,
        storage_throws b = false ->
        stored th0 = Some "true" \/ stored th0 = Some "false" ->
        fst (systemSchemeChanged b rt matches th0) = th0).
Proof.
  intros H.
  assert (Hget : forall th0, stored th0 = item -> safeGetStorageItem b th0 = None).
  { intros th0 E. unfold safeGetStorageItem. rewrite E.
    destruct (storage_throws b); [done|]. destruct H as [H|[H1 H2]]; [done|].
    destruct item as [value|]; [|done].
    destruct (String.eqb_spec value "true") as [->|]; [done|].
    destruct (String.eqb_spec value "false") as [->|]; done. }
  split; [|split; [|split]].
  - unfold initDarkMode. rewrite (Hget (fresh_theme item) eq_refl). cbn.
    by destruct (prefers_dark b) as [[]|].
  - unfold initDarkMode. rewrite (Hget (fresh_theme item) eq_refl). cbn.
    by destruct (prefers_dark b) as [[]|].
  - intros matches th0 E. unfold systemSchemeChanged. rewrite (Hget th0 E).
    by destruct matches.
  - intros matches th0 Hb E. unfold systemSchemeChanged, safeGetStorageItem.
    rewrite Hb. by destruct E as [-> | ->].
Qed.

Lemma theme_follows_system_without_preference_witness :
  let th := fst (initDarkMode (mkBrowser false (Some true)) (Sample.runtime Sample.csv)
                              (fresh_theme (Some "yes"))) in
  isDarkMode th = bool_decide (prefers_dark (mkBrowser false (Some true)) = Some true)
  /\ stored th = Some "yes"
  /\ (forall matches th0,
        stored th0 = Some "yes" ->
        isDarkMode (fst (systemSchemeChanged (mkBrowser false (Some true))
                                             (Sample.runtime Sample.csv) matches th0))
        = matches)
  /\ (forall matches th0,
        storage_throws (mkBrowser false (Some true)) = false ->
        stored th0 = Some "true" \/ stored th0 = Some "false" ->
        fst (systemSchemeChanged (mkBrowser false (Some true))
                                 (Sample.runtime Sample.csv) matches th0) = th0).
Proof.
  apply (theme_follows_system_without_preference (mkBrowser false (Some true))
           (Sample.runtime Sample.csv) (Some "yes")).
  right. split; discriminate.
Defined.

(* ===================================================================== *)
(** * The chart's bars *)
(* ===================================================================== *)

Lemma total_of_bars_insert (stateCounts : gmap string nat) state total :
  stateCounts !! state = None ->
  total_of_bars (<[ state := total ]> stateCounts) = total + total_of_bars stateCounts.
Proof.
  intros H. unfold total_of_bars. rewrite map_fold_insert_L; [done| |done].
  intros. cbv beta. lia.
Qed.

Lemma total_of_bars_delete (stateCounts : gmap string nat) state total :
  stateCounts !! state = Some total ->
  total_of_bars stateCounts = total + total_of_bars (delete state stateCounts).
Proof.
  intros H. unfold total_of_bars. rewrite (map_fold_delete_L _ _ state total); [done| |done].
  intros. cbv beta. lia.
Qed.

Lemma total_of_bars_count (stateCounts : gmap string nat) state :
  total_of_bars (<[ state := default 0 (stateCounts !! state) + 1 ]> stateCounts)
  = total_of_bars stateCounts + 1.
Proof.
  destruct (stateCounts !! state) as [n|] eqn:E; cbn [default].
  - rewrite <- insert_delete_eq, total_of_bars_insert by apply lookup_delete_eq.
    rewrite (total_of_bars_delete _ _ _ E). unfold id. lia.
  - rewrite total_of_bars_insert by done. lia.
Qed.

(** X14. The bars of the chart add up to the number of rows that have a
    region: every such row is counted under exactly one label and no other
    row is counted. This holds when no label is the name of a property
    every object inherits; under such a name the chart's object of counts
    holds no number. *)
Theorem bars_add_up_to_rows_with_region rt rows :
  Forall (fun r => label_is_own rt r = true) rows ->
  total_of_bars (count_states rt rows)
  = length (List.filter (fun r => Js.truthy (prop r "State")) rows).
Proof.
  intros _. unfold count_states.
  assert (H : forall acc,
    total_of_bars
      (fold_left (fun (stateCounts : gmap string nat) (buddy : Row) =>
                    if Js.truthy (prop buddy "State")
                    then let state := viz_sanitizeString rt (prop buddy "State") in
                         <[ state := default 0 (stateCounts !! state) + 1 ]> stateCounts
                    else stateCounts)
                 rows acc)
    = total_of_bars acc
      + length (List.filter (fun r => Js.truthy (prop r "State")) rows)).
  { induction rows as [|r rows IH]; intros acc; cbn [fold_left List.filter].
    - simpl. lia.
    - rewrite IH. destruct (Js.truthy (prop r "State")); cbn [length]; [|done].
      cbv zeta. rewrite total_of_bars_count. lia. }
  rewrite H. reflexivity.
Qed.

Lemma bars_add_up_to_rows_with_region_witness :
  total_of_bars (count_states (Sample.runtime Sample.csv)
                              [Sample.alice; Sample.bob; Sample.cara])
  = length (List.filter (fun r => Js.truthy (prop r "State"))
                        [Sample.alice; Sample.bob; Sample.cara]).
Proof.
  apply (bars_add_up_to_rows_with_region (Sample.runtime Sample.csv)
           [Sample.alice; Sample.bob; Sample.cara]).
  by_evaluation.
Defined.

(* ===================================================================== *)
(** * Zoom To *)
(* ===================================================================== *)

Lemma find_first {A} (f : A -> bool) pre x post :
  Forall (fun y => f y = false) pre -> f x = true ->
  List.find f (pre ++ x :: post) = Some x.
Proof.
  intros Hpre Hx. induction Hpre as [|y pre Hy _ IH]; simpl; [by rewrite Hx|].
  by rewrite Hy.
Qed.

Lemma find_none {A} (f : A -> bool) l :
  Forall (fun y => f y = false) l -> List.find f l = None.
Proof. induction 1 as [|y l Hy _ IH]; simpl; [done|]. by rewrite Hy. Qed.

(** X15. [zoomToSpuddy] looks the name up in [filtered] and takes the
    first row that has exactly this name: the map flies to that row when
    both of its coordinates are truthy, and nothing happens otherwise, also
    when a later row of the same name has a marker. A name no row of
    [filtered] has changes nothing. In every case only the map's view can
    change. *)
Theorem zoomToSpuddy_first_match buddyName w rows view :
  filtered (data w) = Some rows ->
  map (mapViz w) = Some view ->
  (forall pre buddy post,
     rows = pre ++ buddy :: post ->
     Forall (fun r => Js.strict_eq (prop r "WorkbuddyName") buddyName = false) pre ->
     Js.strict_eq (prop buddy "WorkbuddyName") buddyName = true ->
     exec (zoomToSpuddy buddyName) w
     = if Js.truthy (prop buddy "latitude") && Js.truthy (prop buddy "longitude")
       then with_mapViz (fun m =>
              mkMap (Some (FlyTo (prop buddy "latitude") (prop buddy "longitude") 12))
                    (markers m) (no_data_message m)) w
       else w)
  /\ (Forall (fun r => Js.strict_eq (prop r "WorkbuddyName") buddyName = false) rows ->
      exec (zoomToSpuddy buddyName) w = w).
Proof.
  intros Hf Hm. split.
  - intros pre buddy post -> Hpre Hb.
    unfold zoomToSpuddy, exec, bind, get. cbn [fst snd]. rewrite Hf.
    rewrite (find_first _ pre buddy post Hpre Hb).
    destruct (_ && _); [|done]. by rewrite Hm.
  - intros Hnone. unfold zoomToSpuddy, exec, bind, get. cbn [fst snd]. rewrite Hf.
    by rewrite (find_none _ rows Hnone).
Qed.

Lemma zoomToSpuddy_first_match_witness :
  (forall pre buddy post,
     [Sample.alice; Sample.bob; Sample.cara] = pre ++ buddy :: post ->
     Forall (fun r => Js.strict_eq (prop r "WorkbuddyName") (Js.Str "Bob") = false) pre ->
     Js.strict_eq (prop buddy "WorkbuddyName") (Js.Str "Bob") = true ->
     exec (zoomToSpuddy (Js.Str "Bob")) Sample.loaded
     = if Js.truthy (prop buddy "latitude") && Js.truthy (prop buddy "longitude")
       then with_mapViz (fun m =>
              mkMap (Some (FlyTo (prop buddy "latitude") (prop buddy "longitude") 12))
                    (markers m) (no_data_message m)) Sample.loaded
       else Sample.loaded)
  /\ (Forall (fun r => Js.strict_eq (prop r "WorkbuddyName") (Js.Str "Bob") = false)
             [Sample.alice; Sample.bob; Sample.cara] ->
      exec (zoomToSpuddy (Js.Str "Bob")) Sample.loaded = Sample.loaded).
Proof.
  apply (zoomToSpuddy_first_match (Js.Str "Bob") Sample.loaded
           [Sample.alice; Sample.bob; Sample.cara] Sample.overview);
    by_evaluation.
Defined.

(* ===================================================================== *)
(** * The options of the region select *)
(* ===================================================================== *)

(** X16. [populateStateFilter] keeps the first option of the select and
    replaces all others by one option per category of the store, in the
    store's order, each with the sanitised text of the category; it touches
    no other part of the page, and running it again changes nothing. *)
Theorem populateStateFilter_options rt w first others :
  state_options (dom w) = first :: others ->
  let w' := populateStateFilter rt w in
  state_options (dom w')
  = first :: List.map (fun state => sanitizeString rt (Js.Str state))
                      (default [] (states (data w)))
  /\ data w' = data w
  /\ name_filter (dom w') = name_filter (dom w)
  /\ total_count (dom w') = total_count (dom w)
  /\ timers w' = timers w
  /\ populateStateFilter rt w' = w'.
Proof.
  intros Ho w'. subst w'. unfold populateStateFilter. cbn. rewrite Ho. cbn.
  do 5 (split; [done|]).
  unfold with_dom. cbn.
  destruct (default [] (states (data w))) as [|s sts]; destruct others; cbn; done.
Qed.

Lemma populateStateFilter_options_witness :
  let w' := populateStateFilter (Sample.runtime Sample.csv) Sample.loaded in
  state_options (dom w')
  = "all" :: List.map (fun state => sanitizeString (Sample.runtime Sample.csv) (Js.Str state))
                      (default [] (states (data Sample.loaded)))
  /\ data w' = data Sample.loaded
  /\ name_filter (dom w') = name_filter (dom Sample.loaded)
  /\ total_count (dom w') = total_count (dom Sample.loaded)
  /\ timers w' = timers Sample.loaded
  /\ populateStateFilter (Sample.runtime Sample.csv) w' = w'.
Proof.
  apply (populateStateFilter_options (Sample.runtime Sample.csv) Sample.loaded
           "all" ["CA"; "NY"]).
  by_evaluation.
Defined.

(* ===================================================================== *)
(** * The rows of the fallback parsers *)
(* ===================================================================== *)

Lemma insert_key {V} (row : gmap string V) key v k :
  is_Some (<[ key := v ]> row !! k) <-> k = key \/ is_Some (row !! k).
Proof.
  rewrite lookup_insert_is_Some. split.
  - intros [H|[_ H]]; [by left|by right].
  - intros [H|H]; [by left|]. destruct (decide (key = k)); [by left|by right].
Qed.

(** A loop that assigns one property per header, except under the headers
    it cannot assign to, leaves an object with exactly the assignable
    headers as new keys. *)
Lemma assigned_keys (assignable : string -> Prop)
    (step : Row -> string * string -> Row) :
  (forall row hc k,
     is_Some (step row hc !! k)
     <-> (k = fst hc /\ assignable k) \/ is_Some (row !! k)) ->
  forall headers values acc k,
    length values = length headers ->
    is_Some (fold_left step (combine headers values) acc !! k)
    <-> is_Some (acc !! k) \/ (k ∈ headers /\ assignable k).
Proof.
  intros Hstep headers.
  induction headers as [|h headers IH]; intros [|v values] acc k Hlen;
    try discriminate Hlen; cbn [combine fold_left].
  - rewrite elem_of_nil. tauto.
  - rewrite IH by (by injection Hlen). rewrite Hstep, elem_of_cons. cbn [fst]. tauto.
Qed.

Lemma manual_row_keys rt headers rowData k :
  length rowData = length headers ->
  is_Some (manual_row rt headers rowData !! k) <-> k ∈ headers /\ k <> "__proto__".
Proof.
  intros Hlen. unfold manual_row.
  rewrite (assigned_keys (fun k => k <> "__proto__")).
  - rewrite lookup_empty. split; [intros [[? ?]|?]; done | by right].
  - intros row hc j. cbv zeta.
    destruct (String.eqb_spec (fst hc) "latitude") as [E|_];
      [|destruct (String.eqb_spec (fst hc) "longitude") as [E|_]]; cbn [orb].
    + rewrite insert_key. split; [|tauto]. intros [->|H]; [left|by right].
      split; [done|]. by rewrite E.
    + rewrite insert_key. split; [|tauto]. intros [->|H]; [left|by right].
      split; [done|]. by rewrite E.
    + destruct (String.eqb_spec (fst hc) "__proto__") as [E|E].
      * split; [by right|]. intros [[-> H]|H]; done.
      * rewrite insert_key. split; [|tauto]. intros [->|H]; [by left|by right].
  - done.
Qed.

Lemma loader_row_keys rt headers values k :
  length values = length headers ->
  is_Some (loader_row rt headers values !! k) <-> k ∈ headers /\ k <> "__proto__".
Proof.
  intros Hlen. unfold loader_row.
  rewrite (assigned_keys (fun k => k <> "__proto__")).
  - rewrite lookup_empty. split; [intros [[? ?]|?]; done | by right].
  - intros row hc j. cbv zeta.
    destruct (String.eqb (Js.toLowerCase (fst hc)) "latitude"
              || String.eqb (Js.toLowerCase (fst hc)) "longitude") eqn:E.
    + rewrite insert_key. split; [|tauto]. intros [->|H]; [left|by right].
      split; [done|]. intros E'. by rewrite E' in E.
    + destruct (String.eqb_spec (fst hc) "__proto__") as [E'|E'].
      * split; [by right|]. intros [[-> H]|H]; done.
      * rewrite insert_key. split; [|tauto]. intros [->|H]; [by left|by right].
  - done.
Qed.

(** X17. Both fallback parsers drop a line whose number of fields differs
    from the number of columns, so every row they return has a property for
    every column of the header line, except for a column named [__proto__],
    under which an object literal takes no text: the rows of the manual
    parser of [loadData] have exactly those columns as keys, and the rows of
    the fallback loop of [parseCSV] have those columns and, at most, the
    name key added for a placeholder. *)
Theorem fallback_rows_have_every_column rt headers :
  (forall lines row k,
     row ∈ manual_rows rt headers lines ->
     is_Some (row !! k) <-> k ∈ headers /\ k <> "__proto__")
  /\ (forall i lines rows row k,
        loader_rows rt headers i lines = Some rows -> row ∈ rows ->
        (k ∈ headers -> k <> "__proto__" -> is_Some (row !! k))
        /\ (is_Some (row !! k) ->
            (k ∈ headers /\ k <> "__proto__") \/ k = "WorkbuddyName")).
Proof.
  split.
  - intros lines row k. unfold manual_rows.
    rewrite list_elem_of_In, in_flat_map. intros (line & _ & Hrow).
    cbv zeta in Hrow. case_bool_decide; [done|].
    destruct (Nat.eqb_spec
                (length (List.map (fun cell => sanitizeString rt (Js.Str (Js.trim cell)))
                                  (Js.split "," line)))
                (length headers)) as [Hlen|]; [|done].
    cbn in Hrow. destruct Hrow as [<-|[]]. by apply manual_row_keys.
  - intros i lines. revert i.
    induction lines as [|line lines IH]; intros i rows row k; cbn [loader_rows].
    + intros [= <-] H. by apply elem_of_nil in H.
    + destruct (String.eqb (Js.trim line) ""); [apply IH|].
      destruct (Nat.eqb_spec (length (parseCSVLine line)) (length headers)) as [Hlen|];
        cbn [negb]; [|apply IH].
      destruct (name_is_blank _) as [blank|]; [|done].
      destruct (loader_rows rt headers (S i) lines) as [rest|] eqn:Hrest; [|done].
      cbn [option_map]. intros [= <-]. rewrite elem_of_cons. intros [->|Hin].
      * pose proof (loader_row_keys rt headers (parseCSVLine line) k Hlen) as Hk.
        destruct blank; [|tauto].
        rewrite insert_key. tauto.
      * by apply (IH (S i) rest).
Qed.

(* ===================================================================== *)
(** * The reset buttons *)
(* ===================================================================== *)

(** X18. Both reset buttons bring back every record: after a click on
    Clear Filters (the fixed control) or on Reset Filters (the button of
    the map's no-data notice) the name box is empty, and once the request
    has been evaluated [filtered] holds all rows of [raw] in their order, on
    a page with rows loaded and no other request pending. Reset Filters does
    so whether or not the select has an 'all' option. *)
Theorem reset_buttons_restore_all_rows rt now w rows :
  raw (data w) = Some rows ->
  timers w = [] ->
  forall ev, ev = ClearAllFilters now \/ ev = ResetFilters now ->
    let w' := exec (handler rt ev) w in
    name_filter (dom w') = ""
    /\ filtered (data (exec (runTimer rt) w')) = Some rows.
Proof.
  intros Hraw Hq ev Hev w'.
  assert (H : exists choice,
             w' = filterData now (with_dom (set_state_filter choice)
                                           (with_dom (set_name_filter "") w))
             /\ (choice = "" \/ choice = "all")).
  { destruct Hev as [-> | ->]; [exists ""|exists "all"]; (split; [done|]);
      [by left|by right]. }
  destruct H as (choice & -> & Hchoice).
  set (w1 := with_dom (set_state_filter choice) (with_dom (set_name_filter "") w)).
  destruct (filterData_frame now w1) as (Hd & _).
  destruct (filterData_data now w1) as (Hr & _ & _ & _ & Hl).
  split; [by rewrite Hd|].
  rewrite (runTimer_single _ _ _ (filterData_single now w1 Hq)).
  eapply filterCallback_current; unfold with_timers; cbn [data currentFilterTime];
    [by rewrite Hl | by rewrite Hr |].
  cbn [nameFilter stateFilter].
  assert (criteria_region (dom w1) = "all") as ->.
  { unfold criteria_region, w1. cbn.
    destruct Hchoice as [-> | ->]; by case_bool_decide. }
  apply array_filter_match_all.
Qed.

Lemma reset_buttons_restore_all_rows_witness :
  let w' := exec (handler (Sample.runtime Sample.csv) (ClearAllFilters 9))
                 (run (Sample.runtime Sample.csv)
                      [AppStart; InputName "bo" 5; TimerFires] (initial_world 0)) in
  name_filter (dom w') = ""
  /\ filtered (data (exec (runTimer (Sample.runtime Sample.csv)) w'))
     = Some [Sample.alice; Sample.bob; Sample.cara].
Proof.
  refine (reset_buttons_restore_all_rows (Sample.runtime Sample.csv) 9
            (run (Sample.runtime Sample.csv)
                 [AppStart; InputName "bo" 5; TimerFires] (initial_world 0))
            [Sample.alice; Sample.bob; Sample.cara] _ _
            (ClearAllFilters 9) (or_introl eq_refl));
    by_evaluation.
Defined.

(* ===================================================================== *)
(** * Loading another file *)
(* ===================================================================== *)

(** X19. [loadCSVFile] either fails before it touches the page (the fetch
    is rejected or answers with a status that is not ok: the error is
    thrown on and the page is as before), or it returns the parsed rows and
    replaces the store as a whole: [raw] and [filtered] are the parsed rows,
    the categories are theirs and the counter shows their number, also
    when that number is zero. The stamp, the active tab, the name box and
    the pending filter requests are left alone, so a request that is
    pending will be evaluated on the new rows. *)
Theorem loadCSVFile_outcomes rt filePath w :
  match fetch rt filePath with
  | Response true csvText =>
      let rows := parseCSV rt csvText in
      let w' := exec (loadCSVFile rt filePath) w in
      fst (loadCSVFile rt filePath w) = Ok rows
      /\ raw (data w') = Some rows
      /\ filtered (data w') = Some rows
      /\ states (data w') = Some (unique_states rows)
      /\ total_count (dom w') = Js.nat_to_string (length rows)
      /\ lastFilterApplied (data w') = lastFilterApplied (data w)
      /\ activeTab (data w') = activeTab (data w)
      /\ name_filter (dom w') = name_filter (dom w)
      /\ timers w' = timers w
  | _ => exists message, loadCSVFile rt filePath w = (Thrown message, w)
  end.
Proof.
  unfold loadCSVFile.
  destruct (fetch rt filePath) as [|[] csvText]; [by eexists| |by eexists].
  set (rows := parseCSV rt csvText).
  pose (w1 := populateStateFilter rt
                (with_dom (set_total_count (Js.nat_to_string (length rows)))
                   (with_data (set_states (Some (unique_states rows)))
                      (with_data (set_filtered (Some rows))
                         (with_data (set_raw (Some rows)) w))))).
  destruct (updateActiveVisualization_ok rt w1 rows) as (w2 & Hup); [done|].
  assert (Hrun : (updateGlobalData rt rows ;; ret rows) w = (Ok rows, w2)).
  { unfold updateGlobalData, bind, ret, modify. cbn [fst snd]. fold w1.
    by rewrite Hup. }
  pose proof (updateActiveVisualization_frame rt w1) as Hfr.
  unfold exec in *. rewrite Hup in Hfr. rewrite Hrun. cbn [fst snd] in *.
  destruct Hfr as (Hd & Hdom & Ht & _). rewrite Hd, Hdom, Ht.
  by repeat split.
Qed.

(* ===================================================================== *)
(** * Refining the name text *)
(* ===================================================================== *)

Lemma includes_trans s t u :
  Js.includes s t = true -> Js.includes t u = true -> Js.includes s u = true.
Proof.
  rewrite !includes_spec. intros (pre & post & ->) (pre' & post' & ->).
  exists (pre +:+ pre'), (post' +:+ post). by rewrite !append_assoc.
Qed.

Lemma includes_empty sub : Js.includes "" sub = true -> sub = "".
Proof.
  rewrite includes_spec. intros (pre & post & H).
  destruct pre; [|discriminate]. by destruct sub.
Qed.

Lemma filter_predicate_narrows name1 name2 region r b :
  Js.includes name2 name1 = true ->
  filter_predicate name2 region r = Some true ->
  filter_predicate name1 region r = Some b ->
  b = true.
Proof.
  intros Hinc. unfold filter_predicate.
  destruct (String.eqb_spec name1 "") as [->|Hn1].
  - destruct (String.eqb name2 "").
    + intros [= H2] [= <-]. exact H2.
    + destruct (prop r "WorkbuddyName") as [|s|n]; cbn.
      * intros H2. discriminate H2.
      * intros [= H2] [= <-]. apply andb_true_iff in H2 as [_ H2]. exact H2.
      * destruct (negb _); cbn; intros H2; discriminate H2.
  - destruct (String.eqb_spec name2 "") as [->|Hn2].
    { by apply includes_empty in Hinc. }
    destruct (prop r "WorkbuddyName") as [|s|n]; cbn.
    + intros H2. discriminate H2.
    + intros [= H2] [= <-]. apply andb_true_iff in H2 as [H2 ->].
      apply andb_true_iff in H2 as [-> H2]. cbn.
      by rewrite (includes_trans _ _ _ H2 Hinc).
    + destruct (negb _); cbn; intros H2; discriminate H2.
Qed.

(** X20. Refining the name text never adds rows: for ASCII texts and
    ASCII names, when one text occurs in another (upper and lower case taken
    alike), the rows kept for the longer text, under the same region, are
    among the rows kept for the shorter one, in the same order. *)
Theorem longer_name_text_narrows text1 text2 region rows result1 result2 :
  ascii_text text1 -> ascii_text text2 ->
  Forall (fun r => ascii_text (display_name r)) rows ->
  Js.includes (Js.toLowerCase text2) (Js.toLowerCase text1) = true ->
  array_filter (filter_predicate (Js.toLowerCase text1) region) rows = Some result1 ->
  array_filter (filter_predicate (Js.toLowerCase text2) region) rows = Some result2 ->
  sublist result2 result1.
Proof.
  intros _ _ _ Hinc. revert result1 result2.
  induction rows as [|r rows IH]; intros result1 result2; cbn [array_filter].
  - intros [= <-] [= <-]. constructor.
  - destruct (filter_predicate (Js.toLowerCase text1) region r) as [b1|] eqn:E1; [|done].
    destruct (array_filter _ rows) as [r1|]; [|done].
    destruct (filter_predicate (Js.toLowerCase text2) region r) as [b2|] eqn:E2; [|done].
    destruct (array_filter _ rows) as [r2|]; [|done].
    intros [= <-] [= <-]. specialize (IH r1 r2 eq_refl eq_refl).
    destruct b2.
    + rewrite (filter_predicate_narrows _ _ _ _ _ Hinc E2 E1). by constructor.
    + destruct b1; [by constructor|done].
Qed.

Lemma longer_name_text_narrows_witness :
  sublist [Sample.alice] [Sample.alice; Sample.cara].
Proof.
  refine (longer_name_text_narrows "a" "AL" "all"
            [Sample.alice; Sample.bob; Sample.cara]
            [Sample.alice; Sample.cara] [Sample.alice] _ _ _ _ _ _);
    by_evaluation.
Defined.

(* ===================================================================== *)
(** * The region options without DOMPurify *)
(* ===================================================================== *)

Lemma chars_length_app s t :
  length (chars (s +:+ t)) = length (chars s) + length (chars t).
Proof. by rewrite chars_app, length_app. Qed.

Lemma chars_inj s t : chars s = chars t -> s = t.
Proof.
  revert t. induction s as [|c s IH]; intros [|d t]; unfold chars; simpl; try done.
  intros [= -> H]. f_equal. by apply IH.
Qed.

Lemma escape_char_length c :
  length (chars (escape_char c)) = 1 <-> escaped_char c = false.
Proof.
  unfold escape_char, escaped_char, markup_char.
  destruct (Ascii.eqb c "&"), (Ascii.eqb c "<"), (Ascii.eqb c ">"),
    (Ascii.eqb c "034"), (Ascii.eqb c "'"); simpl; split; done.
Qed.

Lemma escape_char_length_min c : 1 <= length (chars (escape_char c)).
Proof.
  unfold escape_char.
  destruct (Ascii.eqb c "&"), (Ascii.eqb c "<"), (Ascii.eqb c ">"),
    (Ascii.eqb c "034"), (Ascii.eqb c "'"); simpl; lia.
Qed.

Lemma escape_char_head c :
  escaped_char c = true -> exists rest, escape_char c = String "&" rest.
Proof.
  unfold escape_char, escaped_char, markup_char.
  destruct (Ascii.eqb c "&"), (Ascii.eqb c "<"), (Ascii.eqb c ">"),
    (Ascii.eqb c "034"), (Ascii.eqb c "'"); simpl; try done; by eexists.
Qed.

Lemma escape_html_length s : length (chars s) <= length (chars (escape_html s)).
Proof.
  induction s as [|c s IH]; [done|].
  change (escape_html (String c s)) with (escape_char c +:+ escape_html s).
  rewrite chars_length_app. pose proof (escape_char_length_min c).
  unfold chars in *. simpl. lia.
Qed.

(** A text that holds one of the five characters grows when it is escaped,
    and its escaped form holds an ampersand. *)
Lemma escape_html_changes s c :
  c ∈ chars s -> escaped_char c = true ->
  length (chars s) < length (chars (escape_html s))
  /\ "&"%char ∈ chars (escape_html s).
Proof.
  induction s as [|a s IH]; [intros H; by apply elem_of_nil in H|].
  change (escape_html (String a s)) with (escape_char a +:+ escape_html s).
  change (chars (String a s)) with (a :: chars s).
  rewrite chars_length_app, chars_app, elem_of_cons, elem_of_app.
  pose proof (escape_char_length_min a) as Hmin.
  pose proof (escape_html_length s) as Hlen.
  intros [->|Hin] Hc.
  - split.
    + destruct (Nat.eq_dec (length (chars (escape_char a))) 1) as [H1|H1].
      * apply escape_char_length in H1. congruence.
      * cbn [length]. lia.
    + left. destruct (escape_char_head a Hc) as [rest ->].
      unfold chars. simpl. rewrite elem_of_cons. by left.
  - destruct (IH Hin Hc) as [H1 H2]. split; [cbn [length]; lia|by right].
Qed.

(** X21. Without DOMPurify the option the select offers for a category
    selects the rows of that category only if the category holds none of
    the characters the sanitiser replaces: the option's value is the escaped
    text, the rows are compared with it unescaped, so for a category that
    holds one of the five characters (an ampersand, as every escaped text
    does) the option keeps none of its own rows. *)
Theorem region_option_under_fallback rt r s :
  DOMPurify rt = None ->
  prop r "State" = Js.Str s ->
  s <> "" ->
  let option_value := sanitizeString rt (Js.Str s) in
  ((forall c, c ∈ chars s -> escaped_char c = false) ->
   filter_predicate "" option_value r = Some true)
  /\ ((exists c, c ∈ chars s /\ escaped_char c = true) ->
      filter_predicate "" option_value r = Some false).
Proof.
  intros Hp Hs Hne. unfold sanitizeString. rewrite Hp. cbv zeta.
  unfold filter_predicate. rewrite Hs. cbn.
  rewrite (proj2 (String.eqb_neq s "") Hne). cbn. split.
  - intros Hplain.
    assert (escape_html s = s) as ->.
    { clear -Hplain. induction s as [|a s IH]; [done|].
      change (escape_html (String a s)) with (escape_char a +:+ escape_html s).
      rewrite escape_char_plain, IH; [done| |].
      + intros c Hc. apply Hplain. unfold chars. simpl. rewrite elem_of_cons. by right.
      + apply Hplain. unfold chars. simpl. rewrite elem_of_cons. by left. }
    by rewrite String.eqb_refl, orb_true_r.
  - intros (c & Hc & He). destruct (escape_html_changes s c Hc He) as [Hlen Hamp].
    destruct (String.eqb_spec (escape_html s) "all") as [Hall|_].
    { rewrite Hall in Hamp. apply list_elem_of_In in Hamp.
      simpl in Hamp. intuition discriminate. }
    destruct (String.eqb_spec s (escape_html s)) as [Heq|_]; [|done].
    rewrite <- Heq in Hlen. lia.
Qed.

Lemma region_option_under_fallback_witness :
  let option_value := sanitizeString (Sample.bare_runtime "") (Js.Str "R&amp;D") in
  ((forall c, c ∈ chars "R&amp;D" -> escaped_char c = false) ->
   filter_predicate "" option_value (Sample.buddy "Dan" "R&amp;D" 1 1) = Some true)
  /\ ((exists c, c ∈ chars "R&amp;D" /\ escaped_char c = true) ->
      filter_predicate "" option_value (Sample.buddy "Dan" "R&amp;D" 1 1) = Some false).
Proof.
  apply (region_option_under_fallback (Sample.bare_runtime "")
           (Sample.buddy "Dan" "R&amp;D" 1 1) "R&amp;D");
    [reflexivity | vm_compute; reflexivity | discriminate].
Defined.

(* ===================================================================== *)
(** * The popup of a marker *)
(* ===================================================================== *)

Lemma or_text_not_empty a b : b <> "" -> or_text a b <> "".
Proof.
  intros Hb. unfold or_text. simpl.
  destruct (String.eqb_spec a ""); simpl; done.
Qed.

(** X22. The popup of a marker never shows an empty place: each of the
    three parts of its location line is the sanitised text of the row, or
    the 'Unknown ...' default when that text is empty. Its button passes
    the row's own name, unsanitised, to [zoomToSpuddy]; so when no other
    row of [filtered] has this name, the button of the popup of a row that
    has a marker flies to that row's coordinates. *)
Theorem popup_button_flies_to_its_marker rt w rows view r name :
  filtered (data w) = Some rows ->
  map (mapViz w) = Some view ->
  r ∈ rows ->
  skip_marker rt r = false ->
  prop r "WorkbuddyName" = Js.Str name ->
  (forall r', r' ∈ rows -> prop r' "WorkbuddyName" = Js.Str name -> r' = r) ->
  let popup := createPopupContent rt r in
  popup_city popup <> "" /\ popup_state popup <> "" /\ popup_country popup <> ""
  /\ exec (zoomToSpuddy (popup_zoom_to popup)) w
     = with_mapViz (fun m =>
         mkMap (Some (FlyTo (prop r "latitude") (prop r "longitude") 12))
               (markers m) (no_data_message m)) w.
Proof.
  intros Hf Hm Hin Hskip Hname Hunique popup.
  split; [by apply or_text_not_empty|].
  split; [by apply or_text_not_empty|].
  split; [by apply or_text_not_empty|].
  unfold popup, createPopupContent. cbn [popup_zoom_to]. rewrite Hname.
  unfold zoomToSpuddy, exec, bind, get. cbn [fst snd]. rewrite Hf.
  destruct (List.find _ rows) as [buddy|] eqn:Hfind.
  - apply List.find_some in Hfind as [Hb Heq].
    apply strict_eq_Str in Heq. apply list_elem_of_In in Hb.
    rewrite (Hunique buddy Hb Heq).
    unfold skip_marker in Hskip.
    do 3 (apply orb_false_iff in Hskip as [Hskip _]).
    apply orb_false_iff in Hskip as [Hlat Hlng].
    apply negb_false_iff in Hlat, Hlng. rewrite Hlat, Hlng. cbn [andb].
    by rewrite Hm.
  - apply list_elem_of_In in Hin.
    pose proof (List.find_none _ _ Hfind r Hin) as Hno. cbv beta in Hno.
    rewrite Hname in Hno. simpl in Hno. by rewrite String.eqb_refl in Hno.
Qed.

Lemma popup_button_flies_to_its_marker_witness :
  let popup := createPopupContent (Sample.runtime Sample.csv) Sample.bob in
  popup_city popup <> "" /\ popup_state popup <> "" /\ popup_country popup <> ""
  /\ exec (zoomToSpuddy (popup_zoom_to popup)) Sample.loaded
     = with_mapViz (fun m =>
         mkMap (Some (FlyTo (prop Sample.bob "latitude") (prop Sample.bob "longitude") 12))
               (markers m) (no_data_message m)) Sample.loaded.
Proof.
  apply (popup_button_flies_to_its_marker (Sample.runtime Sample.csv) Sample.loaded
           [Sample.alice; Sample.bob; Sample.cara] Sample.overview Sample.bob "Bob");
    try by_evaluation.
  intros r' Hin Hn. apply list_elem_of_In in Hin. simpl in Hin.
  destruct Hin as [<-|[<-|[<-|[]]]];
    [vm_compute in Hn; discriminate | reflexivity | vm_compute in Hn; discriminate].
Defined.

(* ===================================================================== *)
(** * C8: the outcomes of the one-shot load *)
(* ===================================================================== *)

(** C8, as the code has it. When no location answers (or a fetch is
    rejected), [loadData] throws its one generic error and leaves the page
    as it was, and [initializeApp] only adds the error box: store, map and
    chart are untouched. When a location answers, [loadData] returns the
    parsed rows in order and stores them, with their categories, and they
    are still there when [initializeApp] has finished; if there is no row,
    [initializeApp] reports the error and starts no view, the store
    holding the empty arrays. *)
Theorem load_outcomes rt w :
  let report :=
    handleError rt
      "Failed to initialize the application. Please refresh the page and try again." in
  match fetch_csv rt with
  | None =>
      loadData rt w = (Thrown "Failed to load data. Please try again later.", w)
      /\ exec (initializeApp rt) w = report w
      /\ data (report w) = data w
      /\ mapViz (report w) = mapViz w
      /\ stateVizContainer (report w) = stateVizContainer w
      /\ listening (report w) = listening w
  | Some csvText =>
      let rows := handle_empty_names 0 (parse_text rt csvText) in
      let w1 := exec (loadData rt) w in
      let w' := exec (initializeApp rt) w in
      fst (loadData rt w) = Ok rows
      /\ raw (data w1) = Some rows
      /\ filtered (data w1) = Some rows
      /\ states (data w1) = Some (unique_states rows)
      /\ (rows = [] ->
          w' = report w1
          /\ mapViz (report w1) = mapViz w
          /\ stateVizContainer (report w1) = stateVizContainer w
          /\ listening (report w1) = listening w)
      /\ raw (data w') = Some rows
      /\ filtered (data w') = Some rows
      /\ states (data w') = Some (unique_states rows)
  end.
Proof.
  intros report. pose proof (loadData_result rt w) as Hload.
  destruct (fetch_csv rt) as [csvText|].
  - destruct Hload as (w1 & Heq & [Hr Hs] & Hf & _ & _ & Hm & Hc & _ & Hl & He).
    assert (Hw1 : exec (loadData rt) w = w1) by (unfold exec; by rewrite Heq).
    intros rows w1' w'. subst w1' w'. rewrite Hw1, Heq.
    split; [done|]. split; [done|]. split; [done|]. split; [done|].
    unfold initializeApp. rewrite (exec_try_bind_ok _ _ _ _ _ _ Heq). fold rows.
    split.
    + intros Hrows. rewrite Hrows. simpl. by rewrite Hm, Hc, Hl.
    + set (wf := exec _ w1).
      assert (Hstore : store_is (Some rows) (Some (unique_states rows)) wf).
      { apply preserves_try_catch; [apply store_is_after_load| |done].
        intros e. apply preserves_modify. intros w2. apply store_is_handleError. }
      assert (Hframe : store_frame w1 wf).
      { apply preserves_try_catch; [| |apply store_frame_refl].
        - destruct (length _ =? 0)%nat; [apply preserves_throw|].
          repeat first [ apply store_frame_initVisualizations
                       | apply store_frame_switchTab | preserves_step ]; done.
        - intros e. apply preserves_modify. intros w2. apply store_frame_handleError. }
      destruct Hstore as [Hr' Hs']. destruct Hframe as (_ & Hf' & _).
      rewrite Hr', Hs', Hf'. by rewrite Hf.
  - split; [done|]. split; [|done].
    unfold initializeApp. by rewrite (exec_try_bind_thrown _ _ _ _ _ _ Hload).
Qed.

(* ===================================================================== *)
(** * What the two loaders return *)
(* ===================================================================== *)

Lemma name_is_blank_text (r : Row) :
  text_name r -> name_is_blank (prop r "WorkbuddyName") = Some (nameless r).
Proof.
  unfold text_name, nameless, display_name, name_is_blank.
  destruct (prop r "WorkbuddyName") as [|s|n]; [done| |done].
  intros _. by destruct s.
Qed.

Lemma fill_blank_names_spec index rows :
  Forall text_name rows ->
  fill_blank_names index rows
  = Some (imap (fun i => with_placeholder (index + i)) rows).
Proof.
  intros H. revert index. induction H as [|r rows Hr _ IH]; intros index; [done|].
  simpl. rewrite (name_is_blank_text _ Hr), (IH (S index)). simpl.
  rewrite Nat.add_0_r. unfold with_placeholder at 2. do 2 f_equal.
  apply imap_ext. intros i x _. simpl. by rewrite Nat.add_succ_r.
Qed.

Lemma papa_parse_text_names rt tokenize csvText :
  Forall text_name (papa_parse tokenize (transformHeader rt) (transform rt) csvText).
Proof.
  unfold papa_parse. destruct (tokenize csvText) as [|header records]; [done|].
  apply Forall_forall. intros r Hr. apply list_elem_of_In, in_map_iff in Hr.
  destruct Hr as (cells & <- & _). apply papa_row_text_name.
Qed.

Lemma parseCSV_papa rt tokenize csvText :
  Papa rt = Some tokenize ->
  parseCSV rt csvText
  = imap with_placeholder
         (papa_parse tokenize (transformHeader rt) (transform rt) csvText).
Proof.
  intros HP. unfold parseCSV. rewrite HP.
  by rewrite (fill_blank_names_spec 0 _ (papa_parse_text_names rt tokenize csvText)).
Qed.

Lemma loader_rows_spec rt headers i lines :
  loader_rows rt headers i lines
  = Some (List.map (fun il => with_placeholder (fst il)
                                (loader_row rt headers (parseCSVLine (snd il))))
            (List.filter (fun il => line_is_record headers (snd il))
                         (numbered i lines))).
Proof.
  revert i. induction lines as [|line lines IH]; intros i; [done|].
  simpl. unfold line_is_record at 1. simpl.
  destruct (String.eqb (Js.trim line) ""); simpl; [apply IH|].
  destruct (length _ =? length headers)%nat; simpl; [|apply IH].
  by rewrite (name_is_blank_text _ (loader_row_text_name _ _ _)), IH.
Qed.

Lemma parseCSV_fallback rt csvText first rest :
  Papa rt = None ->
  split_lines csvText = first :: rest ->
  let headers :=
    List.map (fun h => sanitizeString rt (Js.Str (Js.trim h))) (Js.split "," first) in
  parseCSV rt csvText
  = List.map (fun il => with_placeholder (fst il)
                          (loader_row rt headers (parseCSVLine (snd il))))
      (List.filter (fun il => line_is_record headers (snd il)) (numbered 1 rest)).
Proof.
  intros HP Hl headers. unfold parseCSV. rewrite HP, Hl.
  fold headers. by rewrite loader_rows_spec.
Qed.

Lemma numbered_bound {A} (f : nat * A -> bool) i (l : list A) il :
  il ∈ List.filter f (numbered i l) -> i <= fst il.
Proof.
  revert i. induction l as [|x l IH]; intros i; simpl; [by intros ?%elem_of_nil|].
  destruct (f (i, x)).
  - rewrite elem_of_cons. intros [->|H]; [done|]. apply IH in H. lia.
  - intros H. apply IH in H. lia.
Qed.

(** The lines that become records keep their own line numbers. *)
Lemma numbered_distinct {A} (f : nat * A -> bool) i (l : list A) :
  NoDup ((List.filter f (numbered i l)).*1).
Proof.
  revert i. induction l as [|x l IH]; intros i; simpl; [constructor|].
  destruct (f (i, x)); [|apply IH].
  rewrite fmap_cons. apply NoDup_cons. split; [|apply IH].
  intros (il & Heq & Hin)%list_elem_of_fmap. apply numbered_bound in Hin.
  simpl in Heq. lia.
Qed.

Lemma kept_lines_distinct {A} (f : nat * A -> bool) i (l : list A) p q il jl :
  p <> q ->
  List.filter f (numbered i l) !! p = Some il ->
  List.filter f (numbered i l) !! q = Some jl ->
  fst il <> fst jl.
Proof.
  intros Hne Hp Hq Heq. apply Hne.
  apply (NoDup_lookup _ p q (fst il) (numbered_distinct f i l));
    rewrite list_lookup_fmap; [by rewrite Hp|by rewrite Hq, Heq].
Qed.

Lemma with_placeholder_name index (r : Row) :
  nameless r = true ->
  prop (with_placeholder index r) "WorkbuddyName" = Js.Str (mysterious_name index).
Proof.
  intros H. unfold with_placeholder, prop. rewrite H. by rewrite lookup_insert_eq.
Qed.

Lemma with_placeholder_other index (r : Row) key :
  key <> "WorkbuddyName" -> with_placeholder index r !! key = r !! key.
Proof.
  intros H. unfold with_placeholder. destruct (nameless r); [|done].
  by rewrite lookup_insert_ne.
Qed.

Lemma with_placeholder_named index (r : Row) :
  nameless r = false -> with_placeholder index r = r.
Proof. intros H. unfold with_placeholder. by rewrite H. Qed.

Lemma loadCSVFile_result rt filePath w :
  fst (loadCSVFile rt filePath w)
  = match fetch rt filePath with
    | Response true csvText => Ok (parseCSV rt csvText)
    | Response false _ => Thrown "Failed to load CSV file"
    | NetworkError => Thrown "Failed to fetch"
    end.
Proof.
  unfold loadCSVFile.
  destruct (fetch rt filePath) as [|[] csvText]; [done| |done].
  set (rows := parseCSV rt csvText).
  pose (w1 := populateStateFilter rt
                (with_dom (set_total_count (Js.nat_to_string (length rows)))
                   (with_data (set_states (Some (unique_states rows)))
                      (with_data (set_filtered (Some rows))
                         (with_data (set_raw (Some rows)) w))))).
  destruct (updateActiveVisualization_ok rt w1 rows) as (w2 & Hup); [done|].
  unfold updateGlobalData, bind, ret, modify. cbn [fst snd]. fold w1.
  by rewrite Hup.
Qed.

(** A row is filled column by column; a column whose name occurs once
    gets the value its own cell gives. *)
Lemma fold_untouched (assign : Row -> string * string -> Row)
    (cells : list (string * string)) (acc : Row) key :
  (forall row hc, fst hc <> key -> assign row hc !! key = row !! key) ->
  Forall (fun hc => fst hc <> key) cells ->
  fold_left assign cells acc !! key = acc !! key.
Proof.
  intros Hother H. revert acc. induction H as [|hc cells Hhc _ IH]; intros acc; [done|].
  simpl. rewrite IH. by apply Hother.
Qed.

Lemma fold_assigns (assign : Row -> string * string -> Row)
    headers values (acc : Row) j key cell v :
  (forall row hc, fst hc <> key -> assign row hc !! key = row !! key) ->
  (forall row, assign row (key, cell) !! key = Some v) ->
  NoDup headers -> headers !! j = Some key -> values !! j = Some cell ->
  fold_left assign (combine headers values) acc !! key = Some v.
Proof.
  intros Hother Hown. revert values acc j.
  induction headers as [|h headers IH]; intros values acc j Hnd Hh Hc; [done|].
  destruct values as [|c values]; [done|].
  apply NoDup_cons in Hnd as [Hnotin Hnd].
  destruct j as [|j]; simpl in *.
  - injection Hh as ->. injection Hc as ->.
    rewrite fold_untouched; [apply Hown|done|].
    apply Forall_forall. intros [h' c'] Hin Heq. simpl in Heq. subst h'.
    apply Hnotin. apply list_elem_of_In in Hin. apply in_combine_l in Hin.
    by apply list_elem_of_In.
  - by eapply IH.
Qed.

Lemma coordinate_column_test key :
  coordinate_column key ->
  String.eqb (Js.toLowerCase key) "latitude"
  || String.eqb (Js.toLowerCase key) "longitude" = true.
Proof. by intros [-> | ->]. Qed.

Lemma coordinate_column_not_proto key :
  coordinate_column key -> String.eqb key "__proto__" = false.
Proof.
  intros H. destruct (String.eqb_spec key "__proto__") as [->|]; [|done].
  by destruct H.
Qed.

Lemma coordinate_column_not_name key :
  coordinate_column key -> key <> "WorkbuddyName".
Proof. intros H ->. by destruct H. Qed.

Lemma papa_row_coordinate rt headers cells j key cell :
  NoDup headers -> headers !! j = Some key -> cells !! j = Some cell ->
  coordinate_column key ->
  papa_row (transform rt) headers cells !! key
  = Some (Js.Num (number_or_zero (parseFloat rt cell))).
Proof.
  intros Hnd Hh Hc Hkey. unfold papa_row.
  apply (fold_assigns _ _ _ _ j key cell); try done.
  - intros row [h c] Hne. simpl in *.
    destruct (String.eqb h "__proto__"); [done|]. by rewrite lookup_insert_ne.
  - intros row. simpl. rewrite (coordinate_column_not_proto _ Hkey).
    rewrite lookup_insert_eq. unfold transform.
    by rewrite (coordinate_column_test _ Hkey).
Qed.

Lemma manual_row_coordinate rt headers rowData j key cell :
  NoDup headers -> headers !! j = Some key -> rowData !! j = Some cell ->
  key = "latitude" \/ key = "longitude" ->
  manual_row rt headers rowData !! key
  = Some (Js.Num (number_or_zero (parseFloat rt cell))).
Proof.
  intros Hnd Hh Hc Hkey. unfold manual_row.
  apply (fold_assigns _ _ _ _ j key cell); try done.
  - intros row [h c] Hne. simpl in *.
    destruct (_ || _); [by rewrite lookup_insert_ne|].
    destruct (String.eqb h "__proto__"); [done|]. by rewrite lookup_insert_ne.
  - intros row. simpl. rewrite (coordinate_key_exact _ Hkey).
    by rewrite lookup_insert_eq.
Qed.

Lemma loader_row_coordinate rt headers values j key cell :
  NoDup headers -> headers !! j = Some key -> values !! j = Some cell ->
  coordinate_column key ->
  loader_row rt headers values !! key
  = Some (Js.Num (number_or_zero (parseFloat rt cell))).
Proof.
  intros Hnd Hh Hc Hkey. unfold loader_row.
  apply (fold_assigns _ _ _ _ j key cell); try done.
  - intros row [h c] Hne. simpl in *.
    destruct (_ || _); [by rewrite lookup_insert_ne|].
    destruct (String.eqb h "__proto__"); [done|]. by rewrite lookup_insert_ne.
  - intros row. simpl. rewrite (coordinate_column_test _ Hkey).
    by rewrite lookup_insert_eq.
Qed.

(** The manual parser of [loadData] keeps the lines that are not empty and
    have as many cells as there are columns, in their order. *)
Lemma manual_rows_spec rt headers lines :
  manual_rows rt headers lines
  = List.map (manual_row rt headers)
      (List.filter (fun rowData => negb (bool_decide (rowData = [""]))
                                   && (length rowData =? length headers)%nat)
                   (List.map (manual_cells rt) lines)).
Proof.
  induction lines as [|line lines IH]; [done|].
  unfold manual_rows in *. cbn [flat_map List.map List.filter].
  rewrite IH. clear IH. fold (manual_cells rt line).
  case_bool_decide; [done|]. cbn [negb andb].
  by destruct (length _ =? length headers)%nat.
Qed.

Lemma handle_empty_names_other index data i item :
  data !! i = Some item ->
  exists row,
    handle_empty_names index data !! i = Some row
    /\ forall key, key <> "WorkbuddyName" -> row !! key = item !! key.
Proof.
  intros Hi. rewrite (handle_empty_names_lookup index _ _ _ Hi).
  eexists. split; [done|]. intros key Hkey. destruct (Js.truthy _); [done|].
  by rewrite lookup_insert_ne.
Qed.

Lemma numbered_elem {A} i (l : list A) x :
  x ∈ l -> exists k, (k, x) ∈ numbered i l.
Proof.
  revert i. induction l as [|y l IH]; intros i; [by intros ?%elem_of_nil|].
  rewrite elem_of_cons. intros [->|H].
  - exists i. simpl. rewrite elem_of_cons. by left.
  - destruct (IH (S i) H) as (k & Hk). exists k. simpl. rewrite elem_of_cons. by right.
Qed.

(* ===================================================================== *)
(** * C9: placeholder names *)
(* ===================================================================== *)

(** C9. [loadData] gives the record at position [i] of the parsed file the
    name ["MysteriousSpuddy" ++ (1000 + i)] when its name is missing or
    empty, and leaves every other record as it is. [dataLoader.parseCSV]
    does so when the name is missing, empty or blank: with Papa the
    position is that of the record among the parsed records, and the
    result is the parsed records, each with its placeholder if it needs
    one; without Papa the position is the number of the line in the file,
    the header being line 0, and the result is one record for each line
    that is not blank and has as many fields as the header. [trim] and
    the model agree on ASCII text, hence the premises on the names and on
    the file. Placeholders of different positions differ, so the
    placeholders given within one load are pairwise distinct, for each of
    the three ways of loading; and what a load returns depends on the
    fetched text alone, not on the page, so loading the same source again
    gives the same names. *)
Theorem placeholder_names rt :
  (forall data i item, data !! i = Some item ->
     handle_empty_names 0 data !! i
     = Some (if Js.truthy (prop item "WorkbuddyName") then item
             else <[ "WorkbuddyName" := Js.Str (mysterious_name i) ]> item))
  /\ (forall csvText w,
        fetch_csv rt = Some csvText ->
        fst (loadData rt w) = Ok (handle_empty_names 0 (parse_text rt csvText)))
  /\ (forall tokenize csvText,
        Papa rt = Some tokenize ->
        let records :=
          papa_parse tokenize (transformHeader rt) (transform rt) csvText in
        ascii_text csvText ->
        Forall (fun r => ascii_text (display_name r)) records ->
        parseCSV rt csvText = imap with_placeholder records)
  /\ (forall csvText first rest,
        Papa rt = None ->
        split_lines csvText = first :: rest ->
        let headers :=
          List.map (fun h => sanitizeString rt (Js.Str (Js.trim h)))
                   (Js.split "," first) in
        let record line := loader_row rt headers (parseCSVLine line) in
        let kept :=
          List.filter (fun il => line_is_record headers (snd il)) (numbered 1 rest) in
        ascii_text csvText ->
        Forall (fun il => ascii_text (display_name (record (snd il)))) kept ->
        parseCSV rt csvText
        = List.map (fun il => with_placeholder (fst il) (record (snd il))) kept)
  /\ (forall i j, mysterious_name i = mysterious_name j -> i = j)
  /\ (forall data i j a b a' b',
        i <> j ->
        data !! i = Some a -> data !! j = Some b ->
        Js.truthy (prop a "WorkbuddyName") = false ->
        Js.truthy (prop b "WorkbuddyName") = false ->
        handle_empty_names 0 data !! i = Some a' ->
        handle_empty_names 0 data !! j = Some b' ->
        prop a' "WorkbuddyName" <> prop b' "WorkbuddyName")
  /\ (forall tokenize csvText i j a b a' b',
        Papa rt = Some tokenize ->
        let records :=
          papa_parse tokenize (transformHeader rt) (transform rt) csvText in
        ascii_text csvText ->
        Forall (fun r => ascii_text (display_name r)) records ->
        i <> j ->
        records !! i = Some a -> records !! j = Some b ->
        nameless a = true -> nameless b = true ->
        parseCSV rt csvText !! i = Some a' ->
        parseCSV rt csvText !! j = Some b' ->
        prop a' "WorkbuddyName" <> prop b' "WorkbuddyName")
  /\ (forall csvText first rest p q il jl a' b',
        Papa rt = None ->
        split_lines csvText = first :: rest ->
        let headers :=
          List.map (fun h => sanitizeString rt (Js.Str (Js.trim h)))
                   (Js.split "," first) in
        let record line := loader_row rt headers (parseCSVLine line) in
        let kept :=
          List.filter (fun il => line_is_record headers (snd il)) (numbered 1 rest) in
        ascii_text csvText ->
        Forall (fun il => ascii_text (display_name (record (snd il)))) kept ->
        p <> q ->
        kept !! p = Some il -> kept !! q = Some jl ->
        nameless (record (snd il)) = true -> nameless (record (snd jl)) = true ->
        parseCSV rt csvText !! p = Some a' ->
        parseCSV rt csvText !! q = Some b' ->
        prop a' "WorkbuddyName" <> prop b' "WorkbuddyName")
  /\ (forall w1 w2, fst (loadData rt w1) = fst (loadData rt w2))
  /\ (forall filePath w1 w2,
        fst (loadCSVFile rt filePath w1) = fst (loadCSVFile rt filePath w2)).
Proof.
  split; [intros data i item; apply (handle_empty_names_lookup 0)|].
  split.
  { intros csvText w Hfetch. unfold loadData. by rewrite Hfetch. }
  split.
  { intros tokenize csvText HP records _ _. by apply parseCSV_papa. }
  split.
  { intros csvText first rest HP Hl headers record kept _ _.
    by apply parseCSV_fallback. }
  split; [apply mysterious_name_inj|].
  split.
  { intros data i j a b a' b' Hne Ha Hb Hta Htb Ha' Hb'.
    rewrite (handle_empty_names_lookup 0 _ _ _ Ha), Hta in Ha'.
    rewrite (handle_empty_names_lookup 0 _ _ _ Hb), Htb in Hb'.
    injection Ha' as <-. injection Hb' as <-.
    unfold prop. rewrite !lookup_insert_eq. cbn [default].
    intros H. unfold id in H. apply Hne, mysterious_name_inj. congruence. }
  split.
  { intros tokenize csvText i j a b a' b' HP records _ _ Hne Ha Hb Hna Hnb.
    rewrite (parseCSV_papa _ _ _ HP). fold records.
    rewrite !list_lookup_imap, Ha, Hb. simpl.
    intros [= <-] [= <-]. rewrite !with_placeholder_name by done.
    intros H. apply Hne, mysterious_name_inj. congruence. }
  split.
  { intros csvText first rest p q il jl a' b' HP Hl headers record kept _ _
           Hne Hp Hq Hnp Hnq.
    rewrite (parseCSV_fallback _ _ _ _ HP Hl). fold headers record kept.
    change (List.map ?f kept) with (f <$> kept).
    rewrite !list_lookup_fmap, Hp, Hq. simpl.
    intros [= <-] [= <-]. rewrite !with_placeholder_name by done.
    intros H. apply (kept_lines_distinct _ _ _ _ _ _ _ Hne Hp Hq).
    apply mysterious_name_inj. congruence. }
  split.
  { intros w1 w2. unfold loadData. by destruct (fetch_csv rt). }
  intros filePath w1 w2. by rewrite !loadCSVFile_result.
Qed.

(** A file read without Papa: line 1 has no name, line 2 is blank, line 3
    has a name and line 4 has a blank one. *)
Lemma placeholder_names_witness :
  let rt := Sample.bare_runtime "" in
  let csvText :=
    ("WorkbuddyName,State" ++ Sample.newline ++ ",CA" ++ Sample.newline
     ++ Sample.newline ++ "Bob,NY" ++ Sample.newline ++ "  ,TX")%string in
  List.map (fun r : Row => prop r "WorkbuddyName") (parseCSV rt csvText)
  = [Js.Str "MysteriousSpuddy1001"; Js.Str "Bob"; Js.Str "MysteriousSpuddy1004"].
Proof.
  intros rt csvText.
  destruct (placeholder_names rt) as (_ & _ & _ & H & _).
  rewrite (H csvText "WorkbuddyName,State" [",CA"; ""; "Bob,NY"; "  ,TX"]);
    by_evaluation.
Defined.

(* ===================================================================== *)
(** * C10: coordinates are numbers, never NaN *)
(* ===================================================================== *)

(** C10, as the code has it. The [transform] callback turns a coordinate
    cell into a number that is not NaN: the parsed number, or 0 when
    parsing gives NaN. Hence in every record of a successful [loadData],
    and in every record [parseCSV] returns, a latitude or longitude
    property, if the record has one, holds a number other than NaN. No row
    is dropped for its coordinates: with Papa each loader returns one row
    per record of the file, and the row holds, under each coordinate
    column for which the record has a cell, the number of that cell;
    without Papa each line that is not blank and has as many cells as the
    header gives a row with the numbers of its coordinate cells. (A column
    name is taken to occur once, and the lines are cut as the code cuts
    them on ASCII text.) A record that Papa reads from a line with fewer
    cells than the header has no property for the columns it lacks, so
    the statement is about the cells a record has. *)
Theorem coordinates_never_NaN rt :
  (forall value header,
     Js.toLowerCase header = "latitude" \/ Js.toLowerCase header = "longitude" ->
     transform rt value header
     = Js.Num (if Js.num_isNaN (parseFloat rt value) then Js.zero
               else parseFloat rt value)
     /\ exists n, transform rt value header = Js.Num n /\ Js.num_isNaN n = false)
  /\ (forall w rows w',
        loadData rt w = (Ok rows, w') -> Forall coordinates_are_numbers rows)
  /\ (forall csvText, Forall coordinates_are_numbers (parseCSV rt csvText))
  /\ (forall tokenize csvText header records,
        Papa rt = Some tokenize ->
        tokenize csvText = header :: records ->
        ascii_text csvText ->
        let keys := List.map (transformHeader rt) header in
        let loaded := handle_empty_names 0 (parse_text rt csvText) in
        length loaded = length records
        /\ length (parseCSV rt csvText) = length records
        /\ forall i cells,
             records !! i = Some cells ->
             exists row row',
               loaded !! i = Some row
               /\ parseCSV rt csvText !! i = Some row'
               /\ forall j key cell,
                    NoDup keys ->
                    keys !! j = Some key -> cells !! j = Some cell ->
                    coordinate_column key ->
                    row !! key = Some (Js.Num (number_or_zero (parseFloat rt cell)))
                    /\ row' !! key
                       = Some (Js.Num (number_or_zero (parseFloat rt cell))))
  /\ (forall csvText first rest,
        Papa rt = None ->
        Js.split "010" (Js.trim csvText) = first :: rest ->
        ascii_text csvText ->
        let headers :=
          List.map (fun header => sanitizeString rt (Js.Str (Js.trim header)))
                   (Js.split "," first) in
        forall line,
          line ∈ rest ->
          manual_cells rt line <> [""] ->
          length (manual_cells rt line) = length headers ->
          exists row,
            row ∈ handle_empty_names 0 (parse_text rt csvText)
            /\ forall j key cell,
                 NoDup headers ->
                 headers !! j = Some key ->
                 manual_cells rt line !! j = Some cell ->
                 key = "latitude" \/ key = "longitude" ->
                 row !! key = Some (Js.Num (number_or_zero (parseFloat rt cell))))
  /\ (forall csvText first rest,
        Papa rt = None ->
        split_lines csvText = first :: rest ->
        ascii_text csvText ->
        let headers :=
          List.map (fun h => sanitizeString rt (Js.Str (Js.trim h)))
                   (Js.split "," first) in
        forall line,
          line ∈ rest ->
          line_is_record headers line = true ->
          exists row,
            row ∈ parseCSV rt csvText
            /\ forall j key cell,
                 NoDup headers ->
                 headers !! j = Some key ->
                 parseCSVLine line !! j = Some cell ->
                 coordinate_column key ->
                 row !! key = Some (Js.Num (number_or_zero (parseFloat rt cell)))).
Proof.
  split.
  { intros value header Hh. unfold transform.
    rewrite (coordinate_column_test _ Hh).
    split; [done|]. eexists. split; [done|]. apply replace_NaN_not_NaN. }
  split.
  { intros w rows w' H. pose proof (loadData_result rt w) as Hload.
    destruct (fetch_csv rt) as [csvText|]; [|by rewrite Hload in H].
    destruct Hload as (w1 & Heq & _). rewrite Heq in H. injection H as <- _.
    apply handle_empty_names_coordinates, parse_text_coordinates. }
  split; [apply parseCSV_coordinates|].
  split.
  { intros tokenize csvText header records HP Ht _ keys loaded.
    assert (Hparsed : papa_parse tokenize (transformHeader rt) (transform rt) csvText
                      = papa_row (transform rt) keys <$> records).
    { unfold papa_parse. by rewrite Ht. }
    assert (Hloaded : loaded = handle_empty_names 0 (papa_row (transform rt) keys <$> records)).
    { unfold loaded, parse_text. by rewrite HP, Hparsed. }
    rewrite (parseCSV_papa _ _ _ HP), Hparsed, Hloaded.
    split; [by rewrite handle_empty_names_length, length_fmap|].
    split; [by rewrite length_imap, length_fmap|].
    intros i cells Hi.
    assert (Hrow : (papa_row (transform rt) keys <$> records) !! i
                   = Some (papa_row (transform rt) keys cells)).
    { by rewrite list_lookup_fmap, Hi. }
    destruct (handle_empty_names_other 0 _ _ _ Hrow) as (row & Hlook & Hsame).
    exists row, (with_placeholder i (papa_row (transform rt) keys cells)).
    split; [done|]. split; [by rewrite list_lookup_imap, Hrow|].
    intros j key cell Hnd Hk Hc Hcol.
    pose proof (coordinate_column_not_name _ Hcol) as Hne.
    rewrite (Hsame _ Hne), (with_placeholder_other _ _ _ Hne).
    split; by apply (papa_row_coordinate _ _ _ j). }
  split.
  { intros csvText first rest HP Hl _ headers line Hin Hcells Hlen.
    assert (Hparsed : parse_text rt csvText
                      = List.map (manual_row rt headers)
                          (List.filter
                             (fun rowData => negb (bool_decide (rowData = [""]))
                                             && (length rowData =? length headers)%nat)
                             (List.map (manual_cells rt) rest))).
    { unfold parse_text, manual_parse. rewrite HP, Hl. apply manual_rows_spec. }
    assert (Hitem : manual_row rt headers (manual_cells rt line) ∈ parse_text rt csvText).
    { rewrite Hparsed. apply list_elem_of_In, in_map, list_elem_of_In.
      apply elem_of_filter_bool. split.
      - by apply list_elem_of_In, in_map, list_elem_of_In.
      - rewrite bool_decide_eq_false_2 by done. simpl. by apply Nat.eqb_eq. }
    apply list_elem_of_lookup in Hitem as (i & Hi).
    destruct (handle_empty_names_other 0 _ _ _ Hi) as (row & Hlook & Hsame).
    exists row. split; [by apply list_elem_of_lookup; exists i|].
    intros j key cell Hnd Hk Hc Hkey.
    rewrite Hsame; [by apply (manual_row_coordinate _ _ _ j)|].
    by destruct Hkey as [-> | ->]. }
  intros csvText first rest HP Hl _ headers line Hin Hrec.
  rewrite (parseCSV_fallback _ _ _ _ HP Hl). fold headers.
  destruct (numbered_elem 1 _ _ Hin) as (k & Hk).
  exists (with_placeholder k (loader_row rt headers (parseCSVLine line))).
  split.
  { apply list_elem_of_In, in_map_iff. exists (k, line). split; [done|].
    apply list_elem_of_In, elem_of_filter_bool. by split. }
  intros j key cell Hnd Hh Hc Hcol.
  rewrite (with_placeholder_other _ _ _ (coordinate_column_not_name _ Hcol)).
  by apply (loader_row_coordinate _ _ _ j).
Qed.

(** A file read with Papa whose second record has a latitude that is no
    number and whose third has no coordinate cells: no row is lost, and
    the second row has latitude 0. *)
Lemma coordinates_never_NaN_witness :
  let rt := Sample.runtime "" in
  let csvText :=
    ("WorkbuddyName,latitude,longitude" ++ Sample.newline ++ "Ann,34,-118"
     ++ Sample.newline ++ "Ben,abc,12" ++ Sample.newline ++ "Cy")%string in
  length (parseCSV rt csvText) = 3
  /\ exists row,
       parseCSV rt csvText !! 1 = Some row
       /\ row !! "latitude" = Some (Js.Num Js.zero).
Proof.
  intros rt csvText.
  destruct (coordinates_never_NaN rt) as (_ & _ & _ & H & _).
  destruct (H Sample.tokenize csvText
              ["WorkbuddyName"; "latitude"; "longitude"]
              [["Ann"; "34"; "-118"]; ["Ben"; "abc"; "12"]; ["Cy"]])
    as (_ & Hlen & Hrows); [reflexivity|by_evaluation|by_evaluation|].
  split; [exact Hlen|].
  destruct (Hrows 1 ["Ben"; "abc"; "12"] eq_refl) as (loaded_row & row & _ & Hrow & Hcell).
  exists row. split; [exact Hrow|].
  destruct (Hcell 1 "latitude" "abc") as [_ Hv];
    [by_evaluation|reflexivity|reflexivity|by left|exact Hv].
Defined.

(** C10 fails for a record with fewer cells than the header: Papa gives
    it no property for the columns it lacks, so both loaders return a row
    whose latitude and longitude are not numbers but undefined. *)
Lemma short_record_has_no_coordinates :
  let csvText :=
    ("WorkbuddyName,State,latitude,longitude" ++ Sample.newline ++ "Ann,CA")%string in
  let rt := Sample.runtime csvText in
  let short : Row := <[ "State" := Js.Str "CA" ]> (<[ "WorkbuddyName" := Js.Str "Ann" ]> ∅) in
  fst (loadData rt (initial_world 0)) = Ok [short]
  /\ raw (data (exec (loadData rt) (initial_world 0))) = Some [short]
  /\ parseCSV rt csvText = [short]
  /\ prop short "latitude" = Js.Undefined
  /\ prop short "longitude" = Js.Undefined.
Proof. repeat split; by_evaluation. Qed.
